(** * flyctl: the image build / resolve orchestrator of [internal/build/imgsrc]

    A shallow embedding of [resolver.go]: the log-truncation helper, the
    telemetry record ([build]) and its methods, the two strategy loops
    ([ResolveReference], [BuildImage]), the remote-builder heartbeat start-up
    ([StartHeartbeat]) with the loop it starts, the single-fire
    [StopSignal] and the three [ToSpanAttributes] methods.

    Go strings are byte sequences; they are modelled by [string], whose
    characters are 8-bit [ascii] values, and [len] by [String.length].
    [int64] values are [Z], with the wrap-around written out where the code
    does arithmetic on them.  Logging ([terminal.Debugf], [terminal.Warnf])
    and the tracing spans opened by the functions have no effect on the
    values studied here and are left out. *)

From Stdlib Require Import String Ascii List ZArith Lia Bool DecimalString.
Import ListNotations.
Open Scope string_scope.
Open Scope list_scope.

(* ===================================================================== *)
(** * Strings and log truncation *)
(* ===================================================================== *)

Module Logs.

(** [const logLimit int = 4096] -- limit stored logs to 4KB. *)
Definition logLimit : nat := 4096.

(** The Go slice expression [s[n:]]: the bytes of [s] from offset [n] on. *)
Fixpoint slice_from (n : nat) (s : string) : string :=
  match n, s with
  | O, _ => s
  | S _, EmptyString => EmptyString
  | S k, String _ t => slice_from k t
  end.

(** [func limitLogs(log string) string] *)
Definition limitLogs (log : string) : string :=
  if (logLimit <? String.length log)%nat
  then slice_from (String.length log - logLimit) log
  else log.

(** A string of [n] copies of one byte, to build long inputs. *)
Fixpoint replicate (n : nat) (c : ascii) : string :=
  match n with
  | O => EmptyString
  | S k => String c (replicate k c)
  end.

End Logs.

(* ===================================================================== *)
(** * Go [error] values *)
(* ===================================================================== *)

Module Errors.

(** The error values the package sees.  [errorString] is what [errors.New]
    and [fmt.Errorf] build; [httpError] is the package's own
    [*httpError]; [gqlError] is a [*gqlerror.Error] of the GraphQL client;
    [wrapError] is any value with an [Unwrap] method around a cause.  For
    values built outside the package the text of [Error()] is carried in
    the value. *)
Inductive error : Type :=
| errorString (text : string)
| httpError (StatusCode : Z) (Body : string)
| gqlError (text : string) (Path : string) (Message : string)
| wrapError (text : string) (cause : error).

(** [%d] of an [int]. *)
Definition itoa (n : Z) : string := NilZero.string_of_int (Z.to_int n).

(** [func (e httpError) Error() string] is
    [fmt.Sprintf("%s (http: %d)", e.Body, e.StatusCode)]; the other cases
    are the [Error()] methods of the respective types. *)
Definition Error (e : error) : string :=
  match e with
  | errorString t => t
  | httpError code body => (body ++ " (http: " ++ itoa code ++ ")")%string
  | gqlError t _ _ => t
  | wrapError t _ => t
  end.

(** [errors.As(err, &h)] with [h *httpError]: the first [*httpError] on
    the [Unwrap] chain of [err], if there is one. *)
Fixpoint As_httpError (e : error) : option (Z * string) :=
  match e with
  | httpError code body => Some (code, body)
  | wrapError _ cause => As_httpError cause
  | errorString _ | gqlError _ _ _ => None
  end.

(** [errors.As(err, &gqlErr)] with [gqlErr *gqlerror.Error]. *)
Fixpoint As_gqlError (e : error) : option (string * string) :=
  match e with
  | gqlError _ path msg => Some (path, msg)
  | wrapError _ cause => As_gqlError cause
  | errorString _ | httpError _ _ => None
  end.

End Errors.

(* ===================================================================== *)
(** * The HTTP side of a docker client *)
(* ===================================================================== *)

Module Http.
Import Errors.

(** The fields of [*http.Request] that [StartHeartbeat] sets. *)
Record Request := mkRequest {
  Method : string;
  Url : string;
  BasicAuthUser : string;
  BasicAuthPassword : string;
  UserAgent : string
}.

(** An [*http.Response]: the status and what [io.ReadAll(resp.Body)]
    gives. *)
Record Response := mkResponse {
  StatusCode : Z;
  Status : string;
  ReadAll : string + error
}.

(** The two results of [client.HTTPClient().Do(req)]. *)
Definition DoResult : Type := Response + error.

(** A [*dockerclient.Client]: its daemon host and the answers of the
    builder; [HTTPDo k req] is the result of the [k]-th request made
    through it. *)
Record dockerClient := mkDockerClient {
  DaemonHost : string;
  HTTPDo : nat -> Request -> DoResult
}.

Definition StatusNotFound : Z := 404.
Definition StatusAccepted : Z := 202.

End Http.

(* ===================================================================== *)
(** * Requests, images and the GraphQL input types *)
(* ===================================================================== *)

(** Go maps with string keys are association lists here; none of the code
    below looks a key up, the maps are only passed on. *)
Definition strmap := list (string * string).

Module ImageOptions.
Record t := mk {
  AppName : string;
  WorkingDir : string;
  DockerfilePath : string;
  IgnorefilePath : string;
  ImageRef : string;
  BuildArgs : strmap;
  ExtraBuildArgs : strmap;
  BuildSecrets : strmap;
  ImageLabel : string;
  Publish : bool;
  Tag : string;
  Target : string;
  NoCache : bool;
  BuiltIn : string;
  BuiltInSettings : strmap;
  Builder : string;
  Buildpacks : list string;
  Label : strmap;
  BuildpacksDockerHost : string;
  BuildpacksVolumes : list string
}.

(** [opts.Tag = tag] on the by-value copy of the options. *)
Definition set_Tag (tag : string) (o : t) : t :=
  mk (AppName o) (WorkingDir o) (DockerfilePath o) (IgnorefilePath o)
     (ImageRef o) (BuildArgs o) (ExtraBuildArgs o) (BuildSecrets o)
     (ImageLabel o) (Publish o) tag (Target o) (NoCache o) (BuiltIn o)
     (BuiltInSettings o) (Builder o) (Buildpacks o) (Label o)
     (BuildpacksDockerHost o) (BuildpacksVolumes o).
End ImageOptions.

Module RefOptions.
Record t := mk {
  AppName : string;
  WorkingDir : string;
  ImageRef : string;
  ImageLabel : string;
  Publish : bool;
  Tag : string
}.
End RefOptions.

Module DeploymentImage.
Record t := mk {
  ID : string;
  Tag : string;
  Size : Z;
  Labels : strmap
}.
End DeploymentImage.

Module gql.

(** Modelled from the spec: the declarations of package [gql] (generated
    GraphQL input types) are not among the sources; the records below have
    the fields [resolver.go] reads and writes, with the types it uses them
    at. *)
Module BuildImageOptsInput.
Record t := mk {
  BuildArgs : strmap;
  BuildPacks : list string;
  Builder : string;
  BuiltIn : string;
  BuiltInSettings : strmap;
  DockerfilePath : string;
  ExtraBuildArgs : strmap;
  ImageLabel : string;
  ImageRef : string;
  NoCache : bool;
  Publish : bool;
  Tag : string;
  Target : string
}.
End BuildImageOptsInput.

Module CreateBuildInput.
Record t := mk {
  AppName : string;
  BuilderType : string;
  ImageOpts : BuildImageOptsInput.t;
  MachineId : string;
  StrategiesAvailable : list string
}.
End CreateBuildInput.

Module BuilderMetaInput.
Record t := mk {
  BuilderType : string;
  RemoteAppName : string;
  RemoteMachineId : string;
  BuildkitEnabled : bool;
  DockerVersion : string;
  Platform : string
}.
(** The Go zero value [gql.BuilderMetaInput{}]. *)
Definition zero : t := mk "" "" "" false "" "".
End BuilderMetaInput.

Module BuildStrategyAttemptInput.
Record t := mk {
  Strategy : string;
  Result : string;
  Error : string;
  Note : string
}.
End BuildStrategyAttemptInput.

Module BuildTimingsInput.
Record t := mk {
  BuildAndPushMs : Z;
  BuilderInitMs : Z;
  BuildMs : Z;
  ContextBuildMs : Z;
  ImageBuildMs : Z;
  PushMs : Z
}.
(** The Go zero value [gql.BuildTimingsInput{}]. *)
Definition zero : t := mk 0 0 0 0 0 0.
(** All six fields at the sentinel [-1]. *)
Definition unmeasured : t := mk (-1) (-1) (-1) (-1) (-1) (-1).
End BuildTimingsInput.

Module BuildFinalImageInput.
Record t := mk {
  Id : string;
  Tag : string;
  SizeBytes : Z
}.
(** The Go zero value, what [FinishBuildInput.FinalImage] holds when the
    code does not assign it. *)
Definition zero : t := mk "" "" 0.
End BuildFinalImageInput.

Module FinishBuildInput.
Record t := mk {
  BuildId : string;
  AppName : string;
  MachineId : string;
  Status : string;
  Logs : string;
  BuilderMeta : BuilderMetaInput.t;
  StrategiesAttempted : list BuildStrategyAttemptInput.t;
  Timings : BuildTimingsInput.t;
  FinalImage : BuildFinalImageInput.t
}.
Definition set_FinalImage (f : BuildFinalImageInput.t) (i : t) : t :=
  mk (BuildId i) (AppName i) (MachineId i) (Status i) (Logs i)
     (BuilderMeta i) (StrategiesAttempted i) (Timings i) f.
End FinishBuildInput.

(** The part of the [finishBuild] response the code reads. *)
Module FinishBuildResp.
Record t := mk {
  Id : string;
  Status : string;
  WallclockTimeMs : Z
}.
End FinishBuildResp.

(** The GraphQL client taken from the context: the two mutations, as the
    answers the remote build-tracking service gives. *)
Record Client := mkClient {
  ResolverCreateBuild : CreateBuildInput.t -> string + Errors.error;
  ResolverFinishBuild : FinishBuildInput.t -> FinishBuildResp.t + Errors.error
}.

End gql.

(* ===================================================================== *)
(** * The telemetry record [build] *)
(* ===================================================================== *)

Module Telemetry.
Import Errors Logs.
Export gql.

(** Subtraction of two [int64] values, as the machine does it. *)
Definition wrap64 (z : Z) : Z := ((z + 2 ^ 63) mod 2 ^ 64 - 2 ^ 63)%Z.

(** The wall clock: [readings k] is what the [k]-th call of
    [time.Now().UnixMilli()] returns. *)
Record Clock := mkClock {
  readings : nat -> Z;
  pos : nat
}.

Definition UnixMilliNow (c : Clock) : Z * Clock :=
  (readings c (pos c), mkClock (readings c) (S (pos c))).

(** [type build struct]; the three pointers are owned by the record and
    never shared, so they are held by value. *)
Record build := mkBuild {
  CreateApiFailed : bool;
  BuildId : string;
  BuilderMeta : BuilderMetaInput.t;
  StrategyResults : list BuildStrategyAttemptInput.t;
  Timings : BuildTimingsInput.t;
  StartTimes : BuildTimingsInput.t
}.

Definition set_BuilderMeta (m : BuilderMetaInput.t) (b : build) : build :=
  mkBuild (CreateApiFailed b) (BuildId b) m (StrategyResults b) (Timings b) (StartTimes b).
Definition set_StrategyResults (l : list BuildStrategyAttemptInput.t) (b : build) : build :=
  mkBuild (CreateApiFailed b) (BuildId b) (BuilderMeta b) l (Timings b) (StartTimes b).
Definition set_Timings (t : BuildTimingsInput.t) (b : build) : build :=
  mkBuild (CreateApiFailed b) (BuildId b) (BuilderMeta b) (StrategyResults b) t (StartTimes b).
Definition set_StartTimes (t : BuildTimingsInput.t) (b : build) : build :=
  mkBuild (CreateApiFailed b) (BuildId b) (BuilderMeta b) (StrategyResults b) (Timings b) t.

(** [func newBuild(buildId string, createApiFailed bool) *build] *)
Definition newBuild (buildId : string) (createApiFailed : bool) : build :=
  mkBuild createApiFailed buildId BuilderMetaInput.zero []
          BuildTimingsInput.unmeasured BuildTimingsInput.zero.

(** [func newFailedBuild() *build] *)
Definition newFailedBuild : build := newBuild "" true.

(** [func (b *build) SetBuilderMetaPart1(...)]; the receiver may be nil. *)
Definition SetBuilderMetaPart1 (remote : bool) (remoteAppName remoteMachineId : string)
    (b : option build) : option build :=
  match b with
  | None => None
  | Some b =>
    let builderType := if negb remote then "local" else "remote" in
    let m := BuilderMeta b in
    Some (set_BuilderMeta
            (BuilderMetaInput.mk builderType remoteAppName remoteMachineId
               (BuilderMetaInput.BuildkitEnabled m) (BuilderMetaInput.DockerVersion m)
               (BuilderMetaInput.Platform m)) b)
  end.

(** [func (b *build) SetBuilderMetaPart2(...)] *)
Definition SetBuilderMetaPart2 (buildkitEnabled : bool) (dockerVersion platform : string)
    (b : build) : build :=
  let m := BuilderMeta b in
  set_BuilderMeta
    (BuilderMetaInput.mk (BuilderMetaInput.BuilderType m) (BuilderMetaInput.RemoteAppName m)
       (BuilderMetaInput.RemoteMachineId m) buildkitEnabled dockerVersion platform) b.

(** [func (b *build) ResetTimings()] *)
Definition ResetTimings (b : build) : build :=
  set_Timings BuildTimingsInput.unmeasured (set_StartTimes BuildTimingsInput.zero b).

Definition set_BuildAndPushMs (v : Z) (t : BuildTimingsInput.t) : BuildTimingsInput.t :=
  let 'BuildTimingsInput.mk _ a b c d e := t in BuildTimingsInput.mk v a b c d e.

(** [func (b *build) BuildAndPushStart()] *)
Definition BuildAndPushStart (b : build) (c : Clock) : build * Clock :=
  let (now, c) := UnixMilliNow c in
  (set_StartTimes (set_BuildAndPushMs now (StartTimes b)) b, c).

(** [func (b *build) BuildAndPushFinish()] *)
Definition BuildAndPushFinish (b : build) (c : Clock) : build * Clock :=
  let (now, c) := UnixMilliNow c in
  (set_Timings
     (set_BuildAndPushMs
        (wrap64 (now - BuildTimingsInput.BuildAndPushMs (StartTimes b))) (Timings b)) b,
   c).

Definition set_BuilderInitMs (v : Z) (t : BuildTimingsInput.t) : BuildTimingsInput.t :=
  let 'BuildTimingsInput.mk a _ c d e f := t in BuildTimingsInput.mk a v c d e f.

(** [func (b *build) BuilderInitStart()] *)
Definition BuilderInitStart (b : build) (c : Clock) : build * Clock :=
  let (now, c) := UnixMilliNow c in
  (set_StartTimes (set_BuilderInitMs now (StartTimes b)) b, c).

(** [func (b *build) BuilderInitFinish()] *)
Definition BuilderInitFinish (b : build) (c : Clock) : build * Clock :=
  let (now, c) := UnixMilliNow c in
  (set_Timings
     (set_BuilderInitMs (wrap64 (now - BuildTimingsInput.BuilderInitMs (StartTimes b))) (Timings b)) b,
   c).

Definition set_BuildMs (v : Z) (t : BuildTimingsInput.t) : BuildTimingsInput.t :=
  let 'BuildTimingsInput.mk a b _ d e f := t in BuildTimingsInput.mk a b v d e f.

(** [func (b *build) BuildStart()] *)
Definition BuildStart (b : build) (c : Clock) : build * Clock :=
  let (now, c) := UnixMilliNow c in
  (set_StartTimes (set_BuildMs now (StartTimes b)) b, c).

(** [func (b *build) BuildFinish()] *)
Definition BuildFinish (b : build) (c : Clock) : build * Clock :=
  let (now, c) := UnixMilliNow c in
  (set_Timings
     (set_BuildMs (wrap64 (now - BuildTimingsInput.BuildMs (StartTimes b))) (Timings b)) b,
   c).

Definition set_ContextBuildMs (v : Z) (t : BuildTimingsInput.t) : BuildTimingsInput.t :=
  let 'BuildTimingsInput.mk a b c _ e f := t in BuildTimingsInput.mk a b c v e f.

(** [func (b *build) ContextBuildStart()] *)
Definition ContextBuildStart (b : build) (c : Clock) : build * Clock :=
  let (now, c) := UnixMilliNow c in
  (set_StartTimes (set_ContextBuildMs now (StartTimes b)) b, c).

(** [func (b *build) ContextBuildFinish()] *)
Definition ContextBuildFinish (b : build) (c : Clock) : build * Clock :=
  let (now, c) := UnixMilliNow c in
  (set_Timings
     (set_ContextBuildMs (wrap64 (now - BuildTimingsInput.ContextBuildMs (StartTimes b))) (Timings b)) b,
   c).

Definition set_ImageBuildMs (v : Z) (t : BuildTimingsInput.t) : BuildTimingsInput.t :=
  let 'BuildTimingsInput.mk a b c d _ f := t in BuildTimingsInput.mk a b c d v f.

(** [func (b *build) ImageBuildStart()] *)
Definition ImageBuildStart (b : build) (c : Clock) : build * Clock :=
  let (now, c) := UnixMilliNow c in
  (set_StartTimes (set_ImageBuildMs now (StartTimes b)) b, c).

(** [func (b *build) ImageBuildFinish()] *)
Definition ImageBuildFinish (b : build) (c : Clock) : build * Clock :=
  let (now, c) := UnixMilliNow c in
  (set_Timings
     (set_ImageBuildMs (wrap64 (now - BuildTimingsInput.ImageBuildMs (StartTimes b))) (Timings b)) b,
   c).

Definition set_PushMs (v : Z) (t : BuildTimingsInput.t) : BuildTimingsInput.t :=
  let 'BuildTimingsInput.mk a b c d e _ := t in BuildTimingsInput.mk a b c d e v.

(** [func (b *build) PushStart()] *)
Definition PushStart (b : build) (c : Clock) : build * Clock :=
  let (now, c) := UnixMilliNow c in
  (set_StartTimes (set_PushMs now (StartTimes b)) b, c).

(** [func (b *build) PushFinish()] *)
Definition PushFinish (b : build) (c : Clock) : build * Clock :=
  let (now, c) := UnixMilliNow c in
  (set_Timings
     (set_PushMs (wrap64 (now - BuildTimingsInput.PushMs (StartTimes b))) (Timings b)) b,
   c).

(** The record one call of [finishStrategyCommon] builds. *)
Definition attemptInput (strategy : string) (failed : bool) (err : option error)
    (note : string) : BuildStrategyAttemptInput.t :=
  let result := if negb failed then "success" else "failed" in
  let errMsg := match err with Some e => Error e | None => "" end in
  BuildStrategyAttemptInput.mk strategy result (limitLogs errMsg) (limitLogs note).

(** [func (b *build) finishStrategyCommon(strategy string, failed bool, err error, note string)] *)
Definition finishStrategyCommon (strategy : string) (failed : bool) (err : option error)
    (note : string) (b : build) : build :=
  let r := attemptInput strategy failed err note in
  set_StrategyResults (StrategyResults b ++ [r]) b.

(** [type buildResult struct] *)
Record buildResult := mkBuildResult {
  br_BuildId : string;
  br_Status : string;
  wallclockTimeMs : Z
}.

End Telemetry.

(* ===================================================================== *)
(** * The orchestrator: [ResolveReference] and [BuildImage] *)
(* ===================================================================== *)

Module Orchestrator.
Import Errors Logs.
Export Telemetry.

(** What one call of a strategy's [Run] leaves behind: the three values it
    returns, the record it was handed (a pointer, so [Run] may have written
    to it) and the clock after the time it took. *)
Record RunOut := mkRunOut {
  out_img : option DeploymentImage.t;
  out_note : string;
  out_err : option error;
  out_build : build;
  out_clock : Clock
}.

(** [type imageBuilder interface] and [type imageResolver interface]: a
    name and a [Run].  The context, the docker factory and the streams are
    the same for every call of a session and are not arguments here. *)
Record strategy (Opts : Type) := mkStrategy {
  Name : string;
  Run : Opts -> build -> Clock -> RunOut
}.
Arguments mkStrategy {Opts} _ _.
Arguments Name {Opts} _.
Arguments Run {Opts} _ _ _ _.

Definition imageBuilder := strategy ImageOptions.t.
Definition imageResolver := strategy RefOptions.t.

(** Modelled from the spec: [dockerClientFactory] and [DockerDaemonType]
    are declared in files that are not among the sources; the orchestrator
    reads the availability check, the nixpacks ("fast-build") mode flag,
    the remote flag and the application name, and the heartbeat asks
    [buildFn] for a docker client. *)
Record DockerDaemonType := mkMode {
  IsAvailable : bool;
  UseNixpacks : bool
}.

Record dockerClientFactory := mkFactory {
  mode : DockerDaemonType;
  remote : bool;
  appName : string;
  buildFn : Http.dockerClient + error
}.

(** [client.FromContext(ctx).API().GenqClient] *)
Record Context := mkContext {
  GenqClient : gql.Client
}.

(** The concrete strategies and helpers the two entry points name but whose
    code lives elsewhere: the two resolvers, the four builders,
    [NewDeploymentTag] and the [%q] verb of [fmt]. *)
Record Impl := mkImpl {
  localImageResolver : imageResolver;
  remoteImageResolver : imageResolver;
  buildpacksBuilder : imageBuilder;
  dockerfileBuilder : imageBuilder;
  builtinBuilder : imageBuilder;
  nixpacksBuilder : imageBuilder;
  NewDeploymentTag : string -> string -> string;
  Quote : string -> string
}.

(** [type Resolver struct] *)
Record Resolver := mkResolver {
  dockerFactory : dockerClientFactory;
  impl : Impl
}.

Section Session.
Variable Opts : Type.

(** What a session does that can be observed from outside, in order. *)
Inductive Event : Type :=
| EvCreateBuild (input : CreateBuildInput.t)
| EvRun (s : strategy Opts) (b : build) (c : Clock)
| EvAppend (r : BuildStrategyAttemptInput.t)
| EvFinishBuild (failed : bool) (logs : string) (img : option DeploymentImage.t)
| EvGqlFinishBuild (input : FinishBuildInput.t)
| EvSentry (feature : string) (err : error).

Record World := mkWorld {
  clock : Clock;
  trace : list Event
}.

(** Computations that read the clock and leave events. *)
Definition M (A : Type) : Type := World -> A * World.

Definition ret {A} (a : A) : M A := fun w => (a, w).
Definition bind {A B} (m : M A) (k : A -> M B) : M B :=
  fun w => let (a, w') := m w in k a w'.
Definition emit (e : Event) : M unit :=
  fun w => (tt, mkWorld (clock w) (trace w ++ [e])).
Definition timed {A} (f : Clock -> A * Clock) : M A :=
  fun w => let (a, c) := f (clock w) in (a, mkWorld c (trace w)).

End Session.

Arguments EvCreateBuild {Opts} _.
Arguments EvRun {Opts} _ _ _.
Arguments EvAppend {Opts} _.
Arguments EvFinishBuild {Opts} _ _ _.
Arguments EvGqlFinishBuild {Opts} _.
Arguments EvSentry {Opts} _ _.
Arguments mkWorld {Opts} _ _.
Arguments clock {Opts} _.
Arguments trace {Opts} _.
Arguments ret {Opts A} _ _.
Arguments bind {Opts A B} _ _ _.
Arguments emit {Opts} _ _.
Arguments timed {Opts A} _ _.

Notation "x <- m ;; k" := (bind m (fun x => k))
  (at level 61, m at next level, right associativity).
Notation "' p <- m ;; k" := (bind m (fun x => let 'p := x in k))
  (at level 61, p pattern, m at next level, right associativity).
Notation "m ;;; k" := (bind m (fun _ => k))
  (at level 61, right associativity).

Section Loop.
Context {Opts : Type}.
Variable r : Resolver.
Variable ctx : Context.

(** [s.Run(ctx, r.dockerFactory, streams, opts, bld)] *)
Definition callRun (s : strategy Opts) (opts : Opts) (bld : build)
  : M Opts (option DeploymentImage.t * string * option error * build) :=
  fun w =>
    let o := Run s opts bld (clock w) in
    ((out_img o, out_note o, out_err o, out_build o),
     mkWorld (out_clock o) (trace w ++ [EvRun s bld (clock w)])).

(** [func (b *build) FinishStrategy(...)] and
    [func (b *build) FinishImageStrategy(...)]: both are
    [b.finishStrategyCommon(strategy.Name(), failed, err, note)]. *)
Definition FinishStrategy (s : strategy Opts) (failed : bool) (err : option error)
    (note : string) (bld : build) : M Opts build :=
  emit (EvAppend (attemptInput (Name s) failed err note)) ;;;
  ret (finishStrategyCommon (Name s) failed err note bld).

(** [func (r *Resolver) finishBuild(ctx, build, failed, logs, img)], returning a [buildResult] pointer and an [error] *)
Definition finishBuild (bld : build) (failed : bool) (logs : string)
    (img : option DeploymentImage.t) : M Opts (option buildResult * option error) :=
  emit (EvFinishBuild failed logs img) ;;;
  if CreateApiFailed bld then ret (None, None)
  else
    let status := if negb failed then "completed" else "failed" in
    let input :=
      FinishBuildInput.mk (BuildId bld) (appName (dockerFactory r)) "" status
        (limitLogs logs) (BuilderMeta bld) (StrategyResults bld) (Timings bld)
        BuildFinalImageInput.zero in
    let input :=
      match img with
      | Some i =>
        FinishBuildInput.set_FinalImage
          (BuildFinalImageInput.mk (DeploymentImage.ID i) (DeploymentImage.Tag i)
             (DeploymentImage.Size i)) input
      | None => input
      end in
    emit (EvGqlFinishBuild input) ;;;
    match ResolverFinishBuild (GenqClient ctx) input with
    | inr err =>
      emit (EvSentry "build-api-finish-build" err) ;;;
      ret (None, Some err)
    | inl resp =>
      ret (Some (mkBuildResult (FinishBuildResp.Id resp) (FinishBuildResp.Status resp)
                   (FinishBuildResp.WallclockTimeMs resp)), None)
    end.

(** How the [for _, s := range strategies] loop is left. *)
Inductive LoopExit : Type :=
| Returned (img : option DeploymentImage.t) (err : option error)
| Exhausted.

(** The loop of [ResolveReference] (lines 171-194) and of [BuildImage]
    (lines 242-263); the two bodies differ in [FinishImageStrategy] against
    [FinishStrategy] only. *)
Fixpoint strategyLoop (opts : Opts) (strategies : list (strategy Opts)) (bld : build)
  : M Opts (LoopExit * build) :=
  match strategies with
  | [] => ret (Exhausted, bld)
  | s :: rest =>
    let bld := ResetTimings bld in
    bld <- timed (BuildAndPushStart bld) ;;
    '(img, note, err, bld) <- callRun s opts bld ;;
    match err with
    | Some e =>
      bld <- timed (BuildAndPushFinish bld) ;;
      bld <- FinishStrategy s true (Some e) note bld ;;
      finishBuild bld true (Error e) None ;;;
      ret (Returned None (Some e), bld)
    | None =>
      match img with
      | Some i =>
        bld <- timed (BuildAndPushFinish bld) ;;
        bld <- FinishStrategy s false None note bld ;;
        finishBuild bld false "" (Some i) ;;;
        ret (Returned (Some i) None, bld)
      | None =>
        bld <- timed (BuildAndPushFinish bld) ;;
        bld <- FinishStrategy s true None note bld ;;
        strategyLoop opts rest bld
      end
    end
  end.

(** [func (r *Resolver) createBuildGql(ctx, strategiesAvailable, imageOpts)], returning a [build] pointer and an [error] *)
Definition createBuildGql (strategiesAvailable : list string)
    (imageOpts : BuildImageOptsInput.t) : M Opts (build * option error) :=
  let builderType := if remote (dockerFactory r) then "remote" else "local" in
  let input :=
    CreateBuildInput.mk (appName (dockerFactory r)) builderType imageOpts ""
      strategiesAvailable in
  emit (EvCreateBuild input) ;;;
  match ResolverCreateBuild (GenqClient ctx) input with
  | inr err =>
    let isAppNotFoundErr :=
      match As_gqlError err with
      | Some (path, msg) => ((path =? "createBuild") && (msg =? "Could not find App"))%string
      | None => false
      end in
    (if negb isAppNotFoundErr then emit (EvSentry "build-api-create-build" err) else ret tt) ;;;
    ret (newFailedBuild, Some err)
  | inl id => ret (newBuild id false, None)
  end.

End Loop.

Section EntryPoints.
Variable r : Resolver.
Variable ctx : Context.

(** [func (r *Resolver) createImageBuild(ctx, strategies, opts)] *)
Definition createImageBuild (strategies : list imageResolver) (opts : RefOptions.t)
  : M RefOptions.t (build * option error) :=
  let strategiesAvailable := [] ++ map Name strategies in
  let imageOps :=
    BuildImageOptsInput.mk [] [] "" "" [] "" [] (RefOptions.ImageLabel opts)
      (RefOptions.ImageRef opts) false (RefOptions.Publish opts) (RefOptions.Tag opts) "" in
  createBuildGql r ctx strategiesAvailable imageOps.

(** [func (r *Resolver) createBuild(ctx, strategies, opts)] *)
Definition createBuild (strategies : list imageBuilder) (opts : ImageOptions.t)
  : M ImageOptions.t (build * option error) :=
  let strategiesAvailable := [] ++ map Name strategies in
  let imageOpts :=
    BuildImageOptsInput.mk (ImageOptions.BuildArgs opts) (ImageOptions.Buildpacks opts)
      (ImageOptions.Builder opts) (ImageOptions.BuiltIn opts)
      (ImageOptions.BuiltInSettings opts) (ImageOptions.DockerfilePath opts)
      (ImageOptions.ExtraBuildArgs opts) (ImageOptions.ImageLabel opts)
      (ImageOptions.ImageRef opts) (ImageOptions.NoCache opts) (ImageOptions.Publish opts)
      (ImageOptions.Tag opts) (ImageOptions.Target opts) in
  createBuildGql r ctx strategiesAvailable imageOpts.

(** The candidates of [ResolveReference], in the order of the slice literal. *)
Definition resolveStrategies : list imageResolver :=
  [localImageResolver (impl r); remoteImageResolver (impl r)].

(** The candidates of [BuildImage] (lines 219-229). *)
Definition buildStrategies : list imageBuilder :=
  if UseNixpacks (mode (dockerFactory r))
  then [] ++ [nixpacksBuilder (impl r)]
  else [buildpacksBuilder (impl r); dockerfileBuilder (impl r); builtinBuilder (impl r)].

(** What a session hands back: the two values the Go function returns and,
    for the statements below, the telemetry record as it stands on return
    ([None] when the function returns before a record exists). *)
Record Outcome := mkOutcome {
  res_img : option DeploymentImage.t;
  res_err : option error;
  res_build : option build
}.

(** The body of [func (r *Resolver) ResolveReference(ctx, streams, opts)]. *)
Definition resolveSession (opts : RefOptions.t) : M RefOptions.t Outcome :=
  let strategies := resolveStrategies in
  '(bld, _) <- createImageBuild strategies opts ;;
  '(exit, bld) <- strategyLoop r ctx opts strategies bld ;;
  match exit with
  | Returned img err => ret (mkOutcome img err (Some bld))
  | Exhausted =>
    finishBuild r ctx bld true "no strategies resulted in an image" None ;;;
    let err := errorString ("could not find image " ++ Quote (impl r) (RefOptions.ImageRef opts))%string in
    ret (mkOutcome None (Some err) (Some bld))
  end.

(** The body of [func (r *Resolver) BuildImage(ctx, streams, opts)]. *)
Definition buildSession (opts : ImageOptions.t) : M ImageOptions.t Outcome :=
  if negb (IsAvailable (mode (dockerFactory r))) then
    let err := errorString "docker is unavailable to build the deployment image" in
    ret (mkOutcome None (Some err) None)
  else
    let opts :=
      if (ImageOptions.Tag opts =? "")%string
      then ImageOptions.set_Tag
             (NewDeploymentTag (impl r) (ImageOptions.AppName opts) (ImageOptions.ImageLabel opts))
             opts
      else opts in
    let strategies := buildStrategies in
    '(bld, _) <- createBuild strategies opts ;;
    '(exit, bld) <- strategyLoop r ctx opts strategies bld ;;
    match exit with
    | Returned img err => ret (mkOutcome img err (Some bld))
    | Exhausted =>
      finishBuild r ctx bld true "no strategies resulted in an image" None ;;;
      ret (mkOutcome None
             (Some (errorString "app does not have a Dockerfile or buildpacks configured. See https://fly.io/docs/reference/configuration/#the-build-section"))
             (Some bld))
    end.

(** [ResolveReference] and [BuildImage], with the results the Go functions
    return. *)
Definition ResolveReference (opts : RefOptions.t)
  : M RefOptions.t (option DeploymentImage.t * option error) :=
  o <- resolveSession opts ;; ret (res_img o, res_err o).

Definition BuildImage (opts : ImageOptions.t)
  : M ImageOptions.t (option DeploymentImage.t * option error) :=
  o <- buildSession opts ;; ret (res_img o, res_err o).

End EntryPoints.

(** A session starts with no events. *)
Definition start {Opts} (c : Clock) : World Opts := mkWorld c [].

End Orchestrator.

(* ===================================================================== *)
(** * The single-fire stop signal *)
(* ===================================================================== *)

Module Signal.

(** A [chan struct{}] nothing is ever sent on: open or closed. *)
Inductive chan : Type := ChanOpen | ChanClosed.

(** [sync.Once]: the [done] flag and whether the mutex [m] is held. *)
Record Once := mkOnce {
  done : bool;
  m : bool
}.

(** [type StopSignal struct { Chan chan struct{}; once sync.Once }] *)
Record StopSignal := mkStopSignal {
  Chan : chan;
  once : Once
}.

(** [StopSignal{Chan: make(chan struct{})}] *)
Definition newStopSignal : StopSignal := mkStopSignal ChanOpen (mkOnce false false).

(** [close(c)]; closing a closed channel panics ([None]). *)
Definition close (c : chan) : option chan :=
  match c with
  | ChanOpen => Some ChanClosed
  | ChanClosed => None
  end.

(** [func (s *StopSignal) Stop()] run by one goroutine with no other
    goroutine in between.  The receiver may be nil ([None]); the result is
    [None] when the call panics. *)
Definition Stop (s : option StopSignal) : option (option StopSignal) :=
  match s with
  | None => Some None
  | Some s =>
    if done (once s) then Some (Some s)
    else
      match close (Chan s) with
      | Some c => Some (Some (mkStopSignal c (mkOnce true (m (once s)))))
      | None => None
      end
  end.

(** [n] calls of [Stop] one after the other. *)
Fixpoint StopTimes (n : nat) (s : option StopSignal) : option (option StopSignal) :=
  match n with
  | O => Some s
  | S k =>
    match Stop s with
    | Some s' => StopTimes k s'
    | None => None
    end
  end.

(** ** Goroutines racing on one signal

    Where a goroutine is inside [s.Stop()], following [sync.Once.Do] and
    its slow path:

      if s == nil { return }
      if o.done.Load() == 0 {           // AtEntry
        o.m.Lock()                       // AtLock
        defer o.m.Unlock()
        if o.done.Load() == 0 {          // AtRecheck
          defer o.done.Store(1)
          close(s.Chan)                  // AtClose
        }                                // AtStore, AtUnlock
      }
*)
Inductive pc : Type :=
| AtEntry | AtLock | AtRecheck | AtClose | AtStore | AtUnlock | Finished | Crashed.

(** The signal all goroutines share, with two counters kept for the
    statements: how often the channel was closed and whether some
    [close] panicked. *)
Record Shared := mkShared {
  sig : StopSignal;
  closes : nat;
  panicked : bool
}.

Definition set_done (b : bool) (sh : Shared) : Shared :=
  mkShared (mkStopSignal (Chan (sig sh)) (mkOnce b (m (once (sig sh)))))
           (closes sh) (panicked sh).
Definition set_m (b : bool) (sh : Shared) : Shared :=
  mkShared (mkStopSignal (Chan (sig sh)) (mkOnce (done (once (sig sh))) b))
           (closes sh) (panicked sh).

(** One atomic step of one goroutine; [None] when it cannot move (it
    waits for the mutex, or it has returned). *)
Definition thread_step (p : pc) (sh : Shared) : option (pc * Shared) :=
  match p with
  | AtEntry =>
    Some (if done (once (sig sh)) then Finished else AtLock, sh)
  | AtLock =>
    if m (once (sig sh)) then None else Some (AtRecheck, set_m true sh)
  | AtRecheck =>
    Some (if done (once (sig sh)) then AtUnlock else AtClose, sh)
  | AtClose =>
    match close (Chan (sig sh)) with
    | Some c =>
      Some (AtStore, mkShared (mkStopSignal c (once (sig sh))) (S (closes sh)) (panicked sh))
    | None =>
      Some (Crashed, mkShared (sig sh) (closes sh) true)
    end
  | AtStore => Some (AtUnlock, set_done true sh)
  | AtUnlock => Some (Finished, set_m false sh)
  | Finished | Crashed => None
  end.

(** The goroutines inside [Stop] and the signal. *)
Definition Config : Type := list pc * Shared.

(** Any goroutine that can move may move next. *)
Inductive step : Config -> Config -> Prop :=
| step_at (before after : list pc) (p p' : pc) (sh sh' : Shared) :
    thread_step p sh = Some (p', sh') ->
    step (before ++ p :: after, sh) (before ++ p' :: after, sh').

Inductive steps : Config -> Config -> Prop :=
| steps_refl (c : Config) : steps c c
| steps_then (c1 c2 c3 : Config) : steps c1 c2 -> step c2 c3 -> steps c1 c3.

(** [n] goroutines about to call [Stop] on a fresh signal. *)
Definition initial (n : nat) : Config :=
  (repeat AtEntry n, mkShared newStopSignal 0 false).

(** The schedule that picks goroutine [i] at each of its entries, run as
    a function, to try the model on concrete interleavings. *)
Fixpoint set_nth (i : nat) (p : pc) (l : list pc) : list pc :=
  match i, l with
  | _, [] => []
  | O, _ :: t => p :: t
  | S k, h :: t => h :: set_nth k p t
  end.

Fixpoint run (schedule : list nat) (c : Config) : Config :=
  match schedule with
  | [] => c
  | i :: rest =>
    match nth_error (fst c) i with
    | Some p =>
      match thread_step p (snd c) with
      | Some (p', sh') => run rest (set_nth i p' (fst c), sh')
      | None => run rest c
      end
    | None => run rest c
    end
  end.

(** Whether a goroutine at [p] holds the mutex of the [Once]. *)
Definition holds (p : pc) : bool :=
  match p with
  | AtRecheck | AtClose | AtStore | AtUnlock => true
  | AtEntry | AtLock | Finished | Crashed => false
  end.

Fixpoint holders (ts : list pc) : nat :=
  match ts with
  | [] => 0
  | p :: rest => (if holds p then 1 else 0) + holders rest
  end.

(** What a goroutine at [p] knows of the shared signal. *)
Definition pc_ok (sh : Shared) (p : pc) : Prop :=
  match p with
  | AtClose => done (once (sig sh)) = false /\ Chan (sig sh) = ChanOpen
  | AtStore => done (once (sig sh)) = false /\ Chan (sig sh) = ChanClosed
  | AtUnlock | Finished => done (once (sig sh)) = true
  | Crashed => False
  | AtEntry | AtLock | AtRecheck => True
  end.

(** The invariant of the race. *)
Definition invariant (c : Config) : Prop :=
  let (ts, sh) := c in
  panicked sh = false
  /\ closes sh = (match Chan (sig sh) with ChanClosed => 1 | ChanOpen => 0 end)
  /\ holders ts = (if m (once (sig sh)) then 1 else 0)
  /\ Forall (pc_ok sh) ts
  /\ (done (once (sig sh)) = true -> Chan (sig sh) = ChanClosed)
  /\ (Chan (sig sh) = ChanClosed -> done (once (sig sh)) = false -> In AtStore ts).

(** The atomic steps a goroutine at [p] still has before it returns. *)
Definition remaining (p : pc) : nat :=
  match p with
  | AtEntry => 6 | AtLock => 5 | AtRecheck => 4 | AtClose => 3
  | AtStore => 2 | AtUnlock => 1 | Finished | Crashed => 0
  end.

Fixpoint weight (ts : list pc) : nat :=
  match ts with
  | [] => 0
  | p :: rest => remaining p + weight rest
  end.

End Signal.

(* ===================================================================== *)
(** * Heartbeat start-up *)
(* ===================================================================== *)

Module Heartbeat.
Import Errors Http Signal Orchestrator.

(** [func heartbeat(ctx, client, req) error], for the [k]-th request made
    through [client]. *)
Definition heartbeat (client : dockerClient) (k : nat) (req : Request) : option error :=
  match HTTPDo client k req with
  | inr err => Some err
  | inl resp =>
    if ((200 <=? StatusCode resp) && (StatusCode resp <? 300))%Z then None
    else
      match ReadAll resp with
      | inr err => Some (httpError (StatusCode resp) (Error err))
      | inl b => Some (httpError (StatusCode resp) b)
      end
  end.

(** A parsed [*url.URL]: the three fields [getHeartbeatUrl] overwrites
    and everything else. *)
Record URL := mkURL {
  Scheme : string;
  Host : string;
  Path : string;
  Rest : string
}.

(** The library functions the start-up goes through and the two strings
    it reads from its surroundings: [url.Parse], the host returned by
    [net.SplitHostPort] (empty when that fails), the [String] method of the URL,
    whether [http.NewRequestWithContext] accepts the URL,
    [config.Tokens(ctx).Docker()] and [buildinfo.Version().String()]. *)
Record Std := mkStd {
  url_Parse : string -> URL + error;
  SplitHost : string -> string;
  URL_String : URL -> string;
  NewRequest_error : string -> option error;
  DockerToken : string;
  Version : string
}.

(** [func getHeartbeatUrl(dockerClient) (string, error)] *)
Definition getHeartbeatUrl (std : Std) (client : dockerClient) : string + error :=
  let daemonHost := DaemonHost client in
  match url_Parse std daemonHost with
  | inr err => inr err
  | inl parsed =>
    let hostPort := Host parsed in
    let host := SplitHost std hostPort in
    inl (URL_String std (mkURL "http" (host ++ ":8080")%string "/flyio/v1/extendDeadline" (Rest parsed)))
  end.

(** What [StartHeartbeat] did besides returning. *)
Inductive HbEvent : Type :=
| HbDo (k : nat) (req : Request)
| HbAfterFunc (milliseconds : Z)
| HbGo (pulseMilliseconds : Z).

Record HbResult := mkHbResult {
  hb_handle : option StopSignal;
  hb_err : option error;
  hb_events : list HbEvent
}.

Definition pulseInterval : Z := 30 * 1000.
Definition maxTime : Z := 60 * 60 * 1000.

(** The request [StartHeartbeat] builds: a GET of the heartbeat URL with
    basic auth (application name, docker token) and the flyctl user agent. *)
Definition heartbeatRequest (std : Std) (r : Resolver) (heartbeatUrl : string) : Request :=
  mkRequest "GET" heartbeatUrl (appName (dockerFactory r)) (DockerToken std)
            ("flyctl/" ++ Version std)%string.

(** [func (r *Resolver) StartHeartbeat(ctx)], up to and including the
    start of the timer and of the background goroutine. *)
Definition StartHeartbeat (std : Std) (r : Resolver) : HbResult :=
  if negb (remote (dockerFactory r)) then mkHbResult None None []
  else
    match buildFn (dockerFactory r) with
    | inr _ => mkHbResult None None []
    | inl client =>
      match getHeartbeatUrl std client with
      | inr _ => mkHbResult None None []
      | inl heartbeatUrl =>
        match NewRequest_error std heartbeatUrl with
        | Some _ => mkHbResult None None []
        | None =>
          let heartbeatReq := heartbeatRequest std r heartbeatUrl in
          match heartbeat client 0 heartbeatReq with
          | Some err =>
            match As_httpError err with
            | Some (code, _) =>
              if (code =? StatusNotFound)%Z
              then mkHbResult None None [HbDo 0 heartbeatReq]
              else mkHbResult None (Some err) [HbDo 0 heartbeatReq]
            | None => mkHbResult None (Some err) [HbDo 0 heartbeatReq]
            end
          | None =>
            match HTTPDo client 1 heartbeatReq with
            | inr _ => mkHbResult None None [HbDo 0 heartbeatReq; HbDo 1 heartbeatReq]
            | inl resp =>
              if negb (StatusCode resp =? StatusAccepted)%Z
              then mkHbResult None None [HbDo 0 heartbeatReq; HbDo 1 heartbeatReq]
              else
                mkHbResult (Some newStopSignal) None
                  [HbDo 0 heartbeatReq; HbDo 1 heartbeatReq;
                   HbAfterFunc maxTime; HbGo pulseInterval]
            end
          end
        end
      end
    end.

(** Whether the background loop was started. *)
Definition loop_started (res : HbResult) : bool :=
  existsb (fun e => match e with HbGo _ => true | _ => false end) (hb_events res).

End Heartbeat.

(* ===================================================================== *)
(** * Reading a session's events *)
(* ===================================================================== *)

Module Observe.
Import Errors Logs Orchestrator.

Section Projections.
Context {Opts : Type}.

(** One invocation of a strategy's [Run]: which strategy, and the record
    and the clock it was handed. *)
Record Call := mkCall {
  call_strategy : strategy Opts;
  call_build : build;
  call_clock : Clock
}.

(** One invocation of [finishBuild]: its arguments [failed], [logs], [img]. *)
Record Finish := mkFinish {
  fin_failed : bool;
  fin_logs : string;
  fin_img : option DeploymentImage.t
}.

(** The invocations of [Run], in order. *)
Definition calls (tr : list (Event Opts)) : list Call :=
  flat_map (fun e => match e with EvRun s b c => [mkCall s b c] | _ => [] end) tr.

(** The attempt records appended, in order. *)
Definition appended (tr : list (Event Opts)) : list BuildStrategyAttemptInput.t :=
  flat_map (fun e => match e with EvAppend a => [a] | _ => [] end) tr.

(** The invocations of [finishBuild], in order. *)
Definition finishes (tr : list (Event Opts)) : list Finish :=
  flat_map (fun e => match e with EvFinishBuild f l i => [mkFinish f l i] | _ => [] end) tr.

(** The inputs of the remote [finishBuild] mutations issued, in order. *)
Definition gqlFinishes (tr : list (Event Opts)) : list FinishBuildInput.t :=
  flat_map (fun e => match e with EvGqlFinishBuild i => [i] | _ => [] end) tr.

(** The inputs of the remote [createBuild] mutations issued, in order. *)
Definition creates (tr : list (Event Opts)) : list CreateBuildInput.t :=
  flat_map (fun e => match e with EvCreateBuild i => [i] | _ => [] end) tr.

Variable opts : Opts.

(** What the call returned. *)
Definition outcome (c : Call) : RunOut :=
  Run (call_strategy c) opts (call_build c) (call_clock c).

(** A strategy declines when its [Run] returns neither an image nor an
    error; otherwise it decides the session. *)
Definition declined (c : Call) : Prop :=
  out_img (outcome c) = None /\ out_err (outcome c) = None.

Definition decisive (c : Call) : Prop :=
  out_img (outcome c) <> None \/ out_err (outcome c) <> None.

(** What the loop returns to the caller after a decisive call: the error
    if there is one, else the image. *)
Definition verdict (c : Call) : option DeploymentImage.t * option error :=
  match out_err (outcome c) with
  | Some e => (None, Some e)
  | None => (out_img (outcome c), None)
  end.

(** The attempt record the loop appends after the call. *)
Definition attempt_of (c : Call) : BuildStrategyAttemptInput.t :=
  let name := Name (call_strategy c) in
  let note := out_note (outcome c) in
  match out_err (outcome c) with
  | Some e => attemptInput name true (Some e) note
  | None =>
    match out_img (outcome c) with
    | Some _ => attemptInput name false None note
    | None => attemptInput name true None note
    end
  end.

(** The [finishBuild] invocation that goes with a way of leaving the loop
    from inside. *)
Definition finish_of (img : option DeploymentImage.t) (err : option error) : Finish :=
  match err with
  | Some e => mkFinish true (Error e) None
  | None => mkFinish false "" img
  end.

(** The input [finishBuild] sends for a record that was created remotely. *)
Definition finishInput (r : Resolver) (bld : build) (f : Finish) : FinishBuildInput.t :=
  FinishBuildInput.mk (BuildId bld) (appName (dockerFactory r)) ""
    (if fin_failed f then "failed" else "completed")
    (limitLogs (fin_logs f)) (BuilderMeta bld) (StrategyResults bld) (Timings bld)
    (match fin_img f with
     | Some i => BuildFinalImageInput.mk (DeploymentImage.ID i) (DeploymentImage.Tag i)
                   (DeploymentImage.Size i)
     | None => BuildFinalImageInput.zero
     end).

(** A strategy that leaves alone the parts of the record that belong to
    the orchestrator: the attempt list, the session id and the
    create-failed flag.  (The timing and builder-meta methods the record
    offers to strategies do.) *)
Definition keeps_record (s : strategy Opts) : Prop :=
  forall (o : Opts) (b : build) (c : Clock),
    StrategyResults (out_build (Run s o b c)) = StrategyResults b /\
    BuildId (out_build (Run s o b c)) = BuildId b /\
    CreateApiFailed (out_build (Run s o b c)) = CreateApiFailed b.

(** A strategy whose returned values and duration do not depend on what
    the record holds. *)
Definition record_blind (s : strategy Opts) : Prop :=
  forall (o : Opts) (b b' : build) (c : Clock),
    out_img (Run s o b c) = out_img (Run s o b' c) /\
    out_note (Run s o b c) = out_note (Run s o b' c) /\
    out_err (Run s o b c) = out_err (Run s o b' c) /\
    out_clock (Run s o b c) = out_clock (Run s o b' c).

End Projections.

Arguments Call : clear implicits.

Section LoopShape.
Context {Opts : Type}.
Variable r : Resolver.
Variable ctx : Context.
Variable opts : Opts.

(** The [finishBuild] invocations made on the way out of the loop. *)
Definition exit_finishes (exit : LoopExit) : list Finish :=
  match exit with
  | Returned img err => [finish_of img err]
  | Exhausted => []
  end.

(** How the calls made by the loop relate to its candidates and to the
    way it was left. *)
Definition shape (ss : list (strategy Opts)) (cs : list (Call Opts)) (exit : LoopExit)
  : Prop :=
  match exit with
  | Exhausted => map call_strategy cs = ss /\ Forall (declined opts) cs
  | Returned img err =>
    exists pre c post,
      cs = pre ++ [c] /\ ss = map call_strategy pre ++ call_strategy c :: post /\
      Forall (declined opts) pre /\ decisive opts c /\ (img, err) = verdict opts c
  end.

(** The state in which the strategy at the head of the list is invoked:
    after [ResetTimings] and [BuildAndPushStart]. *)
Definition call_at (s : strategy Opts) (b : build) (w : World Opts) : Call Opts :=
  mkCall s (fst (BuildAndPushStart (ResetTimings b) (clock w)))
           (snd (BuildAndPushStart (ResetTimings b) (clock w))).

(** The record and the world after the head strategy ran,
    [BuildAndPushFinish] was called and the attempt was appended. *)
Definition after_attempt (s : strategy Opts) (b : build) (w : World Opts)
  : build * World Opts :=
  let c := call_at s b w in
  let o := outcome opts c in
  (finishStrategyCommon (Name s)
     (match out_err o, out_img o with None, Some _ => false | _, _ => true end)
     (out_err o) (out_note o)
     (fst (BuildAndPushFinish (out_build o) (out_clock o))),
   mkWorld (snd (BuildAndPushFinish (out_build o) (out_clock o)))
           ((trace w ++ [EvRun s (call_build c) (call_clock c)])
              ++ [EvAppend (attempt_of opts c)])).

(** What both entry points do once the loop is left. *)
Definition conclude (exhaustErr : error) (x : LoopExit * build) : M Opts Outcome :=
  let '(exit, bld) := x in
  match exit with
  | Returned img err => ret (mkOutcome img err (Some bld))
  | Exhausted =>
    finishBuild r ctx bld true "no strategies resulted in an image" None ;;;
    ret (mkOutcome None (Some exhaustErr) (Some bld))
  end.

(** The [finishBuild] invocation made when every candidate declined. *)
Definition exhaustedFinish : Finish :=
  mkFinish true "no strategies resulted in an image" None.

(** How a session over the candidates [cands] ends, given the calls [cs]
    it made: either the last call decided it, everything before declined
    and nothing after was invoked, or every candidate was invoked and
    declined. *)
Definition ended (cands : list (strategy Opts)) (cs : list (Call Opts)) (f : Finish)
    (img : option DeploymentImage.t) (err : option error) (exhaustErr : error) : Prop :=
  (exists pre c post,
      cs = pre ++ [c] /\ cands = map call_strategy pre ++ call_strategy c :: post /\
      Forall (declined opts) pre /\ decisive opts c /\
      (img, err) = verdict opts c /\ f = finish_of img err)
  \/ (map call_strategy cs = cands /\ Forall (declined opts) cs /\
      img = None /\ err = Some exhaustErr /\ f = exhaustedFinish).

(** The strategies are invoked in the order of the candidate list, and
    the first one that returns an image or an error is the last one
    invoked. *)
Definition in_order_until_decision (cands : list (strategy Opts)) (cs : list (Call Opts))
  : Prop :=
  (exists pre c post,
      cs = pre ++ [c] /\ cands = map call_strategy pre ++ call_strategy c :: post /\
      Forall (declined opts) pre /\ decisive opts c)
  \/ (map call_strategy cs = cands /\ Forall (declined opts) cs).

(** The input of the [createBuild] mutation. *)
Definition createInput (names : list string) (io : BuildImageOptsInput.t)
  : CreateBuildInput.t :=
  CreateBuildInput.mk (appName (dockerFactory r))
    (if remote (dockerFactory r) then "remote" else "local") io "" names.

(** The record a session starts from, given the service's answer. *)
Definition createdBuild (input : CreateBuildInput.t) : build :=
  match ResolverCreateBuild (GenqClient ctx) input with
  | inl id => newBuild id false
  | inr _ => newFailedBuild
  end.

(** What holds of a finished session over the candidates [cands], started
    from the record [bld0]. *)
Definition session_facts (cands : list (strategy Opts))
    (bld0 : build) (input : CreateBuildInput.t) (exhaustErr : error)
    (o : Outcome) (tr : list (Event Opts)) : Prop :=
  exists f b',
    appended tr = map (attempt_of opts) (calls tr) /\
    creates tr = [input] /\
    finishes tr = [f] /\
    res_build o = Some b' /\
    gqlFinishes tr = (if CreateApiFailed b' then [] else [finishInput r b' f]) /\
    ended cands (calls tr) f (res_img o) (res_err o) exhaustErr /\
    (Forall keeps_record cands ->
       StrategyResults b' = map (attempt_of opts) (calls tr) /\
       BuildId b' = BuildId bld0 /\ CreateApiFailed b' = CreateApiFailed bld0).

End LoopShape.

Section EntryShape.
Variable r : Resolver.
Variable ctx : Context.

Definition refImageOpts (opts : RefOptions.t) : BuildImageOptsInput.t :=
  BuildImageOptsInput.mk [] [] "" "" [] "" [] (RefOptions.ImageLabel opts)
    (RefOptions.ImageRef opts) false (RefOptions.Publish opts) (RefOptions.Tag opts) "".

Definition resolveCreateInput (opts : RefOptions.t) : CreateBuildInput.t :=
  createInput r (map Name (resolveStrategies r)) (refImageOpts opts).

(** The error [ResolveReference] returns when no resolver found the image. *)
Definition couldNotFind (opts : RefOptions.t) : error :=
  errorString ("could not find image " ++ Quote (impl r) (RefOptions.ImageRef opts))%string.

(** The options [BuildImage] works with: a tag is assigned when the
    caller gave none. *)
Definition withTag (opts : ImageOptions.t) : ImageOptions.t :=
  if (ImageOptions.Tag opts =? "")%string
  then ImageOptions.set_Tag
         (NewDeploymentTag (impl r) (ImageOptions.AppName opts) (ImageOptions.ImageLabel opts))
         opts
  else opts.

Definition buildImageOpts (opts : ImageOptions.t) : BuildImageOptsInput.t :=
  BuildImageOptsInput.mk (ImageOptions.BuildArgs opts) (ImageOptions.Buildpacks opts)
    (ImageOptions.Builder opts) (ImageOptions.BuiltIn opts)
    (ImageOptions.BuiltInSettings opts) (ImageOptions.DockerfilePath opts)
    (ImageOptions.ExtraBuildArgs opts) (ImageOptions.ImageLabel opts)
    (ImageOptions.ImageRef opts) (ImageOptions.NoCache opts) (ImageOptions.Publish opts)
    (ImageOptions.Tag opts) (ImageOptions.Target opts).

Definition buildCreateInput (opts : ImageOptions.t) : CreateBuildInput.t :=
  createInput r (map Name (buildStrategies r)) (buildImageOpts (withTag opts)).

(** The error [BuildImage] returns when no builder applied. *)
Definition noBuilderApplies : error :=
  errorString "app does not have a Dockerfile or buildpacks configured. See https://fly.io/docs/reference/configuration/#the-build-section".

(** The error [BuildImage] returns when docker is not available. *)
Definition dockerUnavailable : error :=
  errorString "docker is unavailable to build the deployment image".

End EntryShape.

End Observe.

(* ===================================================================== *)
(** * Concrete sessions *)
(* ===================================================================== *)

Module Scenarios.
Import Errors Logs Http Orchestrator Observe.

(** A strategy whose [Run] returns the same three values whatever it is
    given, leaves the record alone and takes no time. *)
Definition fixed {Opts : Type} (name : string) (img : option DeploymentImage.t)
    (note : string) (err : option error) : strategy Opts :=
  mkStrategy name (fun _ b c => mkRunOut img note err b c).

Definition image1 : DeploymentImage.t :=
  DeploymentImage.mk "sha256:0a1b" "registry.fly.io/app:deployment-1" 52428800 [].

(** A clock that advances one millisecond per reading. *)
Definition clock0 : Clock := mkClock Z.of_nat 0.

Definition quote (s : string) : string :=
  (String (ascii_of_nat 34) s ++ String (ascii_of_nat 34) EmptyString)%string.

Definition newTag (app label : string) : string :=
  ("registry.fly.io/" ++ app ++ ":" ++ label)%string.

(** The local lookup declines, the registry lookup finds the image; the
    buildpacks builder declines and the Dockerfile builder finds it. *)
Definition implFound : Impl :=
  mkImpl (fixed "local" None "no match" None)
         (fixed "remote" (Some image1) "" None)
         (fixed "buildpacks" None "no buildpacks" None)
         (fixed "dockerfile" (Some image1) "" None)
         (fixed "builtin" None "" None)
         (fixed "nixpacks" (Some image1) "" None)
         newTag quote.



Definition factory (available nixpacks : bool) : dockerClientFactory :=
  mkFactory (mkMode available nixpacks) false "app"
            (inr (errorString "no docker daemon")).

Definition resolverOf (i : Impl) : Resolver := mkResolver (factory true false) i.

(** A build-tracking service that answers, and one whose [createBuild]
    fails. *)
Definition ctxOk : Context :=
  mkContext (mkClient (fun _ => inl "build-1")
                      (fun i => inl (FinishBuildResp.mk (FinishBuildInput.BuildId i)
                                       (FinishBuildInput.Status i) 75))).

Definition ctxCreateFails : Context :=
  mkContext (mkClient (fun _ => inr (errorString "connection refused"))
                      (fun _ => inr (errorString "connection refused"))).

Definition refOpts : RefOptions.t :=
  RefOptions.mk "app" "/src" "nginx:latest" "deployment-1" true "".

Definition imageOpts : ImageOptions.t :=
  ImageOptions.mk "app" "/src" "Dockerfile" "" "" [] [] [] "deployment-1" true "" ""
                  false "" [] "" [] [] "" [].

(** The library functions on a builder address of the usual shape. *)
Definition std0 : Heartbeat.Std :=
  Heartbeat.mkStd
    (fun _ => inl (Heartbeat.mkURL "tcp" "builder.internal:2375" "" ""))
    (fun _ => "builder.internal")
    (fun u => (Heartbeat.Scheme u ++ "://" ++ Heartbeat.Host u ++ Heartbeat.Path u)%string)
    (fun _ => None) "fo1_token" "0.1.0".

(** A builder that answers every request with the same status. *)
Definition clientAnswering (code : Z) (status body : string) : dockerClient :=
  mkDockerClient "tcp://builder.internal:2375"
    (fun _ _ => inl (mkResponse code status (inl body))).

(** A builder with the heartbeat endpoint: 200 to the probe, 202 after. *)
Definition clientWithHeartbeat : dockerClient :=
  mkDockerClient "tcp://builder.internal:2375"
    (fun k _ => match k with
                | O => inl (mkResponse 200 "200 OK" (inl ""))
                | S _ => inl (mkResponse 202 "202 Accepted" (inl ""))
                end).

Definition remoteResolver (client : dockerClient) : Resolver :=
  mkResolver (mkFactory (mkMode true false) true "app" (inl client)) implFound.

(** A call to stand for "no call" where a default is needed. *)
Definition noCall {Opts : Type} : Call Opts :=
  mkCall (fixed "" None "" None) newFailedBuild clock0.

End Scenarios.

(* ===================================================================== *)
(** * What the claims say of one finished session *)
(* ===================================================================== *)

Module Statements.
Import Errors Logs Orchestrator Observe.

(** What [C2] says of one finished session: the attempt records appended
    are those of the calls made, one each and in the same order, and they
    are what the record holds at the end when the strategies leave the
    attempt list alone. *)
Definition one_record_per_call {Opts} (opts : Opts) (cands : list (strategy Opts))
    (o : Outcome) (tr : list (Event Opts)) : Prop :=
  appended tr = map (attempt_of opts) (calls tr)
  /\ length (appended tr) = length (calls tr)
  /\ map BuildStrategyAttemptInput.Strategy (appended tr)
     = map (fun c => Name (call_strategy c)) (calls tr)
  /\ (Forall keeps_record cands ->
      exists b, res_build o = Some b
                /\ StrategyResults b = map (attempt_of opts) (calls tr)
                /\ length (StrategyResults b) = length (calls tr)).


(** What [C4] says of one finished session: [finishBuild] is invoked
    exactly once; it is invoked as completed exactly when the session
    returns an image, which is exactly when some strategy's [Run] returned
    one without an error; it is handed that image and no other; and the
    remote call, issued unless the record's creation failed, carries the
    status and the image's id, tag and size. *)
Definition finalized_once {Opts} (r : Resolver) (opts : Opts) (o : Outcome)
    (tr : list (Event Opts)) : Prop :=
  exists f b,
    finishes tr = [f]
    /\ res_build o = Some b
    /\ fin_img f = res_img o
    /\ (fin_failed f = false <-> res_img o <> None)
    /\ (forall i, res_img o = Some i <->
                  exists c, In c (calls tr) /\ out_err (outcome opts c) = None
                            /\ out_img (outcome opts c) = Some i)
    /\ gqlFinishes tr = (if CreateApiFailed b then [] else [finishInput r b f])
    /\ FinishBuildInput.Status (finishInput r b f)
       = (match res_img o with Some _ => "completed" | None => "failed" end)
    /\ FinishBuildInput.FinalImage (finishInput r b f)
       = (match res_img o with
          | Some i => BuildFinalImageInput.mk (DeploymentImage.ID i) (DeploymentImage.Tag i)
                        (DeploymentImage.Size i)
          | None => BuildFinalImageInput.zero
          end).


(** What [C6] says of one finished session whose record could not be
    created: the strategies are still invoked, in order, up to the first
    decision; [finishBuild] is still invoked once; and, the strategies
    leaving the record's identity alone, the record keeps an empty id and
    the create-failed flag, and no remote finalize call is issued. *)
Definition degenerate_session {Opts} (opts : Opts) (cands : list (strategy Opts))
    (input : CreateBuildInput.t) (o : Outcome) (tr : list (Event Opts)) : Prop :=
  creates tr = [input]
  /\ in_order_until_decision opts cands (calls tr)
  /\ calls tr <> []
  /\ length (finishes tr) = 1
  /\ (Forall keeps_record cands ->
      gqlFinishes tr = []
      /\ exists b, res_build o = Some b /\ BuildId b = "" /\ CreateApiFailed b = true).

End Statements.

(* ===================================================================== *)
(** * The timers and the builder description, as a strategy uses them *)
(* ===================================================================== *)

Module Timers.
Import Errors Orchestrator.

(** The six durations of [gql.BuildTimingsInput], each with its [...Start]
    and [...Finish] method on the record. *)
Inductive timer : Type :=
| BuildAndPush | BuilderInit | Build | ContextBuild | ImageBuild | Push.

Definition timer_eqb (t u : timer) : bool :=
  match t, u with
  | BuildAndPush, BuildAndPush | BuilderInit, BuilderInit | Build, Build
  | ContextBuild, ContextBuild | ImageBuild, ImageBuild | Push, Push => true
  | _, _ => false
  end.

(** The field of a [BuildTimingsInput] a timer reads and writes. *)
Definition field (t : timer) (x : BuildTimingsInput.t) : Z :=
  match t with
  | BuildAndPush => BuildTimingsInput.BuildAndPushMs x
  | BuilderInit => BuildTimingsInput.BuilderInitMs x
  | Build => BuildTimingsInput.BuildMs x
  | ContextBuild => BuildTimingsInput.ContextBuildMs x
  | ImageBuild => BuildTimingsInput.ImageBuildMs x
  | Push => BuildTimingsInput.PushMs x
  end.

(** The method [b.<Timer>Start()]. *)
Definition startTimer (t : timer) : build -> Clock -> build * Clock :=
  match t with
  | BuildAndPush => BuildAndPushStart
  | BuilderInit => BuilderInitStart
  | Build => BuildStart
  | ContextBuild => ContextBuildStart
  | ImageBuild => ImageBuildStart
  | Push => PushStart
  end.

(** The method [b.<Timer>Finish()]. *)
Definition finishTimer (t : timer) : build -> Clock -> build * Clock :=
  match t with
  | BuildAndPush => BuildAndPushFinish
  | BuilderInit => BuilderInitFinish
  | Build => BuildFinish
  | ContextBuild => ContextBuildFinish
  | ImageBuild => ImageBuildFinish
  | Push => PushFinish
  end.

(** One call a strategy makes on the record it was handed: a timer
    method or one of the two [SetBuilderMeta] methods. *)
Inductive op : Type :=
| OpStart (t : timer)
| OpFinish (t : timer)
| OpMeta1 (remote : bool) (remoteAppName remoteMachineId : string)
| OpMeta2 (buildkitEnabled : bool) (dockerVersion platform : string).

Definition apply (o : op) (b : build) (c : Clock) : build * Clock :=
  match o with
  | OpStart t => startTimer t b c
  | OpFinish t => finishTimer t b c
  | OpMeta1 remote app mid =>
    (match SetBuilderMetaPart1 remote app mid (Some b) with
     | Some b' => b'
     | None => b
     end, c)
  | OpMeta2 kit ver plat => (SetBuilderMetaPart2 kit ver plat b, c)
  end.

(** The calls of [ops], one after the other. *)
Fixpoint applyAll (ops : list op) (b : build) (c : Clock) : build * Clock :=
  match ops with
  | [] => (b, c)
  | o :: rest => let (b', c') := apply o b c in applyAll rest b' c'
  end.

(** Whether a call is a method of timer [t]. *)
Definition touches (t : timer) (o : op) : bool :=
  match o with
  | OpStart u | OpFinish u => timer_eqb t u
  | OpMeta1 _ _ _ | OpMeta2 _ _ _ => false
  end.

(** How often a call reads the wall clock. *)
Definition reads (o : op) : nat :=
  match o with
  | OpStart _ | OpFinish _ => 1
  | OpMeta1 _ _ _ | OpMeta2 _ _ _ => 0
  end.

Definition readsAll (ops : list op) : nat := list_sum (map reads ops).

(** A strategy whose [Run] uses the record through these methods only:
    the calls it makes and the three values it returns are given by the
    options. *)
Definition scripted {Opts : Type} (name : string) (calls : Opts -> list op)
    (result : Opts -> option DeploymentImage.t * string * option error) : strategy Opts :=
  mkStrategy name
    (fun o b c =>
       let '(img, note, err) := result o in
       let (b', c') := applyAll (calls o) b c in
       mkRunOut img note err b' c').

(** A strategy that hands the record back with the timers as it got them. *)
Definition keeps_timers {Opts : Type} (s : strategy Opts) : Prop :=
  forall (o : Opts) (b : build) (c : Clock),
    Timings (out_build (Run s o b c)) = Timings b /\
    StartTimes (out_build (Run s o b c)) = StartTimes b.

End Timers.

(* ===================================================================== *)
(** * The events of a whole session *)
(* ===================================================================== *)

Module SessionShape.
Import Errors Logs Orchestrator Observe.

Section Shape.
Context {Opts : Type}.
Variable r : Resolver.
Variable ctx : Context.
Variable opts : Opts.

(** The test of [createBuildGql] (line 333): a GraphQL error at path
    "createBuild" with the message "Could not find App". *)
Definition isAppNotFoundErr (err : error) : bool :=
  match As_gqlError err with
  | Some (path, msg) => ((path =? "createBuild") && (msg =? "Could not find App"))%string
  | None => false
  end.

(** What [createBuildGql] leaves behind: the mutation and, when it failed
    with anything but "Could not find App", a Sentry report. *)
Definition create_events (input : CreateBuildInput.t) : list (Event Opts) :=
  EvCreateBuild input ::
  match ResolverCreateBuild (GenqClient ctx) input with
  | inr err => if isAppNotFoundErr err then [] else [EvSentry "build-api-create-build" err]
  | inl _ => []
  end.

(** What one turn of the loop leaves behind: the call of [Run] and the
    attempt appended for it. *)
Definition attempt_events (c : Call Opts) : list (Event Opts) :=
  [EvRun (call_strategy c) (call_build c) (call_clock c); EvAppend (attempt_of opts c)].

(** What [finishBuild] leaves behind for the record [b]: its invocation
    and, unless creating the record failed, the mutation and a Sentry
    report when that failed. *)
Definition finish_events (b : build) (f : Finish) : list (Event Opts) :=
  EvFinishBuild (fin_failed f) (fin_logs f) (fin_img f) ::
  (if CreateApiFailed b then []
   else EvGqlFinishBuild (finishInput r b f) ::
        match ResolverFinishBuild (GenqClient ctx) (finishInput r b f) with
        | inr err => [EvSentry "build-api-finish-build" err]
        | inl _ => []
        end).

(** The events of a session, from first to last. *)
Definition session_events (input : CreateBuildInput.t) (cs : list (Call Opts))
    (b : build) (f : Finish) : list (Event Opts) :=
  create_events input ++ flat_map attempt_events cs ++ finish_events b f.

(** A strategy is handed the record with all timings reset and the
    build-and-push timer just started: the start time is the clock reading
    taken last. *)
Definition fresh_timers (c : Call Opts) : Prop :=
  Timings (call_build c) = BuildTimingsInput.unmeasured
  /\ 1 <= pos (call_clock c)
  /\ StartTimes (call_build c)
     = BuildTimingsInput.mk (readings (call_clock c) (pos (call_clock c) - 1)) 0 0 0 0 0.

(** The timings in the record once [BuildAndPushFinish] has been called
    after the call [c] returned. *)
Definition timings_after (c : Call Opts) : BuildTimingsInput.t :=
  Timings (fst (BuildAndPushFinish (out_build (outcome opts c)) (out_clock (outcome opts c)))).

End Shape.

(** The Sentry reports of a session: the feature tag and the error. *)
Definition sentries {Opts} (tr : list (Event Opts)) : list (string * error) :=
  flat_map (fun e => match e with EvSentry f err => [(f, err)] | _ => [] end) tr.

(** A session's events without the Sentry reports. *)
Definition observable {Opts} (tr : list (Event Opts)) : list (Event Opts) :=
  filter (fun e => match e with EvSentry _ _ => false | _ => true end) tr.

(** Two worlds that differ in Sentry reports at most. *)
Definition same_but_sentry {Opts} (w1 w2 : World Opts) : Prop :=
  clock w1 = clock w2 /\ observable (trace w1) = observable (trace w2).

(** What holds of the events of a finished session. *)
Definition session_trace {Opts} (r : Resolver) (ctx : Context) (opts : Opts)
    (input : CreateBuildInput.t) (bld0 : build) (o : Outcome) (tr : list (Event Opts)) : Prop :=
  exists f b',
    res_build o = Some b'
    /\ tr = session_events r ctx opts input (calls tr) b' f
    /\ Forall fresh_timers (calls tr)
    /\ Timings b' = last (map (timings_after opts) (calls tr)) (Timings bld0).

End SessionShape.

Module Invariants.
Import Errors Logs Orchestrator Observe SessionShape Timers.

(** An attempt record whose two texts fit the limit and whose result tag
    is one of the two the code writes. *)
Definition attempt_bounded (a : BuildStrategyAttemptInput.t) : Prop :=
  String.length (BuildStrategyAttemptInput.Error a) <= 4096
  /\ String.length (BuildStrategyAttemptInput.Note a) <= 4096
  /\ (BuildStrategyAttemptInput.Result a = "failed"
      \/ BuildStrategyAttemptInput.Result a = "success").

(** Every text a session hands to the build-tracking service is at most
    4096 bytes long. *)
Definition payload_bounded {Opts} (cands : list (strategy Opts)) (tr : list (Event Opts))
  : Prop :=
  Forall attempt_bounded (appended tr)
  /\ Forall (fun i => String.length (FinishBuildInput.Logs i) <= 4096) (gqlFinishes tr)
  /\ (Forall keeps_record cands ->
      Forall (fun i => Forall attempt_bounded (FinishBuildInput.StrategiesAttempted i))
             (gqlFinishes tr)).


(** The caller gets an image or an error, never both and never neither. *)
Definition image_xor_error (res : option DeploymentImage.t * option error) : Prop :=
  match res with
  | (Some _, None) | (None, Some _) => True
  | (Some _, Some _) | (None, None) => False
  end.

(** The events of the session are, in this order: the create mutation
    (with its Sentry report, if any), for each call of a strategy the call
    and the attempt appended for it, and the finalization. *)
Definition events_in_order {Opts} (r : Resolver) (ctx : Context) (opts : Opts)
    (input : CreateBuildInput.t) (o : Outcome) (tr : list (Event Opts)) : Prop :=
  exists f b,
    res_build o = Some b
    /\ tr = create_events ctx input
            ++ flat_map (attempt_events opts) (calls tr)
            ++ finish_events r ctx b f.

(** The Sentry reports of a session whose strategies leave the record's
    identity alone: the create failure unless it is "Could not find App",
    or else the failure of the finish mutation; never both. *)
Definition sentry_reports {Opts} (ctx : Context) (input : CreateBuildInput.t)
    (tr : list (Event Opts)) : Prop :=
  length (sentries tr) <= 1
  /\ match ResolverCreateBuild (GenqClient ctx) input with
     | inr e =>
       sentries tr = (if isAppNotFoundErr e then [] else [("build-api-create-build", e)])
     | inl _ =>
       exists i, gqlFinishes tr = [i]
         /\ sentries tr = match ResolverFinishBuild (GenqClient ctx) i with
                          | inr e => [("build-api-finish-build", e)]
                          | inl _ => []
                          end
     end.

(** The finish mutation of a session whose record was created: it names
    the id the create mutation returned and the application, leaves the
    machine id empty, and lists the attempts of the session. *)
Definition finish_names_created {Opts} (r : Resolver) (id : string) (tr : list (Event Opts))
  : Prop :=
  exists i,
    gqlFinishes tr = [i]
    /\ FinishBuildInput.BuildId i = id
    /\ FinishBuildInput.AppName i = appName (dockerFactory r)
    /\ FinishBuildInput.MachineId i = ""
    /\ FinishBuildInput.StrategiesAttempted i = appended tr
    /\ length (FinishBuildInput.StrategiesAttempted i) = length (calls tr).

(** The create mutation announces the candidates by name, in order, and
    the attempts recorded afterwards name a prefix of them. *)
Definition attempts_prefix_of_announced {Opts} (r : Resolver) (cands : list (strategy Opts))
    (tr : list (Event Opts)) : Prop :=
  exists input rest,
    creates tr = [input]
    /\ CreateBuildInput.StrategiesAvailable input = map Name cands
    /\ CreateBuildInput.AppName input = appName (dockerFactory r)
    /\ CreateBuildInput.BuilderType input
       = (if remote (dockerFactory r) then "remote" else "local")
    /\ CreateBuildInput.MachineId input = ""
    /\ CreateBuildInput.StrategiesAvailable input
       = map BuildStrategyAttemptInput.Strategy (appended tr) ++ rest.

(** The timings the finish mutation reports are those of the last
    strategy called: what its [Run] left in the record, with the
    build-and-push duration measured when it returned. *)
Definition reports_last_timings {Opts} (opts : Opts) (tr : list (Event Opts)) : Prop :=
  forall (pre : list (Call Opts)) (c : Call Opts),
    calls tr = pre ++ [c] ->
    (forall i, In i (gqlFinishes tr) -> FinishBuildInput.Timings i = timings_after opts c)
    /\ (keeps_timers (call_strategy c) ->
        timings_after opts c
        = BuildTimingsInput.mk
            (wrap64 (readings (out_clock (outcome opts c)) (pos (out_clock (outcome opts c)))
                     - readings (call_clock c) (pos (call_clock c) - 1)))
            (-1) (-1) (-1) (-1) (-1)).

End Invariants.

(* ===================================================================== *)
(** * Requests of the heartbeat start-up, and counted runs of the stop race *)
(* ===================================================================== *)

Module HeartbeatShape.
Import Errors Http Signal Orchestrator Heartbeat.

(** The requests [StartHeartbeat] sent, in order: the index of the
    request through the client and the request. *)
Definition requests (res : HbResult) : list (nat * Request) :=
  flat_map (fun e => match e with HbDo k req => [(k, req)] | _ => [] end) (hb_events res).

(** A builder that answers every request, always with the status [code]. *)
Definition answers_with (client : dockerClient) (code : Z) : Prop :=
  forall (k : nat) (req : Request),
    exists resp, HTTPDo client k req = inl resp /\ StatusCode resp = code.

End HeartbeatShape.

Module SignalRuns.
Import Signal.

(** Executions of the race, with the number of steps taken. *)
Inductive steps_in : nat -> Config -> Config -> Prop :=
| steps_in_refl (c : Config) : steps_in 0 c c
| steps_in_then (k : nat) (c1 c2 c3 : Config) :
    steps_in k c1 c2 -> step c2 c3 -> steps_in (S k) c1 c3.

End SignalRuns.

(* ===================================================================== *)
(** * The heartbeat loop *)
(* ===================================================================== *)

Module HeartbeatLoop.
Import Errors Http Signal Orchestrator Heartbeat.

(** What the goroutine started by [StartHeartbeat] (lines 682-702) shares
    with the rest of the program: the signal [done], the context, the
    ticker [pulse] and the docker client; and, for the statements, the
    heartbeats it sent with their results. *)
Record LoopState := mkLoopState {
  signal : StopSignal;
  ctxDone : bool;
  pulseReady : bool;
  pulseStopped : bool;
  clientClosed : bool;
  sent : list (nat * Request * option error);
  nextRequest : nat;
  returned : bool;
  stopPanicked : bool
}.

(** What can happen next.  [StopCalled] is a call of [done.Stop()] from
    outside the loop: by whoever holds the handle, or by the timer of
    [time.AfterFunc(maxTime, ...)].  [ContextDone] is the cancellation of
    the context.  [Tick] is the ticker firing.  The three others are the
    cases the [select] of the loop can take. *)
Inductive Action : Type :=
| StopCalled | ContextDone | Tick | SelectDone | SelectCtx | SelectPulse.

(** [done.Stop()] *)
Definition callStop (s : LoopState) : LoopState :=
  match Stop (Some (signal s)) with
  | Some (Some d) =>
    mkLoopState d (ctxDone s) (pulseReady s) (pulseStopped s) (clientClosed s) (sent s)
                (nextRequest s) (returned s) (stopPanicked s)
  | _ =>
    mkLoopState (signal s) (ctxDone s) (pulseReady s) (pulseStopped s) (clientClosed s)
                (sent s) (nextRequest s) (returned s) true
  end.

(** The [return] of the loop: the deferred calls run last-in first-out,
    [done.Stop()], then [pulse.Stop()], then [dockerClient.Close()]. *)
Definition leave (s : LoopState) : LoopState :=
  let s := callStop s in
  mkLoopState (signal s) (ctxDone s) (pulseReady s) true true (sent s) (nextRequest s)
              true (stopPanicked s).

Section Loop.
Variable client : dockerClient.
Variable heartbeatReq : Request.

(** One action; [None] when it cannot happen in [s]: a [select] case
    whose channel is not ready, anything of the loop after it returned, a
    tick of a stopped ticker. *)
Definition act (a : Action) (s : LoopState) : option LoopState :=
  match a with
  | StopCalled => Some (callStop s)
  | ContextDone =>
    Some (mkLoopState (signal s) true (pulseReady s) (pulseStopped s) (clientClosed s)
                      (sent s) (nextRequest s) (returned s) (stopPanicked s))
  | Tick =>
    if pulseStopped s then None
    else Some (mkLoopState (signal s) (ctxDone s) true (pulseStopped s) (clientClosed s)
                           (sent s) (nextRequest s) (returned s) (stopPanicked s))
  | SelectDone =>
    if returned s then None
    else match Chan (signal s) with
         | ChanClosed => Some (leave s)
         | ChanOpen => None
         end
  | SelectCtx =>
    if returned s then None
    else if ctxDone s then Some (leave s) else None
  | SelectPulse =>
    if returned s then None
    else if pulseReady s
         then
           let err := heartbeat client (nextRequest s) heartbeatReq in
           Some (mkLoopState (signal s) (ctxDone s) false (pulseStopped s) (clientClosed s)
                             (sent s ++ [(nextRequest s, heartbeatReq, err)])
                             (S (nextRequest s)) (returned s) (stopPanicked s))
         else None
  end.

(** A run: the actions of the list in turn, those that cannot happen
    left out. *)
Fixpoint exec (acts : list Action) (s : LoopState) : LoopState :=
  match acts with
  | [] => s
  | a :: rest =>
    match act a s with
    | Some s' => exec rest s'
    | None => exec rest s
    end
  end.

End Loop.

(** The state in which the goroutine starts: a fresh signal, and the two
    requests of the start-up already made through the client. *)
Definition loopStart : LoopState :=
  mkLoopState newStopSignal false false false false [] 2 false false.

Definition isTick (a : Action) : bool :=
  match a with Tick => true | _ => false end.

(** What holds of the loop's state at any time. *)
Definition loop_invariant (s : LoopState) : Prop :=
  stopPanicked s = false
  /\ m (once (signal s)) = false
  /\ (done (once (signal s)) = true <-> Chan (signal s) = ChanClosed)
  /\ (returned s = true ->
      Chan (signal s) = ChanClosed /\ pulseStopped s = true /\ clientClosed s = true)
  /\ (returned s = false -> pulseStopped s = false /\ clientClosed s = false).

End HeartbeatLoop.

(* ===================================================================== *)
(** * Span attributes *)
(* ===================================================================== *)

Module Span.
Import Errors.

(** An [attribute.KeyValue]: a key and a typed value. *)
Inductive Value : Type :=
| StringValue (s : string)
| BoolValue (b : bool)
| Int64Value (z : Z)
| StringSliceValue (l : list string).

Record KeyValue := mkKeyValue {
  Key : string;
  Val : Value
}.

(** [attribute.String], [attribute.Bool], [attribute.Int64] and
    [attribute.StringSlice]. *)
Definition attrString (k v : string) : KeyValue := mkKeyValue k (StringValue v).
Definition attrBool (k : string) (v : bool) : KeyValue := mkKeyValue k (BoolValue v).
Definition attrInt64 (k : string) (v : Z) : KeyValue := mkKeyValue k (Int64Value v).
Definition attrStringSlice (k : string) (v : list string) : KeyValue :=
  mkKeyValue k (StringSliceValue v).

Section Marshal.
(** [json.Marshal] on a map of strings and on the map of built-in
    settings: the JSON text or an error. *)
Variable Marshal : strmap -> string + error.
Variable MarshalSettings : strmap -> string + error.

(** [b, err := json.Marshal(m); if err == nil { attrs = append(attrs,
    attribute.String(key, string(b))) }] *)
Definition appendJSON (attrs : list KeyValue) (key : string) (m : string + error)
  : list KeyValue :=
  match m with
  | inl b => attrs ++ [attrString key b]
  | inr _ => attrs
  end.

(** [func (io ImageOptions) ToSpanAttributes() []attribute.KeyValue] *)
Definition ImageOptions_ToSpanAttributes (io : ImageOptions.t) : list KeyValue :=
  let attrs := [
    attrString "imageoptions.app_name" (ImageOptions.AppName io);
    attrString "imageoptions.work_dir" (ImageOptions.WorkingDir io);
    attrString "imageoptions.dockerfile_path" (ImageOptions.DockerfilePath io);
    attrString "imageoptions.ignorefile_path" (ImageOptions.IgnorefilePath io);
    attrString "imageoptions.image.ref" (ImageOptions.ImageRef io);
    attrString "imageoptions.image.label" (ImageOptions.ImageLabel io);
    attrBool "imageoptions.publish" (ImageOptions.Publish io);
    attrString "imageoptions.tag" (ImageOptions.Tag io);
    attrBool "imageoptions.nocache" (ImageOptions.NoCache io);
    attrString "imageoptions.builtin" (ImageOptions.BuiltIn io);
    attrString "imageoptions.builder" (ImageOptions.BuiltIn io);
    attrStringSlice "imageoptions.buildpacks" (ImageOptions.Buildpacks io)
  ] in
  let attrs := appendJSON attrs "imageoptions.build_args"
                 (Marshal (ImageOptions.BuildArgs io)) in
  let attrs := appendJSON attrs "imageoptions.extra_build_args"
                 (Marshal (ImageOptions.ExtraBuildArgs io)) in
  let attrs := appendJSON attrs "imageoptions.build_secrets"
                 (Marshal (ImageOptions.BuildSecrets io)) in
  let attrs := appendJSON attrs "imageoptions.built_in_settings"
                 (MarshalSettings (ImageOptions.BuiltInSettings io)) in
  let attrs := appendJSON attrs "imageoptions.labels"
                 (Marshal (ImageOptions.Label io)) in
  attrs.

(** [func (ro RefOptions) ToSpanAttributes() []attribute.KeyValue] *)
Definition RefOptions_ToSpanAttributes (ro : RefOptions.t) : list KeyValue :=
  [ attrString "refoptions.app_name" (RefOptions.AppName ro);
    attrString "refoptions.work_dir" (RefOptions.WorkingDir ro);
    attrString "refoptions.image.ref" (RefOptions.ImageRef ro);
    attrString "refoptions.image.label" (RefOptions.ImageLabel ro);
    attrBool "refoptions.publish" (RefOptions.Publish ro);
    attrString "refoptions.tag" (RefOptions.Tag ro) ].

(** [func (di DeploymentImage) ToSpanAttributes() []attribute.KeyValue] *)
Definition DeploymentImage_ToSpanAttributes (di : DeploymentImage.t) : list KeyValue :=
  let attrs := [
    attrString "image.id" (DeploymentImage.ID di);
    attrString "image.tag" (DeploymentImage.Tag di);
    attrInt64 "image.size" (DeploymentImage.Size di)
  ] in
  let attrs := appendJSON attrs "image.labels" (Marshal (DeploymentImage.Labels di)) in
  attrs.

End Marshal.

(** The value of the first attribute with the key [k]. *)
Fixpoint lookup (k : string) (attrs : list KeyValue) : option Value :=
  match attrs with
  | [] => None
  | a :: rest => if (Key a =? k)%string then Some (Val a) else lookup k rest
  end.

(** Whether no string occurs twice. *)
Fixpoint distinct (l : list string) : bool :=
  match l with
  | [] => true
  | x :: rest => negb (existsb (String.eqb x) rest) && distinct rest
  end.

(** [io] with another [Builder]. *)
Definition withBuilder (builder : string) (o : ImageOptions.t) : ImageOptions.t :=
  ImageOptions.mk (ImageOptions.AppName o) (ImageOptions.WorkingDir o)
     (ImageOptions.DockerfilePath o) (ImageOptions.IgnorefilePath o)
     (ImageOptions.ImageRef o) (ImageOptions.BuildArgs o) (ImageOptions.ExtraBuildArgs o)
     (ImageOptions.BuildSecrets o) (ImageOptions.ImageLabel o) (ImageOptions.Publish o)
     (ImageOptions.Tag o) (ImageOptions.Target o) (ImageOptions.NoCache o)
     (ImageOptions.BuiltIn o) (ImageOptions.BuiltInSettings o) builder
     (ImageOptions.Buildpacks o) (ImageOptions.Label o)
     (ImageOptions.BuildpacksDockerHost o) (ImageOptions.BuildpacksVolumes o).

End Span.

(* ===================================================================== *)
(** * More concrete sessions *)
(* ===================================================================== *)

Module MoreScenarios.
Import Errors Logs Http Orchestrator Observe Scenarios Timers.

(** A build-tracking service that creates the record and then fails to
    finish it. *)
Definition ctxFinishFails : Context :=
  mkContext (mkClient (fun _ => inl "build-1")
                      (fun _ => inr (errorString "service unavailable"))).

(** A build-tracking service that does not know the application. *)
Definition ctxAppNotFound : Context :=
  mkContext (mkClient
               (fun _ => inr (gqlError "input:3: createBuild Could not find App"
                                       "createBuild" "Could not find App"))
               (fun _ => inr (errorString "connection refused"))).

(** A resolver without a docker daemon to build with. *)
Definition resolverUnavailable : Resolver := mkResolver (factory false false) implFound.

(** A Dockerfile builder that times the build of the context and of the
    image and describes the daemon it used. *)
Definition timingDockerfileBuilder : imageBuilder :=
  scripted "dockerfile"
    (fun _ => [OpMeta1 false "" ""; OpStart BuilderInit; OpFinish BuilderInit;
               OpMeta2 true "24.0.7" "linux/amd64";
               OpStart Build; OpStart ContextBuild; OpFinish ContextBuild;
               OpStart ImageBuild; OpFinish ImageBuild; OpFinish Build])
    (fun _ => (Some image1, "", None)).

End MoreScenarios.

(* ===================================================================== *)
(** * Facts about truncation *)
(* ===================================================================== *)

Module LogsFacts.
Import Logs.

Lemma length_slice_from (n : nat) (s : string) :
  String.length (slice_from n s) = String.length s - n.
Proof.
  revert s; induction n as [|k IH]; intros s.
  - cbn [slice_from]. lia.
  - destruct s as [|c t]; cbn [slice_from String.length].
    + reflexivity.
    + rewrite IH. lia.
Qed.

Lemma length_append (a b : string) :
  String.length (a ++ b)%string = String.length a + String.length b.
Proof.
  induction a as [|c a IH]; cbn [String.append String.length]; [|rewrite IH]; reflexivity.
Qed.

(** [s[n:]] is a suffix of [s]: what is cut off in front has [n] bytes. *)
Lemma slice_from_suffix (n : nat) (s : string) :
  n <= String.length s ->
  exists front, s = (front ++ slice_from n s)%string /\ String.length front = n.
Proof.
  revert s; induction n as [|k IH]; intros s Hn.
  - exists EmptyString. split; reflexivity.
  - destruct s as [|c t]; cbn [String.length] in Hn; [lia|].
    destruct (IH t) as (front & Heq & Hlen); [lia|].
    exists (String c front). cbn [slice_from String.append String.length].
    split; [f_equal; exact Heq | f_equal; exact Hlen].
Qed.

Lemma limitLogs_short (s : string) :
  String.length s <= logLimit -> limitLogs s = s.
Proof.
  intros H. unfold limitLogs.
  destruct (Nat.ltb_spec logLimit (String.length s)); [lia | reflexivity].
Qed.

Lemma limitLogs_long (s : string) :
  logLimit < String.length s ->
  limitLogs s = slice_from (String.length s - logLimit) s.
Proof.
  intros H. unfold limitLogs.
  destruct (Nat.ltb_spec logLimit (String.length s)); [reflexivity | lia].
Qed.

Lemma limitLogs_length (s : string) :
  String.length (limitLogs s) <= logLimit.
Proof.
  unfold limitLogs.
  destruct (Nat.ltb_spec logLimit (String.length s)) as [H|H].
  - rewrite length_slice_from. lia.
  - exact H.
Qed.

Lemma length_replicate (n : nat) (c : ascii) :
  String.length (replicate n c) = n.
Proof. induction n as [|k IH]; cbn [replicate String.length]; [|rewrite IH]; reflexivity. Qed.

Example limitLogs_short_text : limitLogs "pack failed" = "pack failed".
Proof. reflexivity. Qed.

Example limitLogs_at_limit :
  limitLogs (replicate 4096 "x"%char) = replicate 4096 "x"%char.
Proof. vm_compute. reflexivity. Qed.

Example limitLogs_one_over :
  limitLogs (String "a"%char (replicate 4096 "x"%char)) = replicate 4096 "x"%char.
Proof. vm_compute. reflexivity. Qed.

(** [C7] For every string [s], [limitLogs] returns [s] unchanged when
    [len(s) <= 4096] and exactly the trailing 4096 bytes of [s] when
    [len(s) > 4096]; hence the result never exceeds 4096 bytes and
    truncating twice is the same as truncating once. *)
Theorem limitLogs_spec (s : string) :
  (if (String.length s <=? 4096)%nat
   then limitLogs s = s
   else exists front,
          s = (front ++ limitLogs s)%string /\ String.length (limitLogs s) = 4096)
  /\ String.length (limitLogs s) <= 4096
  /\ limitLogs (limitLogs s) = limitLogs s.
Proof.
  change 4096 with logLimit.
  split; [|split].
  - destruct (Nat.leb_spec (String.length s) logLimit) as [H|H].
    + apply limitLogs_short, H.
    + rewrite limitLogs_long by exact H.
      destruct (slice_from_suffix (String.length s - logLimit) s) as (front & Heq & _);
        [lia|].
      exists front. split; [exact Heq|].
      rewrite length_slice_from. lia.
  - apply limitLogs_length.
  - apply limitLogs_short, limitLogs_length.
Qed.

End LogsFacts.

(* ===================================================================== *)
(** * Facts about the strategy loop *)
(* ===================================================================== *)

Module OrchestratorFacts.
Import Errors Logs Orchestrator Observe.

Section LoopFacts.
Context {Opts : Type}.
Variable r : Resolver.
Variable ctx : Context.
Variable opts : Opts.

Lemma finishBuild_trace (bld : build) failed logs img (w : World Opts) :
  let w' := snd (finishBuild r ctx bld failed logs img w) in
  clock w' = clock w /\
  calls (trace w') = calls (trace w) /\
  appended (trace w') = appended (trace w) /\
  creates (trace w') = creates (trace w) /\
  finishes (trace w') = finishes (trace w) ++ [mkFinish failed logs img] /\
  gqlFinishes (trace w') =
    gqlFinishes (trace w) ++
      (if CreateApiFailed bld then [] else [finishInput r bld (mkFinish failed logs img)]).
Proof.
  unfold finishBuild, bind, emit, ret.
  destruct (CreateApiFailed bld); cbn.
  - unfold calls, appended, creates, finishes, gqlFinishes.
    rewrite !flat_map_app. cbn. rewrite !app_nil_r. repeat split; reflexivity.
  - unfold finishInput. cbn.
    destruct failed; destruct img; cbn;
    match goal with |- context [ResolverFinishBuild ?c ?i] => destruct (ResolverFinishBuild c i) end; cbn;
    unfold calls, appended, creates, finishes, gqlFinishes;
    rewrite !flat_map_app; cbn; rewrite ?app_nil_r; repeat split; reflexivity.
Qed.

Lemma strategyLoop_cons (s : strategy Opts) (rest : list (strategy Opts))
    (b : build) (w : World Opts) :
  strategyLoop r ctx opts (s :: rest) b w =
  let c := call_at s b w in
  let o := outcome opts c in
  let b' := fst (after_attempt opts s b w) in
  let w' := snd (after_attempt opts s b w) in
  match out_err o, out_img o with
  | Some e, _ =>
    ((Returned None (Some e), b'), snd (finishBuild r ctx b' true (Error e) None w'))
  | None, Some i =>
    ((Returned (Some i) None, b'), snd (finishBuild r ctx b' false "" (Some i) w'))
  | None, None => strategyLoop r ctx opts rest b' w'
  end.
Proof.
  cbv zeta. unfold after_attempt, attempt_of, outcome, call_at.
  cbn -[finishBuild wrap64 attemptInput finishStrategyCommon].
  unfold bind, timed, callRun, FinishStrategy, emit, ret, bind.
  cbn -[finishBuild wrap64 attemptInput finishStrategyCommon].
  destruct (Run s opts _ _) as [img note err ob oc];
    cbn -[finishBuild wrap64 attemptInput finishStrategyCommon].
  destruct err as [e|]; [|destruct img as [i|]];
    cbn -[finishBuild wrap64 attemptInput finishStrategyCommon].
  - match goal with |- context [finishBuild ?a ?b ?c ?d ?e ?f ?g] =>
      destruct (finishBuild a b c d e f g) end; reflexivity.
  - match goal with |- context [finishBuild ?a ?b ?c ?d ?e ?f ?g] =>
      destruct (finishBuild a b c d e f g) end; reflexivity.
  - reflexivity.
Qed.

Lemma after_attempt_trace (s : strategy Opts) (b : build) (w : World Opts) :
  let w' := snd (after_attempt opts s b w) in
  calls (trace w') = calls (trace w) ++ [call_at s b w] /\
  appended (trace w') = appended (trace w) ++ [attempt_of opts (call_at s b w)] /\
  creates (trace w') = creates (trace w) /\
  finishes (trace w') = finishes (trace w) /\
  gqlFinishes (trace w') = gqlFinishes (trace w).
Proof.
  unfold after_attempt, calls, appended, creates, finishes, gqlFinishes.
  cbn [snd trace]. rewrite !flat_map_app. cbn [flat_map app].
  rewrite !app_nil_r. repeat split; reflexivity.
Qed.

Lemma attempt_of_flag (c : Call Opts) :
  attempt_of opts c =
  attemptInput (Name (call_strategy c))
    (match out_err (outcome opts c), out_img (outcome opts c) with
     | None, Some _ => false
     | _, _ => true
     end)
    (out_err (outcome opts c)) (out_note (outcome opts c)).
Proof.
  unfold attempt_of.
  destruct (out_err (outcome opts c)); [reflexivity|].
  destruct (out_img (outcome opts c)); reflexivity.
Qed.

Lemma after_attempt_record (s : strategy Opts) (b : build) (w : World Opts) :
  keeps_record s ->
  let b' := fst (after_attempt opts s b w) in
  StrategyResults b' = StrategyResults b ++ [attempt_of opts (call_at s b w)] /\
  BuildId b' = BuildId b /\ CreateApiFailed b' = CreateApiFailed b.
Proof.
  intros K. cbv zeta. rewrite attempt_of_flag.
  unfold after_attempt, outcome. cbn [fst call_strategy call_build call_clock call_at].
  destruct (K opts (fst (BuildAndPushStart (ResetTimings b) (clock w)))
              (snd (BuildAndPushStart (ResetTimings b) (clock w)))) as (K1 & K2 & K3).
  unfold finishStrategyCommon, BuildAndPushFinish.
  cbn [UnixMilliNow fst snd StrategyResults BuildId CreateApiFailed set_StrategyResults
       set_Timings].
  rewrite K1, K2, K3. repeat split; reflexivity.
Qed.

Lemma strategyLoop_spec (ss : list (strategy Opts)) :
  forall (b : build) (w : World Opts),
  exists cs,
    let res := strategyLoop r ctx opts ss b w in
    let exit := fst (fst res) in
    let b' := snd (fst res) in
    let w' := snd res in
    calls (trace w') = calls (trace w) ++ cs /\
    appended (trace w') = appended (trace w) ++ map (attempt_of opts) cs /\
    creates (trace w') = creates (trace w) /\
    finishes (trace w') = finishes (trace w) ++ exit_finishes exit /\
    gqlFinishes (trace w') =
      gqlFinishes (trace w) ++
        (if CreateApiFailed b' then [] else map (finishInput r b') (exit_finishes exit)) /\
    shape opts ss cs exit /\
    (Forall keeps_record ss ->
       StrategyResults b' = StrategyResults b ++ map (attempt_of opts) cs /\
       BuildId b' = BuildId b /\ CreateApiFailed b' = CreateApiFailed b).
Proof.
  induction ss as [|s rest IH]; intros b w.
  - exists []. cbn.
    destruct (CreateApiFailed b); rewrite !app_nil_r; repeat split; auto.
  - destruct (after_attempt_trace s b w) as (T1 & T2 & T3 & T4 & T5).
    pose proof (after_attempt_record s b w) as R.
    rewrite strategyLoop_cons. cbv zeta.
    set (c := call_at s b w) in *.
    destruct (out_err (outcome opts c)) as [e|] eqn:Ee;
      [|destruct (out_img (outcome opts c)) as [i|] eqn:Ei].
    + cbn [fst snd].
      destruct (finishBuild_trace (fst (after_attempt opts s b w)) true (Error e) None
                  (snd (after_attempt opts s b w))) as (_ & F1 & F2 & F3 & F4 & F5).
      exists [c]. rewrite F1, F2, F3, F4, F5, T1, T2, T3, T4, T5.
      cbn [map exit_finishes finish_of].
      repeat split; try reflexivity.
      * exists [], c, rest. cbn. repeat split; auto.
        -- right. rewrite Ee. discriminate.
        -- unfold verdict. rewrite Ee. reflexivity.
      * apply R. inversion H; assumption.
      * apply R. inversion H; assumption.
      * apply R. inversion H; assumption.
    + cbn [fst snd].
      destruct (finishBuild_trace (fst (after_attempt opts s b w)) false "" (Some i)
                  (snd (after_attempt opts s b w))) as (_ & F1 & F2 & F3 & F4 & F5).
      exists [c]. rewrite F1, F2, F3, F4, F5, T1, T2, T3, T4, T5.
      cbn [map exit_finishes finish_of].
      repeat split; try reflexivity.
      * exists [], c, rest. cbn. repeat split; auto.
        -- left. rewrite Ei. discriminate.
        -- unfold verdict. rewrite Ee, Ei. reflexivity.
      * apply R. inversion H; assumption.
      * apply R. inversion H; assumption.
      * apply R. inversion H; assumption.
    + destruct (IH (fst (after_attempt opts s b w)) (snd (after_attempt opts s b w)))
        as (cs & H). cbv zeta in H.
      destruct H as (H1 & H2 & H3 & H4 & H5 & H6 & H7).
      exists (c :: cs). rewrite H1, H2, H3, H4, H5, T1, T2, T3, T4, T5.
      rewrite <- !app_assoc. cbn [map app].
      repeat split; try reflexivity.
      * destruct (fst (fst (strategyLoop r ctx opts rest _ _))) as [img err|];
          cbn [shape] in *.
        -- destruct H6 as (pre & c0 & post & -> & -> & Hd & Hc & Hv).
           exists (c :: pre), c0, post. cbn [map app]. repeat split; auto.
           constructor; [split; assumption | assumption].
        -- destruct H6 as [<- Hd]. split; [reflexivity|].
           constructor; [split; assumption | assumption].
      * inversion H as [|? ? Ks Kr]; subst. destruct (H7 Kr) as (-> & _ & _).
        destruct (R Ks) as (-> & _ & _). rewrite <- app_assoc. reflexivity.
      * inversion H as [|? ? Ks Kr]; subst. destruct (H7 Kr) as (_ & -> & _).
        apply (R Ks).
      * inversion H as [|? ? Ks Kr]; subst. destruct (H7 Kr) as (_ & _ & ->).
        apply (R Ks).
Qed.

Lemma session_tail_spec (cands : list (strategy Opts)) (exhaustErr : error)
    (bld0 : build) (w : World Opts) :
  exists cs f b',
    let res := bind (strategyLoop r ctx opts cands bld0) (conclude r ctx exhaustErr) w in
    let o := fst res in
    let w' := snd res in
    calls (trace w') = calls (trace w) ++ cs /\
    appended (trace w') = appended (trace w) ++ map (attempt_of opts) cs /\
    creates (trace w') = creates (trace w) /\
    finishes (trace w') = finishes (trace w) ++ [f] /\
    res_build o = Some b' /\
    gqlFinishes (trace w') =
      gqlFinishes (trace w) ++ (if CreateApiFailed b' then [] else [finishInput r b' f]) /\
    ended opts cands cs f (res_img o) (res_err o) exhaustErr /\
    (Forall keeps_record cands ->
       StrategyResults b' = StrategyResults bld0 ++ map (attempt_of opts) cs /\
       BuildId b' = BuildId bld0 /\ CreateApiFailed b' = CreateApiFailed bld0).
Proof.
  destruct (strategyLoop_spec cands bld0 w) as (cs & H). cbv zeta in H.
  destruct H as (H1 & H2 & H3 & H4 & H5 & H6 & H7).
  unfold bind.
  destruct (strategyLoop r ctx opts cands bld0 w) as [[exit b'] w1] eqn:E.
  cbn [fst snd] in *.
  destruct exit as [img err|]; cbn [conclude shape exit_finishes map] in *.
  - exists cs, (finish_of img err), b'. cbn [ret fst snd res_build res_img res_err].
    repeat split; try assumption; try reflexivity; try (apply H7; assumption).
    unfold ended. left. destruct H6 as (pre & c & post & A & B & C & D & F).
    exists pre, c, post. repeat split; assumption.
  - exists cs, exhaustedFinish, b'.
    destruct (finishBuild_trace b' true "no strategies resulted in an image" None w1)
      as (_ & F1 & F2 & F3 & F4 & F5).
    unfold bind, ret.
    destruct (finishBuild r ctx b' true "no strategies resulted in an image" None w1)
      as [x w2] eqn:E2.
    cbn [fst snd res_build res_img res_err] in *.
    rewrite F1, F2, F3, F4, F5, H1, H2, H3, H4, H5, !app_nil_r.
    repeat split; try reflexivity; try (apply H7; assumption).
    + destruct (CreateApiFailed b'); rewrite !app_nil_r; reflexivity.
    + unfold ended. right. destruct H6 as [A B]. repeat split; assumption.
Qed.

End LoopFacts.

Section CreateFacts.
Variable r : Resolver.
Variable ctx : Context.

Lemma createBuildGql_spec {Opts} (names : list string) (io : BuildImageOptsInput.t)
    (w : World Opts) :
  let res := createBuildGql r ctx names io w in
  let w' := snd res in
  fst (fst res) = createdBuild ctx (createInput r names io) /\
  clock w' = clock w /\
  calls (trace w') = calls (trace w) /\
  appended (trace w') = appended (trace w) /\
  finishes (trace w') = finishes (trace w) /\
  gqlFinishes (trace w') = gqlFinishes (trace w) /\
  creates (trace w') = creates (trace w) ++ [createInput r names io].
Proof.
  unfold createBuildGql, createdBuild, createInput, bind, emit, ret.
  cbn [fst snd trace clock].
  destruct (ResolverCreateBuild _ _) as [id|err]; cbn [fst snd trace clock].
  - unfold calls, appended, finishes, gqlFinishes, creates.
    rewrite !flat_map_app. cbn [flat_map app]. rewrite !app_nil_r.
    repeat split; reflexivity.
  - destruct (negb _); cbn [fst snd trace clock];
      unfold calls, appended, finishes, gqlFinishes, creates;
      rewrite !flat_map_app; cbn [flat_map app]; rewrite !app_nil_r;
      repeat split; reflexivity.
Qed.

End CreateFacts.

Section SessionFacts.
Variable r : Resolver.
Variable ctx : Context.

Lemma session_from_create {Opts} (opts : Opts) (cands : list (strategy Opts))
    (names : list string) (io : BuildImageOptsInput.t) (exhaustErr : error) (c0 : Clock) :
  let cr := createBuildGql r ctx names io (start c0) in
  let res := bind (strategyLoop r ctx opts cands (fst (fst cr)))
                  (conclude r ctx exhaustErr) (snd cr) in
  session_facts r opts cands (createdBuild ctx (createInput r names io))
    (createInput r names io) exhaustErr (fst res) (trace (snd res)).
Proof.
  cbv zeta.
  pose proof (createBuildGql_spec r ctx names io (start (Opts:=Opts) c0)) as C.
  cbv zeta in C. destruct C as (C0 & _ & C1 & C2 & C3 & C4 & C5).
  destruct (session_tail_spec r ctx opts cands exhaustErr
              (fst (fst (createBuildGql r ctx names io (start (Opts:=Opts) c0))))
              (snd (createBuildGql r ctx names io (start (Opts:=Opts) c0))))
    as (cs & f & b' & H).
  cbv zeta in H. destruct H as (H1 & H2 & H3 & H4 & H5 & H6 & H7 & H8).
  rewrite C1 in H1. rewrite C2 in H2. rewrite C3 in H4. rewrite C4 in H6. rewrite C5 in H3.
  rewrite C0 in *.
  cbn [start trace calls appended finishes gqlFinishes creates flat_map app] in H1, H2, H3, H4, H6.
  exists f, b'. rewrite H1, H2. repeat split; try assumption.
  all: match goal with K : Forall keeps_record _ |- _ =>
         destruct (H8 K) as (R1 & R2 & R3) end; try assumption.
  rewrite R1. unfold createdBuild. destruct (ResolverCreateBuild _ _); reflexivity.
Qed.

Lemma resolveSession_eq (opts : RefOptions.t) (w : World RefOptions.t) :
  resolveSession r ctx opts w =
  let cr := createBuildGql r ctx (map Name (resolveStrategies r)) (refImageOpts opts) w in
  bind (strategyLoop r ctx opts (resolveStrategies r) (fst (fst cr)))
       (conclude r ctx (couldNotFind r opts)) (snd cr).
Proof.
  unfold resolveSession, createImageBuild, bind. cbv zeta.
  change ([] ++ map Name (resolveStrategies r)) with (map Name (resolveStrategies r)).
  fold (refImageOpts opts).
  destruct (createBuildGql r ctx _ _ w) as [[b e] w1]. cbn [fst snd].
  destruct (strategyLoop r ctx opts (resolveStrategies r) b w1) as [[exit b'] w2].
  destruct exit; reflexivity.
Qed.

Lemma buildSession_eq (opts : ImageOptions.t) (w : World ImageOptions.t) :
  IsAvailable (mode (dockerFactory r)) = true ->
  buildSession r ctx opts w =
  let cr := createBuildGql r ctx (map Name (buildStrategies r))
              (buildImageOpts (withTag r opts)) w in
  bind (strategyLoop r ctx (withTag r opts) (buildStrategies r) (fst (fst cr)))
       (conclude r ctx noBuilderApplies) (snd cr).
Proof.
  intros A. unfold buildSession, createBuild, bind. rewrite A. cbn [negb]. cbv zeta.
  change ([] ++ map Name (buildStrategies r)) with (map Name (buildStrategies r)).
  fold (withTag r opts). fold (buildImageOpts (withTag r opts)).
  destruct (createBuildGql r ctx _ _ w) as [[b e] w1]. cbn [fst snd].
  destruct (strategyLoop r ctx (withTag r opts) (buildStrategies r) b w1) as [[exit b'] w2].
  destruct exit; reflexivity.
Qed.

Lemma buildSession_unavailable (opts : ImageOptions.t) (w : World ImageOptions.t) :
  IsAvailable (mode (dockerFactory r)) = false ->
  buildSession r ctx opts w = (mkOutcome None (Some dockerUnavailable) None, w).
Proof. intros A. unfold buildSession. rewrite A. reflexivity. Qed.

Lemma resolveSession_spec (opts : RefOptions.t) (c0 : Clock) :
  let res := resolveSession r ctx opts (start c0) in
  session_facts r opts (resolveStrategies r) (createdBuild ctx (resolveCreateInput r opts))
    (resolveCreateInput r opts) (couldNotFind r opts) (fst res) (trace (snd res)).
Proof.
  cbv zeta. rewrite resolveSession_eq. apply session_from_create.
Qed.

Lemma buildSession_spec (opts : ImageOptions.t) (c0 : Clock) :
  IsAvailable (mode (dockerFactory r)) = true ->
  let res := buildSession r ctx opts (start c0) in
  session_facts r (withTag r opts) (buildStrategies r)
    (createdBuild ctx (buildCreateInput r opts))
    (buildCreateInput r opts) noBuilderApplies (fst res) (trace (snd res)).
Proof.
  intros A. cbv zeta. rewrite buildSession_eq by exact A. apply session_from_create.
Qed.

End SessionFacts.

End OrchestratorFacts.

(* ===================================================================== *)
(** * The sessions: order, attempt records, failure, finalization *)
(* ===================================================================== *)

Module SessionTheorems.
Import Errors Logs Orchestrator Observe OrchestratorFacts Scenarios Statements.

Section Entry.
Variable r : Resolver.
Variable ctx : Context.

Lemma ResolveReference_eq (opts : RefOptions.t) (w : World RefOptions.t) :
  ResolveReference r ctx opts w =
  ((res_img (fst (resolveSession r ctx opts w)), res_err (fst (resolveSession r ctx opts w))),
   snd (resolveSession r ctx opts w)).
Proof.
  unfold ResolveReference, bind, ret.
  destruct (resolveSession r ctx opts w) as [o w']. reflexivity.
Qed.

Lemma BuildImage_eq (opts : ImageOptions.t) (w : World ImageOptions.t) :
  BuildImage r ctx opts w =
  ((res_img (fst (buildSession r ctx opts w)), res_err (fst (buildSession r ctx opts w))),
   snd (buildSession r ctx opts w)).
Proof.
  unfold BuildImage, bind, ret.
  destruct (buildSession r ctx opts w) as [o w']. reflexivity.
Qed.

End Entry.

Section Shapes.
Context {Opts : Type}.
Variable opts : Opts.


Lemma ended_in_order cands cs f img err exhaustErr :
  ended opts cands cs f img err exhaustErr -> in_order_until_decision opts cands cs.
Proof.
  intros [(pre & c & post & A & B & C & D & _)|(A & B & _)].
  - left. exists pre, c, post. repeat split; assumption.
  - right. split; assumption.
Qed.

(** In a list whose front part satisfies [P] and whose last element does
    not, an element that does not satisfy [P] is the last one. *)
Lemma last_is_first_failure {A} (P : A -> Prop) (pre pre' : list A) (c c' : A)
    (post : list A) :
  pre' ++ [c'] = pre ++ c :: post -> Forall P pre' -> ~ P c ->
  pre = pre' /\ c = c' /\ post = [].
Proof.
  revert pre. induction pre' as [|x pre' IH]; intros pre E F N.
  - destruct pre as [|y pre]; cbn in E.
    + inversion E; subst. auto.
    + inversion E as [[E1 E2]]. destruct pre; discriminate.
  - inversion F as [|? ? Px F']; subst.
    destruct pre as [|y pre]; cbn in E.
    + inversion E; subst. contradiction.
    + inversion E as [[E1 E2]]. destruct (IH pre E2 F' N) as (-> & -> & ->). auto.
Qed.

End Shapes.


(** [C1] Strategies are invoked strictly in the declared order
    ([ResolveReference]: local lookup, then registry lookup; [BuildImage]:
    buildpacks, dockerfile, builtin, or nixpacks alone in nixpacks mode),
    and the first one whose [Run] returns an image or an error is the last
    one invoked.  ([BuildImage] invokes none when docker is unavailable.) *)
Theorem strategies_in_order_until_decision (r : Resolver) (ctx : Context) (c0 : Clock) :
  resolveStrategies r = [localImageResolver (impl r); remoteImageResolver (impl r)]
  /\ buildStrategies r =
       (if UseNixpacks (mode (dockerFactory r))
        then [nixpacksBuilder (impl r)]
        else [buildpacksBuilder (impl r); dockerfileBuilder (impl r);
              builtinBuilder (impl r)])
  /\ (forall opts : RefOptions.t,
        in_order_until_decision opts (resolveStrategies r)
          (calls (trace (snd (ResolveReference r ctx opts (start c0))))))
  /\ (forall opts : ImageOptions.t,
        if IsAvailable (mode (dockerFactory r))
        then in_order_until_decision (withTag r opts) (buildStrategies r)
               (calls (trace (snd (BuildImage r ctx opts (start c0)))))
        else calls (trace (snd (BuildImage r ctx opts (start c0)))) = []).
Proof.
  split; [reflexivity|]. split; [reflexivity|]. split.
  - intros opts. rewrite ResolveReference_eq. cbn [snd].
    destruct (resolveSession_spec r ctx opts c0) as (f & b' & _ & _ & _ & _ & _ & E & _).
    exact (ended_in_order opts _ _ _ _ _ _ E).
  - intros opts. rewrite BuildImage_eq. cbn [snd].
    destruct (IsAvailable (mode (dockerFactory r))) eqn:A.
    + destruct (buildSession_spec r ctx opts c0 A) as (f & b' & _ & _ & _ & _ & _ & E & _).
      exact (ended_in_order _ _ _ _ _ _ _ E).
    + rewrite buildSession_unavailable by exact A. reflexivity.
Qed.

Lemma attempt_of_strategy {Opts} (opts : Opts) (c : Call Opts) :
  BuildStrategyAttemptInput.Strategy (attempt_of opts c) = Name (call_strategy c).
Proof.
  unfold attempt_of.
  destruct (out_err (outcome opts c)); [reflexivity|].
  destruct (out_img (outcome opts c)); reflexivity.
Qed.

Lemma session_one_record {Opts} (r : Resolver) (opts : Opts) cands bld0 input exhaustErr o
    (tr : list (Event Opts)) :
  session_facts r opts cands bld0 input exhaustErr o tr ->
  one_record_per_call opts cands o tr.
Proof.
  intros (f & b' & A & _ & _ & B & _ & _ & K).
  unfold one_record_per_call. rewrite A.
  split; [reflexivity|]. split; [apply length_map|]. split.
  - rewrite map_map. apply map_ext. intros c. apply attempt_of_strategy.
  - intros H. exists b'. destruct (K H) as (R & _). rewrite R.
    split; [exact B|]. split; [reflexivity | apply length_map].
Qed.

(** [C2] Exactly one attempt record is appended per strategy invoked,
    whatever the outcome of the attempt, in the order of the invocations;
    the number of records is the number of invocations. *)
Theorem one_attempt_record_per_invocation (r : Resolver) (ctx : Context) (c0 : Clock) :
  (forall opts : RefOptions.t,
     one_record_per_call opts (resolveStrategies r)
       (fst (resolveSession r ctx opts (start c0)))
       (trace (snd (resolveSession r ctx opts (start c0)))))
  /\ (forall opts : ImageOptions.t,
        if IsAvailable (mode (dockerFactory r))
        then one_record_per_call (withTag r opts) (buildStrategies r)
               (fst (buildSession r ctx opts (start c0)))
               (trace (snd (buildSession r ctx opts (start c0))))
        else appended (trace (snd (buildSession r ctx opts (start c0)))) = []
             /\ calls (trace (snd (buildSession r ctx opts (start c0)))) = []).
Proof.
  split; intros opts.
  - exact (session_one_record _ _ _ _ _ _ _ _ (resolveSession_spec r ctx opts c0)).
  - destruct (IsAvailable (mode (dockerFactory r))) eqn:A.
    + exact (session_one_record _ _ _ _ _ _ _ _ (buildSession_spec r ctx opts c0 A)).
    + rewrite buildSession_unavailable by exact A. split; reflexivity.
Qed.

Lemma fixed_keeps_record {Opts} name img note err :
  keeps_record (fixed (Opts:=Opts) name img note err).
Proof. intros o b c. cbn. repeat split. Qed.

Lemma fixed_record_blind {Opts} name img note err :
  record_blind (fixed (Opts:=Opts) name img note err).
Proof. intros o b b' c. cbn. repeat split. Qed.

Lemma one_attempt_record_per_invocation_witness :
  Forall keeps_record (resolveStrategies (resolverOf implFound))
  /\ exists b,
       res_build (fst (resolveSession (resolverOf implFound) ctxOk refOpts (start clock0)))
         = Some b
       /\ map BuildStrategyAttemptInput.Result (StrategyResults b) = ["failed"; "success"].
Proof.
  assert (K : Forall keeps_record (resolveStrategies (resolverOf implFound))).
  { repeat constructor; apply fixed_keeps_record. }
  split; [exact K|].
  destruct (one_attempt_record_per_invocation (resolverOf implFound) ctxOk clock0)
    as [H _].
  destruct (H refOpts) as (_ & _ & _ & H4).
  destruct (H4 K) as (b & B1 & B2 & _).
  exists b. split; [exact B1|]. rewrite B2. reflexivity.
Defined.






Lemma ended_produced {Opts} (opts : Opts) cands cs f img err exhaustErr :
  ended opts cands cs f img err exhaustErr ->
  forall i, img = Some i <->
            exists c, In c cs /\ out_err (outcome opts c) = None
                      /\ out_img (outcome opts c) = Some i.
Proof.
  intros E i.
  assert (U : forall c0, In c0 cs -> out_err (outcome opts c0) = None ->
                         out_img (outcome opts c0) = Some i -> ~ declined opts c0).
  { intros c0 _ _ Hi [D _]. rewrite D in Hi. discriminate. }
  destruct E as [(pre & c & post & E1 & E2 & E3 & E4 & E5 & E6)|(E1 & E2 & E3 & _)].
  - split.
    + intros ->. exists c. unfold verdict in E5.
      destruct (out_err (outcome opts c)); [discriminate|].
      injection E5 as E5. split; [rewrite E1; apply in_or_app; right; left; reflexivity|].
      split; [reflexivity | symmetry; exact E5].
    + intros (c0 & I & He & Hi).
      destruct (in_split _ _ I) as (l1 & l2 & S0). rewrite E1 in S0.
      destruct (last_is_first_failure (declined opts) l1 pre c0 c l2 S0 E3
                  (U c0 I He Hi)) as (_ & -> & _).
      unfold verdict in E5. rewrite He, Hi in E5. injection E5 as E5 _. exact E5.
  - split.
    + intros ->. discriminate.
    + intros (c0 & I & He & Hi). exfalso. apply (U c0 I He Hi).
      rewrite Forall_forall in E2. apply E2, I.
Qed.

Lemma session_finalized_once {Opts} (r : Resolver) (opts : Opts) cands bld0 input
    exhaustErr o (tr : list (Event Opts)) :
  session_facts r opts cands bld0 input exhaustErr o tr ->
  finalized_once r opts o tr.
Proof.
  intros (f & b' & A & _ & F & B & G & E & _).
  exists f, b'. split; [exact F|]. split; [exact B|].
  assert (P := ended_produced opts _ _ _ _ _ _ E).
  assert (Q : f = match res_img o with
                  | Some i => mkFinish false "" (Some i)
                  | None => f
                  end /\ (res_img o = None -> fin_failed f = true /\ fin_img f = None)).
  { destruct E as [(pre & c & post & E1 & E2 & E3 & E4 & E5 & E6)|(E1 & E2 & E3 & E4 & E6)].
    - unfold verdict in E5. destruct (out_err (outcome opts c)) as [e|] eqn:He.
      + injection E5 as Ei Ee. rewrite Ei, Ee in *. subst f. cbn. auto.
      + injection E5 as Ei Ee. rewrite Ee in *. subst f. cbn [finish_of].
        destruct E4 as [N|N]; [|contradiction].
        rewrite <- Ei in N. destruct (res_img o); [|contradiction].
        split; [reflexivity | discriminate].
    - rewrite E3. subst f. cbn. auto. }
  destruct Q as [Q1 Q2].
  destruct (res_img o) as [i|] eqn:Ri.
  - rewrite Q1. cbn. split; [reflexivity|].
    split; [split; [discriminate | reflexivity]|].
    split; [exact P|]. split; [rewrite <- Q1; exact G|]. split; reflexivity.
  - destruct (Q2 eq_refl) as [Q3 Q4]. split; [exact Q4|].
    split; [split; [rewrite Q3; discriminate | contradiction]|].
    split; [exact P|]. split; [exact G|].
    unfold finishInput. cbn. rewrite Q3, Q4. split; reflexivity.
Qed.

(** [C4] Every session that enters the strategy loop finalizes its
    telemetry record exactly once, as completed exactly when a strategy
    produced an image and as failed otherwise, and hands the finalize call
    the image's identifier, tag and size exactly when there is one. *)
Theorem telemetry_finalized_exactly_once (r : Resolver) (ctx : Context) (c0 : Clock) :
  (forall opts : RefOptions.t,
     finalized_once r opts
       (fst (resolveSession r ctx opts (start c0)))
       (trace (snd (resolveSession r ctx opts (start c0)))))
  /\ (forall opts : ImageOptions.t,
        if IsAvailable (mode (dockerFactory r))
        then finalized_once r (withTag r opts)
               (fst (buildSession r ctx opts (start c0)))
               (trace (snd (buildSession r ctx opts (start c0))))
        else calls (trace (snd (buildSession r ctx opts (start c0)))) = []
             /\ finishes (trace (snd (buildSession r ctx opts (start c0)))) = []).
Proof.
  split; intros opts.
  - exact (session_finalized_once _ _ _ _ _ _ _ _ (resolveSession_spec r ctx opts c0)).
  - destruct (IsAvailable (mode (dockerFactory r))) eqn:A.
    + exact (session_finalized_once _ _ _ _ _ _ _ _ (buildSession_spec r ctx opts c0 A)).
    + rewrite buildSession_unavailable by exact A. split; reflexivity.
Qed.







Section Blind.
Context {Opts : Type}.
Variable r : Resolver.
Variable opts : Opts.

Lemma call_clock_at (s : strategy Opts) (b : build) (w : World Opts) :
  call_clock (call_at s b w) = mkClock (readings (clock w)) (S (pos (clock w))).
Proof. reflexivity. Qed.

Lemma after_attempt_clock (s : strategy Opts) (b : build) (w : World Opts) :
  clock (snd (after_attempt opts s b w)) =
  mkClock (readings (out_clock (outcome opts (call_at s b w))))
          (S (pos (out_clock (outcome opts (call_at s b w))))).
Proof. reflexivity. Qed.

(** With strategies that do not look at the record, the way the loop is
    left and the time it takes do not depend on the record the loop
    starts from nor on the build-tracking service. *)
Lemma strategyLoop_blind (ss : list (strategy Opts)) :
  Forall record_blind ss ->
  forall (ctx1 ctx2 : Context) (b1 b2 : build) (w1 w2 : World Opts),
    clock w1 = clock w2 ->
    fst (fst (strategyLoop r ctx1 opts ss b1 w1))
      = fst (fst (strategyLoop r ctx2 opts ss b2 w2))
    /\ clock (snd (strategyLoop r ctx1 opts ss b1 w1))
       = clock (snd (strategyLoop r ctx2 opts ss b2 w2)).
Proof.
  induction ss as [|s rest IH]; intros B ctx1 ctx2 b1 b2 w1 w2 Hc.
  - cbn. split; [reflexivity | exact Hc].
  - inversion B as [|? ? Bs Br]; subst.
    rewrite !strategyLoop_cons. cbv zeta.
    assert (Cc : call_clock (call_at s b1 w1) = call_clock (call_at s b2 w2)).
    { rewrite !call_clock_at, Hc. reflexivity. }
    destruct (Bs opts (call_build (call_at s b1 w1)) (call_build (call_at s b2 w2))
                (call_clock (call_at s b1 w1))) as (Q1 & Q2 & Q3 & Q4).
    assert (Ei : out_img (outcome opts (call_at s b1 w1))
                 = out_img (outcome opts (call_at s b2 w2))).
    { unfold outcome. cbn [call_strategy]. rewrite <- Cc. exact Q1. }
    assert (Ee : out_err (outcome opts (call_at s b1 w1))
                 = out_err (outcome opts (call_at s b2 w2))).
    { unfold outcome. cbn [call_strategy]. rewrite <- Cc. exact Q3. }
    assert (Ek : out_clock (outcome opts (call_at s b1 w1))
                 = out_clock (outcome opts (call_at s b2 w2))).
    { unfold outcome. cbn [call_strategy]. rewrite <- Cc. exact Q4. }
    assert (Ea : clock (snd (after_attempt opts s b1 w1))
                 = clock (snd (after_attempt opts s b2 w2))).
    { rewrite !after_attempt_clock, Ek. reflexivity. }
    rewrite <- Ee, <- Ei.
    destruct (out_err (outcome opts (call_at s b1 w1))) as [e|];
      [|destruct (out_img (outcome opts (call_at s b1 w1))) as [i|]]; cbn [fst snd].
    + split; [reflexivity|].
      destruct (finishBuild_trace r ctx1 (fst (after_attempt opts s b1 w1)) true (Error e)
                  None (snd (after_attempt opts s b1 w1))) as (-> & _).
      destruct (finishBuild_trace r ctx2 (fst (after_attempt opts s b2 w2)) true (Error e)
                  None (snd (after_attempt opts s b2 w2))) as (-> & _).
      exact Ea.
    + split; [reflexivity|].
      destruct (finishBuild_trace r ctx1 (fst (after_attempt opts s b1 w1)) false ""
                  (Some i) (snd (after_attempt opts s b1 w1))) as (-> & _).
      destruct (finishBuild_trace r ctx2 (fst (after_attempt opts s b2 w2)) false ""
                  (Some i) (snd (after_attempt opts s b2 w2))) as (-> & _).
      exact Ea.
    + apply IH; assumption.
Qed.

Lemma conclude_result (ctx : Context) (exhaustErr : error) (ss : list (strategy Opts))
    (b : build) (w : World Opts) :
  let o := fst (bind (strategyLoop r ctx opts ss b) (conclude r ctx exhaustErr) w) in
  (res_img o, res_err o) =
  match fst (fst (strategyLoop r ctx opts ss b w)) with
  | Returned img err => (img, err)
  | Exhausted => (None, Some exhaustErr)
  end.
Proof.
  cbv zeta. unfold bind.
  destruct (strategyLoop r ctx opts ss b w) as [[exit b'] w']. cbn [fst snd conclude].
  destruct exit; [reflexivity|].
  unfold bind, ret.
  destruct (finishBuild r ctx b' true "no strategies resulted in an image" None w').
  reflexivity.
Qed.

End Blind.


Lemma session_degenerate {Opts} (r : Resolver) (ctx : Context) (opts : Opts) cands input
    exhaustErr o (tr : list (Event Opts)) (e : error) :
  cands <> [] ->
  ResolverCreateBuild (GenqClient ctx) input = inr e ->
  session_facts r opts cands (createdBuild ctx input) input exhaustErr o tr ->
  degenerate_session opts cands input o tr.
Proof.
  intros Ne Hf (f & b' & A & C & F & B & G & E & K).
  split; [exact C|]. split; [exact (ended_in_order opts _ _ _ _ _ _ E)|]. split.
  { destruct E as [(pre & c & post & E1 & _)|(E1 & _)].
    - rewrite E1. destruct pre; discriminate.
    - intros N. rewrite N in E1. cbn in E1. apply Ne. symmetry. exact E1. }
  split; [rewrite F; reflexivity|].
  intros H. destruct (K H) as (_ & K2 & K3).
  unfold createdBuild in K2, K3. rewrite Hf in K2, K3. cbn in K2, K3.
  split.
  - rewrite G, K3. reflexivity.
  - exists b'. repeat split; assumption.
Qed.

Lemma session_result_blind {Opts} (r : Resolver) (opts : Opts) (cands : list (strategy Opts))
    (names : list string) (io : BuildImageOptsInput.t) (exhaustErr : error)
    (ctx1 ctx2 : Context) (w0 : World Opts) :
  Forall record_blind cands ->
  let o1 := fst (bind (strategyLoop r ctx1 opts cands
                         (fst (fst (createBuildGql r ctx1 names io w0))))
                      (conclude r ctx1 exhaustErr) (snd (createBuildGql r ctx1 names io w0))) in
  let o2 := fst (bind (strategyLoop r ctx2 opts cands
                         (fst (fst (createBuildGql r ctx2 names io w0))))
                      (conclude r ctx2 exhaustErr) (snd (createBuildGql r ctx2 names io w0))) in
  (res_img o1, res_err o1) = (res_img o2, res_err o2).
Proof.
  intros B. cbv zeta.
  rewrite (conclude_result r opts ctx1), (conclude_result r opts ctx2).
  destruct (createBuildGql_spec r ctx1 names io w0) as (_ & C1 & _).
  destruct (createBuildGql_spec r ctx2 names io w0) as (_ & C2 & _).
  destruct (strategyLoop_blind r opts cands B ctx1 ctx2
              (fst (fst (createBuildGql r ctx1 names io w0)))
              (fst (fst (createBuildGql r ctx2 names io w0)))
              (snd (createBuildGql r ctx1 names io w0))
              (snd (createBuildGql r ctx2 names io w0))) as [-> _].
  - rewrite C1, C2. reflexivity.
  - reflexivity.
Qed.

(** [C6] When creating the remote record fails, the session goes on with
    a degenerate record (empty id, create-failed flag set): the strategy
    loop still runs, finalization issues no remote call, and the caller
    receives the image or error it would receive with any other answer of
    the build-tracking service. *)
Theorem create_failure_does_not_abort (r : Resolver) (ctx : Context) (c0 : Clock) :
  BuildId newFailedBuild = "" /\ CreateApiFailed newFailedBuild = true
  /\ (forall (opts : RefOptions.t) (e : error),
        ResolverCreateBuild (GenqClient ctx) (resolveCreateInput r opts) = inr e ->
        degenerate_session opts (resolveStrategies r) (resolveCreateInput r opts)
          (fst (resolveSession r ctx opts (start c0)))
          (trace (snd (resolveSession r ctx opts (start c0))))
        /\ (Forall record_blind (resolveStrategies r) ->
            forall ctx' : Context,
              fst (ResolveReference r ctx opts (start c0))
              = fst (ResolveReference r ctx' opts (start c0))))
  /\ (forall (opts : ImageOptions.t) (e : error),
        IsAvailable (mode (dockerFactory r)) = true ->
        ResolverCreateBuild (GenqClient ctx) (buildCreateInput r opts) = inr e ->
        degenerate_session (withTag r opts) (buildStrategies r) (buildCreateInput r opts)
          (fst (buildSession r ctx opts (start c0)))
          (trace (snd (buildSession r ctx opts (start c0))))
        /\ (Forall record_blind (buildStrategies r) ->
            forall ctx' : Context,
              fst (BuildImage r ctx opts (start c0))
              = fst (BuildImage r ctx' opts (start c0)))).
Proof.
  split; [reflexivity|]. split; [reflexivity|]. split.
  - intros opts e Hf. split.
    + apply (session_degenerate r ctx opts _ _ (couldNotFind r opts) _ _ e);
        [discriminate | exact Hf | apply resolveSession_spec].
    + intros B ctx'. rewrite !ResolveReference_eq. cbn [fst].
      rewrite !resolveSession_eq. apply session_result_blind. exact B.
  - intros opts e A Hf. split.
    + apply (session_degenerate r ctx (withTag r opts) _ _ noBuilderApplies _ _ e);
        [ | exact Hf | apply buildSession_spec; exact A].
      unfold buildStrategies. destruct (UseNixpacks _); discriminate.
    + intros B ctx'. rewrite !BuildImage_eq. cbn [fst].
      rewrite !buildSession_eq by exact A. apply session_result_blind. exact B.
Qed.

Lemma create_failure_does_not_abort_witness :
  let r := resolverOf implFound in
  ResolverCreateBuild (GenqClient ctxCreateFails) (resolveCreateInput r refOpts)
    = inr (errorString "connection refused")
  /\ Forall keeps_record (resolveStrategies r)
  /\ Forall record_blind (resolveStrategies r)
  /\ gqlFinishes (trace (snd (resolveSession r ctxCreateFails refOpts (start clock0)))) = []
  /\ fst (ResolveReference r ctxCreateFails refOpts (start clock0))
     = fst (ResolveReference r ctxOk refOpts (start clock0)).
Proof.
  cbv zeta.
  assert (F : ResolverCreateBuild (GenqClient ctxCreateFails)
                (resolveCreateInput (resolverOf implFound) refOpts)
              = inr (errorString "connection refused")) by reflexivity.
  assert (K : Forall keeps_record (resolveStrategies (resolverOf implFound)))
    by (repeat constructor; apply fixed_keeps_record).
  assert (B : Forall record_blind (resolveStrategies (resolverOf implFound)))
    by (repeat constructor; apply fixed_record_blind).
  destruct (create_failure_does_not_abort (resolverOf implFound) ctxCreateFails clock0)
    as (_ & _ & H & _).
  destruct (H refOpts _ F) as ((_ & _ & _ & _ & D) & R).
  destruct (D K) as (G & _).
  split; [exact F|]. split; [exact K|]. split; [exact B|]. split; [exact G|].
  apply (R B ctxOk).
Defined.

End SessionTheorems.

(* ===================================================================== *)
(** * The stop signal: one close, whatever the interleaving *)
(* ===================================================================== *)

Module SignalFacts.
Import Signal.

Lemma holders_app (a b : list pc) : holders (a ++ b) = holders a + holders b.
Proof. induction a as [|p a IH]; cbn; [reflexivity | rewrite IH; lia]. Qed.

Lemma weight_app (a b : list pc) : weight (a ++ b) = weight a + weight b.
Proof. induction a as [|p a IH]; cbn; [reflexivity | rewrite IH; lia]. Qed.

Lemma holders_zero (ts : list pc) (p : pc) :
  holders ts = 0 -> In p ts -> holds p = false.
Proof.
  induction ts as [|q ts IH]; cbn; intros H I; [contradiction|].
  destruct I as [->|I].
  - destruct (holds p); [discriminate | reflexivity].
  - apply IH; [lia | exact I].
Qed.

(** Around a goroutine that holds the mutex nobody else does. *)
Lemma holder_alone (before after : list pc) (p : pc) (k : nat) :
  holders (before ++ p :: after) = k -> k <= 1 -> holds p = true ->
  holders before = 0 /\ holders after = 0.
Proof.
  intros H K E. rewrite holders_app in H. cbn [holders] in H. rewrite E in H. lia.
Qed.

Lemma pc_ok_others (sh sh' : Shared) (ts : list pc) :
  holders ts = 0 ->
  (done (once (sig sh)) = true -> done (once (sig sh')) = true) ->
  Forall (pc_ok sh) ts -> Forall (pc_ok sh') ts.
Proof.
  intros H D F. rewrite Forall_forall in *. intros p I.
  pose proof (holders_zero ts p H I) as N. specialize (F p I).
  destruct p; cbn in *; try discriminate; auto.
Qed.

Lemma Forall_around {A} (P : A -> Prop) (before after : list A) (p : A) :
  Forall P (before ++ p :: after) <-> Forall P before /\ P p /\ Forall P after.
Proof.
  rewrite Forall_app. split.
  - intros [B C]. inversion C; subst. auto.
  - intros (B & C & D). split; [exact B | constructor; assumption].
Qed.

Lemma no_store_elsewhere (before after : list pc) (p : pc) :
  holders before = 0 -> holders after = 0 -> p <> AtStore ->
  ~ In AtStore (before ++ p :: after).
Proof.
  intros B A N I. apply in_app_or in I. destruct I as [I|[I|I]].
  - pose proof (holders_zero _ _ B I) as H. discriminate.
  - apply N. exact I.
  - pose proof (holders_zero _ _ A I) as H. discriminate.
Qed.

Lemma in_swap (before after : list pc) (p p' q : pc) :
  In q (before ++ p :: after) -> q <> p -> In q (before ++ p' :: after).
Proof.
  intros I N. apply in_app_or in I. apply in_or_app.
  destruct I as [H|[H|H]]; [left; exact H | congruence | right; right; exact H].
Qed.

Lemma holders_swap (before after : list pc) (p p' : pc) :
  holds p' = holds p ->
  holders (before ++ p' :: after) = holders (before ++ p :: after).
Proof. intros E. rewrite !holders_app. cbn. rewrite E. reflexivity. Qed.

Lemma step_invariant (c c' : Config) : invariant c -> step c c' -> invariant c'.
Proof.
  intros I S. destruct S as [before after p p' sh sh' T].
  destruct I as (I1 & I2 & I3 & I4 & I5 & I6).
  apply Forall_around in I4. destruct I4 as (Fb & Fp & Fa).
  assert (K : holders (before ++ p :: after) <= 1).
  { rewrite I3. destruct (m (once (sig sh))); lia. }
  unfold invariant.
  destruct p; cbn [thread_step] in T.
  - (* AtEntry: the fast-path load *)
    injection T as <- <-.
    split; [exact I1|]. split; [exact I2|]. split.
    { rewrite <- I3. apply holders_swap. destruct (done (once (sig sh))); reflexivity. }
    split.
    { apply Forall_around. split; [exact Fb|]. split; [|exact Fa].
      destruct (done (once (sig sh))) eqn:D; cbn; auto. }
    split; [exact I5|].
    intros C D. apply (in_swap before after AtEntry); [auto | discriminate].
  - (* AtLock: the mutex is taken when it is free *)
    destruct (m (once (sig sh))) eqn:M; [discriminate|]. injection T as <- <-.
    cbn [set_m sig once m done Chan panicked closes].
    split; [exact I1|]. split; [exact I2|]. split.
    { rewrite holders_app in *. cbn in *. lia. }
    split.
    { apply Forall_around. split; [exact Fb|]. split; [exact I|exact Fa]. }
    split; [exact I5|].
    intros C D. apply (in_swap before after AtLock); [auto | discriminate].
  - (* AtRecheck: the load under the mutex *)
    injection T as <- <-.
    destruct (holder_alone before after AtRecheck _ eq_refl K eq_refl) as [Hb Ha].
    assert (NS : ~ In AtStore (before ++ AtRecheck :: after)).
    { apply no_store_elsewhere; [exact Hb | exact Ha | discriminate]. }
    split; [exact I1|]. split; [exact I2|]. split.
    { rewrite <- I3. apply holders_swap. destruct (done (once (sig sh))); reflexivity. }
    split.
    { apply Forall_around. split; [exact Fb|]. split; [|exact Fa].
      destruct (done (once (sig sh))) eqn:D; cbn; [exact D|].
      split; [exact D|].
      destruct (Chan (sig sh)) eqn:C; [reflexivity|].
      exfalso. apply NS. apply I6; reflexivity. }
    split; [exact I5|].
    intros C D. exfalso. apply NS. apply I6; assumption.
  - (* AtClose: close(s.Chan) *)
    destruct Fp as [D C]. rewrite C in T. cbn [close] in T. injection T as <- <-.
    destruct (holder_alone before after AtClose _ eq_refl K eq_refl) as [Hb Ha].
    rewrite C in I2.
    cbn [sig once m done Chan panicked closes].
    split; [exact I1|]. split; [rewrite I2; reflexivity|]. split.
    { rewrite <- I3. apply holders_swap. reflexivity. }
    split.
    { apply Forall_around.
      split; [apply (pc_ok_others sh); auto|].
      split; [split; [exact D | reflexivity]|].
      apply (pc_ok_others sh); auto. }
    split; [reflexivity|].
    intros _ _. apply in_or_app. right. left. reflexivity.
  - (* AtStore: the deferred o.done.Store(1) *)
    destruct Fp as [D C]. injection T as <- <-.
    destruct (holder_alone before after AtStore _ eq_refl K eq_refl) as [Hb Ha].
    cbn [set_done sig once m done Chan panicked closes].
    split; [exact I1|]. split; [exact I2|]. split.
    { rewrite <- I3. apply holders_swap. reflexivity. }
    split.
    { apply Forall_around.
      split; [apply (pc_ok_others sh); auto|].
      split; [reflexivity|].
      apply (pc_ok_others sh); auto. }
    split; [intros _; exact C|].
    intros _ H. discriminate.
  - (* AtUnlock: the deferred o.m.Unlock() *)
    cbn [pc_ok] in Fp. injection T as <- <-.
    destruct (holder_alone before after AtUnlock _ eq_refl K eq_refl) as [Hb Ha].
    cbn [set_m sig once m done Chan panicked closes].
    split; [exact I1|]. split; [exact I2|]. split.
    { rewrite holders_app. cbn. lia. }
    split.
    { apply Forall_around.
      split; [apply (pc_ok_others sh); auto|].
      split; [exact Fp|].
      apply (pc_ok_others sh); auto. }
    split; [exact I5|].
    intros _ H. rewrite Fp in H. discriminate.
  - discriminate.
  - discriminate.
Qed.

Lemma holders_repeat_entry (n : nat) : holders (repeat AtEntry n) = 0.
Proof. induction n as [|n IH]; cbn; [reflexivity | exact IH]. Qed.

Lemma initial_invariant (n : nat) : invariant (initial n).
Proof.
  unfold initial, invariant. cbn.
  split; [reflexivity|]. split; [reflexivity|]. split; [apply holders_repeat_entry|].
  split; [|split; intros; discriminate].
  rewrite Forall_forall. intros p I. apply repeat_spec in I. subst. exact Logic.I.
Qed.

Lemma steps_invariant (c c' : Config) : invariant c -> steps c c' -> invariant c'.
Proof.
  intros I S. induction S as [c|c1 c2 c3 S12 IH S23]; [exact I|].
  apply (step_invariant c2); [apply IH; exact I | exact S23].
Qed.

Lemma step_length (c c' : Config) : step c c' -> length (fst c') = length (fst c).
Proof. intros [before after p p' sh sh' _]. cbn. rewrite !length_app. reflexivity. Qed.

Lemma steps_length (c c' : Config) : steps c c' -> length (fst c') = length (fst c).
Proof.
  intros S. induction S as [c|c1 c2 c3 S12 IH S23]; [reflexivity|].
  rewrite (step_length _ _ S23). exact IH.
Qed.

(** Every step brings the goroutine that takes it closer to its return,
    so a race of [n] calls is over after at most [6 * n] steps. *)
Lemma step_weight (c c' : Config) : step c c' -> weight (fst c') < weight (fst c).
Proof.
  intros [before after p p' sh sh' T]. cbn [fst]. rewrite !weight_app. cbn [weight].
  assert (remaining p' < remaining p).
  { destruct p; cbn in T; try discriminate.
    - injection T as <- _. destruct (done _); cbn; lia.
    - destruct (m _); [discriminate|]. injection T as <- _. cbn; lia.
    - injection T as <- _. destruct (done _); cbn; lia.
    - destruct (close _); injection T as <- _; cbn; lia.
    - injection T as <- _. cbn; lia.
    - injection T as <- _. cbn; lia. }
  lia.
Qed.

Lemma weight_initial (n : nat) : weight (fst (initial n)) = 6 * n.
Proof. cbn. induction n as [|n IH]; cbn [repeat weight remaining]; lia. Qed.

(** While some goroutine has not returned, some goroutine can move. *)
Lemma progress (ts : list pc) (sh : Shared) :
  invariant (ts, sh) ->
  (exists p, In p ts /\ p <> Finished) ->
  exists c', step (ts, sh) c'.
Proof.
  intros (I1 & I2 & I3 & I4 & I5 & I6) (p & Ip & Np).
  assert (Hstep : forall q, In q ts ->
            (exists q' sh', thread_step q sh = Some (q', sh')) ->
            exists c', step (ts, sh) c').
  { intros q Iq (q' & sh' & T). destruct (in_split _ _ Iq) as (b & a & ->).
    exists (b ++ q' :: a, sh'). constructor. exact T. }
  destruct (m (once (sig sh))) eqn:M.
  - (* the mutex is held: its holder can move *)
    assert (Hh : exists q, In q ts /\ holds q = true).
    { clear - I3. induction ts as [|q ts IH]; cbn in I3; [discriminate|].
      destruct (holds q) eqn:H.
      - exists q. split; [left; reflexivity | exact H].
      - destruct (IH I3) as (q0 & I & H0). exists q0. split; [right; exact I | exact H0]. }
    destruct Hh as (q & Iq & Hq). apply (Hstep q Iq).
    rewrite Forall_forall in I4. specialize (I4 q Iq).
    destruct q; cbn in Hq; try discriminate; cbn.
    + eexists. eexists. reflexivity.
    + destruct I4 as [_ C]. rewrite C. cbn. eexists. eexists. reflexivity.
    + eexists. eexists. reflexivity.
    + eexists. eexists. reflexivity.
  - (* the mutex is free: whoever has not returned can move *)
    apply (Hstep p Ip).
    rewrite Forall_forall in I4. specialize (I4 p Ip).
    pose proof (holders_zero ts p I3 Ip) as Hp.
    destruct p; cbn in Hp; try discriminate; cbn.
    + eexists. eexists. reflexivity.
    + rewrite M. eexists. eexists. reflexivity.
    + contradiction.
    + contradiction.
Qed.

Lemma steps_step (c1 c2 c3 : Config) : step c1 c2 -> steps c2 c3 -> steps c1 c3.
Proof.
  intros S12 S23. induction S23 as [c|c2 c3 c4 S23 IH S34].
  - eapply steps_then; [apply steps_refl | exact S12].
  - eapply steps_then; [apply IH; exact S12 | exact S34].
Qed.

Lemma set_nth_split (i : nat) (p p' : pc) (l : list pc) :
  nth_error l i = Some p ->
  exists before after, l = before ++ p :: after /\ set_nth i p' l = before ++ p' :: after.
Proof.
  revert l. induction i as [|i IH]; intros [|q l] H; cbn in H; try discriminate.
  - injection H as ->. exists [], l. split; reflexivity.
  - destruct (IH l H) as (b & a & -> & E). exists (q :: b), a. cbn. rewrite E.
    split; reflexivity.
Qed.

(** What [run] computes is an execution. *)
Lemma run_steps (schedule : list nat) (c : Config) : steps c (run schedule c).
Proof.
  revert c. induction schedule as [|i rest IH]; intros [ts sh]; cbn [run fst snd].
  - apply steps_refl.
  - destruct (nth_error ts i) as [p|] eqn:N; [|apply IH].
    destruct (thread_step p sh) as [[p' sh']|] eqn:T; [|apply IH].
    destruct (set_nth_split i p p' ts N) as (b & a & -> & ->).
    eapply steps_step; [|apply IH]. constructor. exact T.
Qed.

(** One call after the other: the first closes the channel, the others
    find [done] set. *)
Lemma StopTimes_closed (k : nat) (lock : bool) :
  StopTimes k (Some (mkStopSignal ChanClosed (mkOnce true lock)))
  = Some (Some (mkStopSignal ChanClosed (mkOnce true lock))).
Proof. induction k as [|k IH]; cbn; [reflexivity | exact IH]. Qed.

(** [C9] However many goroutines call [Stop] on one signal and however
    their steps interleave, no [close] panics, the channel is closed at
    most once at any moment and exactly once when all calls have
    returned, and as long as a call has not returned some call can go on;
    called [k+1] times in a row, [Stop] closes the channel once and
    never panics. *)
Theorem stop_closes_exactly_once (n : nat) (ts : list pc) (sh : Shared) :
  steps (initial n) (ts, sh) ->
  panicked sh = false
  /\ ~ In Crashed ts
  /\ closes sh <= 1
  /\ (n >= 1 -> Forall (eq Finished) ts ->
      closes sh = 1 /\ Chan (sig sh) = ChanClosed)
  /\ ((exists p, In p ts /\ p <> Finished) -> exists c', step (ts, sh) c')
  /\ (forall k, StopTimes (S k) (Some newStopSignal)
                = Some (Some (mkStopSignal ChanClosed (mkOnce true false)))).
Proof.
  intros S.
  pose proof (steps_invariant _ _ (initial_invariant n) S) as I.
  pose proof (steps_length _ _ S) as L. cbn in L. rewrite repeat_length in L.
  pose proof I as (I1 & I2 & I3 & I4 & I5 & I6).
  split; [exact I1|]. split.
  { intros C. rewrite Forall_forall in I4. exact (I4 _ C). }
  split; [rewrite I2; destruct (Chan (sig sh)); lia|]. split.
  { intros N F. destruct ts as [|p ts]; [cbn in L; lia|].
    inversion F as [|? ? <- _]; subst.
    inversion I4 as [|? ? Dn _]; subst. cbn in Dn.
    specialize (I5 Dn). rewrite I2, I5. split; reflexivity. }
  split; [apply progress; exact I|].
  intros k. cbn [StopTimes Stop newStopSignal once done Chan close m].
  apply StopTimes_closed.
Qed.

Lemma stop_closes_exactly_once_witness :
  let c := run [0; 1; 2; 1; 1; 0; 2; 1; 1; 1; 0; 0; 0; 0; 2; 2; 2; 2] (initial 3) in
  steps (initial 3) c
  /\ fst c = [Finished; Finished; Finished]
  /\ closes (snd c) = 1 /\ panicked (snd c) = false.
Proof.
  cbv zeta.
  set (c := run [0; 1; 2; 1; 1; 0; 2; 1; 1; 1; 0; 0; 0; 0; 2; 2; 2; 2] (initial 3)).
  assert (S : steps (initial 3) (fst c, snd c)).
  { rewrite <- surjective_pairing. apply run_steps. }
  destruct (stop_closes_exactly_once 3 (fst c) (snd c) S) as (P & _ & _ & F & _).
  assert (E : fst c = [Finished; Finished; Finished]) by (vm_compute; reflexivity).
  split; [rewrite (surjective_pairing c); exact S|]. split; [exact E|].
  split; [|exact P].
  apply F; [lia | rewrite E; repeat constructor].
Defined.

(** A goroutine running [Stop] with nobody in between does what the
    function [Stop] says. *)
Lemma Stop_as_lone_goroutine (sh : Shared) :
  m (once (sig sh)) = false ->
  let c := run [0; 0; 0; 0; 0; 0] ([AtEntry], sh) in
  match Stop (Some (sig sh)) with
  | Some (Some s') => fst c = [Finished] /\ sig (snd c) = s'
  | _ => fst c = [Crashed] /\ panicked (snd c) = true
  end.
Proof.
  destruct sh as [[ch [d lock]] cl pk]. cbn [sig once m]. intros ->.
  destruct d, ch; cbn; split; reflexivity.
Qed.

End SignalFacts.

(* ===================================================================== *)
(** * Heartbeat start-up and the handle it returns *)
(* ===================================================================== *)

Module HeartbeatFacts.
Import Errors Http Signal Orchestrator Heartbeat Scenarios.

(** A response with status 404 makes [heartbeat] return a [*httpError]
    with that status, whatever reading the body gives. *)
Lemma heartbeat_not_found (client : dockerClient) (k : nat) (req : Request) (resp : Response) :
  HTTPDo client k req = inl resp -> StatusCode resp = 404%Z ->
  exists body, heartbeat client k req = Some (httpError 404 body).
Proof.
  intros D C. unfold heartbeat. rewrite D, C. cbn.
  destruct (ReadAll resp) as [b|e]; eexists; reflexivity.
Qed.

(** [C8] After a successful set-up, a first probe answered with HTTP 404
    makes [StartHeartbeat] return a nil handle and a nil error without
    starting the loop; any other error of the probe is returned as it is,
    with a nil handle and without starting the loop. *)
Theorem heartbeat_probe_outcomes (std : Std) (r : Resolver) (client : dockerClient)
    (url : string) :
  remote (dockerFactory r) = true ->
  buildFn (dockerFactory r) = inl client ->
  getHeartbeatUrl std client = inl url ->
  NewRequest_error std url = None ->
  (forall resp : Response,
     HTTPDo client 0 (heartbeatRequest std r url) = inl resp ->
     StatusCode resp = 404%Z ->
     hb_handle (StartHeartbeat std r) = None
     /\ hb_err (StartHeartbeat std r) = None
     /\ loop_started (StartHeartbeat std r) = false)
  /\ (forall e : error,
        heartbeat client 0 (heartbeatRequest std r url) = Some e ->
        (forall body, As_httpError e <> Some (404%Z, body)) ->
        hb_handle (StartHeartbeat std r) = None
        /\ hb_err (StartHeartbeat std r) = Some e
        /\ loop_started (StartHeartbeat std r) = false).
Proof.
  intros R B U N. split.
  - intros resp D C.
    destruct (heartbeat_not_found client 0 _ resp D C) as (body & H).
    unfold StartHeartbeat. rewrite R, B, U, N. cbn [negb]. rewrite H.
    cbn. repeat split; reflexivity.
  - intros e H Ne.
    unfold StartHeartbeat. rewrite R, B, U, N. cbn [negb]. rewrite H.
    destruct (As_httpError e) as [[code body]|] eqn:A.
    + destruct (Z.eqb_spec code StatusNotFound) as [->|Hc].
      * exfalso. apply (Ne body). reflexivity.
      * cbn. repeat split; reflexivity.
    + cbn. repeat split; reflexivity.
Qed.

Lemma heartbeat_probe_outcomes_witness :
  let url := "http://builder.internal:8080/flyio/v1/extendDeadline" in
  getHeartbeatUrl std0 (clientAnswering 404 "404 Not Found" "no such endpoint") = inl url
  /\ hb_handle (StartHeartbeat std0
                  (remoteResolver (clientAnswering 404 "404 Not Found" "no such endpoint")))
     = None
  /\ hb_err (StartHeartbeat std0
               (remoteResolver (clientAnswering 404 "404 Not Found" "no such endpoint")))
     = None
  /\ hb_err (StartHeartbeat std0
               (remoteResolver (clientAnswering 500 "500 Internal Server Error" "boom")))
     = Some (httpError 500 "boom").
Proof.
  cbv zeta. split; [reflexivity|].
  destruct (heartbeat_probe_outcomes std0
              (remoteResolver (clientAnswering 404 "404 Not Found" "no such endpoint"))
              (clientAnswering 404 "404 Not Found" "no such endpoint")
              "http://builder.internal:8080/flyio/v1/extendDeadline"
              eq_refl eq_refl eq_refl eq_refl) as [H _].
  destruct (H (mkResponse 404 "404 Not Found" (inl "no such endpoint")) eq_refl eq_refl)
    as (H1 & H2 & _).
  destruct (heartbeat_probe_outcomes std0
              (remoteResolver (clientAnswering 500 "500 Internal Server Error" "boom"))
              (clientAnswering 500 "500 Internal Server Error" "boom")
              "http://builder.internal:8080/flyio/v1/extendDeadline"
              eq_refl eq_refl eq_refl eq_refl) as [_ G].
  destruct (G (httpError 500 "boom") eq_refl) as (_ & G2 & _).
  { intros body E. discriminate. }
  split; [exact H1|]. split; [exact H2 | exact G2].
Defined.

(** [C10] [Stop] on a nil handle returns without panicking and without
    touching anything; [StartHeartbeat] returns a nil handle on every path
    that does not start the loop (a local builder among them) and a fresh
    signal when it does; so [Stop] on whatever [StartHeartbeat] returned
    never panics. *)
Theorem stop_is_safe_on_returned_handle (std : Std) (r : Resolver) :
  Stop None = Some None
  /\ (if loop_started (StartHeartbeat std r)
      then hb_handle (StartHeartbeat std r) = Some newStopSignal
           /\ hb_err (StartHeartbeat std r) = None
      else hb_handle (StartHeartbeat std r) = None)
  /\ (if remote (dockerFactory r)
      then True
      else StartHeartbeat std r = mkHbResult None None [])
  /\ Stop (hb_handle (StartHeartbeat std r)) <> None.
Proof.
  split; [reflexivity|].
  unfold StartHeartbeat.
  destruct (remote (dockerFactory r)); cbn [negb];
    [|repeat split; cbn; discriminate].
  destruct (buildFn (dockerFactory r)) as [client|e];
    [|repeat split; cbn; discriminate].
  destruct (getHeartbeatUrl std client) as [url|e];
    [|repeat split; cbn; discriminate].
  destruct (NewRequest_error std url) as [e|];
    [repeat split; cbn; discriminate|].
  destruct (heartbeat client 0 (heartbeatRequest std r url)) as [e|].
  - destruct (As_httpError e) as [[code body]|];
      [destruct (code =? StatusNotFound)%Z|]; repeat split; cbn; discriminate.
  - destruct (HTTPDo client 1 (heartbeatRequest std r url)) as [resp|e];
      [destruct (StatusCode resp =? StatusAccepted)%Z|];
      repeat split; cbn; discriminate.
Qed.

(** The three ways a returned handle is used in a session: started loop,
    unsupported endpoint, local builder. *)
Example stop_after_start :
  Stop (hb_handle (StartHeartbeat std0 (remoteResolver clientWithHeartbeat)))
  = Some (Some (mkStopSignal ChanClosed (mkOnce true false))).
Proof. reflexivity. Qed.

Example stop_after_unsupported :
  Stop (hb_handle (StartHeartbeat std0
                     (remoteResolver (clientAnswering 404 "404 Not Found" ""))))
  = Some None.
Proof. reflexivity. Qed.

Example stop_after_local :
  Stop (hb_handle (StartHeartbeat std0 (resolverOf implFound))) = Some None.
Proof. reflexivity. Qed.

End HeartbeatFacts.

(* ===================================================================== *)
(** * Truncation and appending *)
(* ===================================================================== *)

Module LogsAppend.
Import Logs LogsFacts.

Lemma limitLogs_slice (s : string) :
  limitLogs s = slice_from (String.length s - logLimit) s.
Proof.
  unfold limitLogs. destruct (Nat.ltb_spec logLimit (String.length s)) as [H|H].
  - reflexivity.
  - replace (String.length s - logLimit) with 0 by lia. reflexivity.
Qed.

Lemma slice_from_all (n : nat) (s : string) :
  String.length s <= n -> slice_from n s = EmptyString.
Proof.
  revert s; induction n as [|k IH]; intros s H.
  - destruct s; [reflexivity | cbn in H; lia].
  - destruct s as [|c t]; [reflexivity|]. cbn in *. apply IH. lia.
Qed.

Lemma slice_from_append (k : nat) (a b : string) :
  slice_from k (a ++ b)%string =
  if (k <=? String.length a)%nat then (slice_from k a ++ b)%string
  else slice_from (k - String.length a) b.
Proof.
  revert a; induction k as [|k IH]; intros a.
  - reflexivity.
  - destruct a as [|c a].
    + cbn [String.append String.length]. cbn [Nat.leb]. rewrite Nat.sub_0_r. reflexivity.
    + cbn [String.append String.length slice_from]. rewrite IH.
      cbn [Nat.leb Nat.sub]. reflexivity.
Qed.

Lemma slice_from_slice_from (i j : nat) (s : string) :
  slice_from j (slice_from i s) = slice_from (i + j) s.
Proof.
  revert s; induction i as [|i IH]; intros s.
  - reflexivity.
  - destruct s as [|c t].
    + cbn [slice_from Nat.add]. destruct j; reflexivity.
    + cbn [slice_from Nat.add]. apply IH.
Qed.

(** [X1] Keeping only the tail of what was logged so far loses nothing of the
    tail of the whole: truncating [a ++ b] is truncating
    [limitLogs a ++ b]. *)
Theorem limitLogs_append (a b : string) :
  limitLogs (a ++ b) = limitLogs (limitLogs a ++ b)
  /\ (logLimit <= String.length b -> limitLogs (a ++ b) = limitLogs b).
Proof.
  split.
  - rewrite (limitLogs_slice (a ++ b)), (limitLogs_slice (limitLogs a ++ b)).
    rewrite !length_append.
    destruct (Nat.le_gt_cases (String.length a) logLimit) as [H|H].
    + rewrite (limitLogs_short a) by exact H. reflexivity.
    + rewrite (limitLogs_long a) by exact H.
      rewrite length_slice_from.
      rewrite !slice_from_append, length_slice_from.
      replace (String.length a - (String.length a - logLimit)) with logLimit by lia.
      destruct (Nat.leb_spec (String.length a + String.length b - logLimit) (String.length a));
        destruct (Nat.leb_spec (logLimit + String.length b - logLimit) logLimit);
        try lia.
      * rewrite slice_from_slice_from. f_equal. f_equal. lia.
      * f_equal. lia.
  - intros H. rewrite (limitLogs_slice (a ++ b)), (limitLogs_slice b).
    rewrite length_append, slice_from_append.
    destruct (Nat.leb_spec (String.length a + String.length b - logLimit) (String.length a)).
    + assert (String.length b = logLimit) by lia.
      replace (String.length a + String.length b - logLimit) with (String.length a) by lia.
      rewrite slice_from_all by lia.
      replace (String.length b - logLimit) with 0 by lia. reflexivity.
    + f_equal. lia.
Qed.

Lemma limitLogs_append_witness :
  limitLogs ("build log: " ++ replicate 4096 "x"%char)
  = limitLogs (replicate 4096 "x"%char).
Proof.
  apply (limitLogs_append "build log: " (replicate 4096 "x"%char)).
  rewrite length_replicate. unfold logLimit. lia.
Defined.

End LogsAppend.

(* ===================================================================== *)
(** * Facts about the timers *)
(* ===================================================================== *)

Module TimerFacts.
Import Errors Orchestrator Timers.

Lemma timer_eqb_eq (t u : timer) : timer_eqb t u = true <-> t = u.
Proof. destruct t, u; cbn; split; intros H; try reflexivity; discriminate. Qed.

Lemma timer_eqb_refl (t : timer) : timer_eqb t t = true.
Proof. destruct t; reflexivity. Qed.

(** What one method call leaves in the record and in the clock. *)
Lemma apply_frame (o : op) (b : build) (c : Clock) :
  let b' := fst (apply o b c) in
  let c' := snd (apply o b c) in
  StrategyResults b' = StrategyResults b /\
  BuildId b' = BuildId b /\
  CreateApiFailed b' = CreateApiFailed b /\
  readings c' = readings c /\
  pos c' = pos c + reads o /\
  (forall t, touches t o = false ->
     field t (Timings b') = field t (Timings b) /\
     field t (StartTimes b') = field t (StartTimes b)).
Proof.
  destruct b as [f i m rs [t1 t2 t3 t4 t5 t6] [s1 s2 s3 s4 s5 s6]].
  destruct o as [t|t|rem app mid|kit ver plat].
  - destruct t; cbn; (repeat split; try lia); destruct t; cbn in *; congruence.
  - destruct t; cbn; (repeat split; try lia); destruct t; cbn in *; congruence.
  - cbn. repeat split; lia.
  - cbn. repeat split; lia.
Qed.

Lemma applyAll_cons (o : op) (ops : list op) (b : build) (c : Clock) :
  applyAll (o :: ops) b c = applyAll ops (fst (apply o b c)) (snd (apply o b c)).
Proof. cbn [applyAll]. destruct (apply o b c); reflexivity. Qed.

Lemma applyAll_frame (ops : list op) (b : build) (c : Clock) :
  let b' := fst (applyAll ops b c) in
  let c' := snd (applyAll ops b c) in
  StrategyResults b' = StrategyResults b /\
  BuildId b' = BuildId b /\
  CreateApiFailed b' = CreateApiFailed b /\
  readings c' = readings c /\
  pos c' = pos c + readsAll ops /\
  (forall t, Forall (fun o => touches t o = false) ops ->
     field t (Timings b') = field t (Timings b) /\
     field t (StartTimes b') = field t (StartTimes b)).
Proof.
  revert b c; induction ops as [|o ops IH]; intros b c; cbv zeta.
  - cbn. repeat split; lia.
  - rewrite applyAll_cons.
    destruct (apply_frame o b c) as (A1 & A2 & A3 & A4 & A5 & A6).
    destruct (IH (fst (apply o b c)) (snd (apply o b c))) as (B1 & B2 & B3 & B4 & B5 & B6).
    rewrite B1, B2, B3, B4, B5, A1, A2, A3, A4, A5.
    change (readsAll (o :: ops)) with (reads o + readsAll ops).
    do 5 (split; [try reflexivity; lia|]).
    intros t H. inversion H as [|? ? T1 T2]; subst.
    destruct (B6 t T2) as [-> ->]. apply (A6 t T1).
Qed.

Lemma startTimer_field (t : timer) (b : build) (c : Clock) :
  field t (StartTimes (fst (startTimer t b c))) = readings c (pos c)
  /\ Timings (fst (startTimer t b c)) = Timings b
  /\ snd (startTimer t b c) = mkClock (readings c) (S (pos c)).
Proof.
  destruct b as [f i m rs tm [s1 s2 s3 s4 s5 s6]].
  destruct t; cbn; repeat split; reflexivity.
Qed.

Lemma finishTimer_field (t : timer) (b : build) (c : Clock) :
  field t (Timings (fst (finishTimer t b c)))
  = wrap64 (readings c (pos c) - field t (StartTimes b))
  /\ (forall u, u <> t ->
        field u (Timings (fst (finishTimer t b c))) = field u (Timings b)).
Proof.
  destruct b as [f i m rs [t1 t2 t3 t4 t5 t6] st].
  destruct t; cbn -[wrap64]; (split; [reflexivity|]);
    intros u Hu; destruct u; cbn -[wrap64]; congruence.
Qed.

Lemma wrap64_small (z : Z) :
  (- 2 ^ 63 <= z < 2 ^ 63)%Z -> wrap64 z = z.
Proof.
  intros H. unfold wrap64. rewrite Z.mod_small; lia.
Qed.

(** [X2] A timer started, then any calls of the other timers and of the
    builder-description methods, then finished: it holds the difference
    of the two clock readings, cut to 64 bits; the difference itself when
    that fits. *)
Theorem timer_measures_across_other_calls (t : timer) (ops : list op) (b : build) (c : Clock) :
  Forall (fun o => touches t o = false) ops ->
  let started := startTimer t b c in
  let between := applyAll ops (fst started) (snd started) in
  let finished := finishTimer t (fst between) (snd between) in
  let t0 := readings c (pos c) in
  let t1 := readings c (pos c + 1 + readsAll ops) in
  field t (Timings (fst finished)) = wrap64 (t1 - t0)
  /\ ((- 2 ^ 63 <= t1 - t0 < 2 ^ 63)%Z -> field t (Timings (fst finished)) = (t1 - t0)%Z).
Proof.
  intros F. cbv zeta.
  destruct (startTimer_field t b c) as (S1 & S2 & S3).
  destruct (applyAll_frame ops (fst (startTimer t b c)) (snd (startTimer t b c)))
    as (_ & _ & _ & A4 & A5 & A6).
  destruct (A6 t F) as [_ A7].
  destruct (finishTimer_field t (fst (applyAll ops (fst (startTimer t b c)) (snd (startTimer t b c))))
              (snd (applyAll ops (fst (startTimer t b c)) (snd (startTimer t b c))))) as [E _].
  assert (G : field t (Timings (fst (finishTimer t
                (fst (applyAll ops (fst (startTimer t b c)) (snd (startTimer t b c))))
                (snd (applyAll ops (fst (startTimer t b c)) (snd (startTimer t b c)))))))
              = wrap64 (readings c (pos c + 1 + readsAll ops) - readings c (pos c))).
  { rewrite E, A4, A5, A7, S1, S3. cbn [readings pos].
    replace (S (pos c) + readsAll ops) with (pos c + 1 + readsAll ops) by lia.
    reflexivity. }
  split; [exact G|].
  intros H. rewrite G. apply wrap64_small. exact H.
Qed.

Lemma timer_measures_across_other_calls_witness :
  field Build
    (Timings (fst (finishTimer Build
       (fst (applyAll [OpStart ContextBuild; OpFinish ContextBuild;
                       OpMeta2 true "24.0.7" "linux/amd64"]
               (fst (startTimer Build newFailedBuild (mkClock (fun k => 100 * Z.of_nat k)%Z 5)))
               (snd (startTimer Build newFailedBuild (mkClock (fun k => 100 * Z.of_nat k)%Z 5)))))
       (snd (applyAll [OpStart ContextBuild; OpFinish ContextBuild;
                       OpMeta2 true "24.0.7" "linux/amd64"]
               (fst (startTimer Build newFailedBuild (mkClock (fun k => 100 * Z.of_nat k)%Z 5)))
               (snd (startTimer Build newFailedBuild (mkClock (fun k => 100 * Z.of_nat k)%Z 5))))))))
  = 300%Z.
Proof.
  apply (timer_measures_across_other_calls Build
           [OpStart ContextBuild; OpFinish ContextBuild; OpMeta2 true "24.0.7" "linux/amd64"]
           newFailedBuild (mkClock (fun k => 100 * Z.of_nat k)%Z 5)).
  - repeat constructor.
  - cbn. lia.
Defined.

(** [X3] A strategy that uses the record through its timer and
    builder-description methods only leaves the attempt list, the build
    id and the create-failed flag as they were, and what it returns and
    how long it takes does not depend on the record: such a strategy is
    one that [keeps_record] and is [record_blind]. *)
Theorem scripted_strategies_keep_the_record {Opts : Type} (name : string)
    (calls : Opts -> list op)
    (result : Opts -> option DeploymentImage.t * string * option error) :
  Observe.keeps_record (scripted name calls result)
  /\ Observe.record_blind (scripted name calls result)
  /\ (forall (o : Opts) (b : build) (c : Clock),
        out_clock (Run (scripted name calls result) o b c)
        = mkClock (readings c) (pos c + readsAll (calls o))).
Proof.
  assert (C : forall (o : Opts) (b : build) (c : Clock),
             out_clock (Run (scripted name calls result) o b c)
             = mkClock (readings c) (pos c + readsAll (calls o))).
  { intros o b c. cbn [scripted Run].
    destruct (result o) as [[img note] err].
    destruct (applyAll_frame (calls o) b c) as (_ & _ & _ & A4 & A5 & _).
    destruct (applyAll (calls o) b c) as [b' [rd ps]]. cbn in *. subst. reflexivity. }
  split; [|split; [|exact C]].
  - intros o b c. cbn [scripted Run].
    destruct (result o) as [[img note] err].
    destruct (applyAll_frame (calls o) b c) as (A1 & A2 & A3 & _).
    destruct (applyAll (calls o) b c) as [b' c']. cbn in *. repeat split; assumption.
  - intros o b b' c. rewrite !C. cbn [scripted Run].
    destruct (result o) as [[img note] err].
    destruct (applyAll (calls o) b c) as [b1 c1].
    destruct (applyAll (calls o) b' c) as [b2 c2]. cbn. repeat split; reflexivity.
Qed.

(** [X4] The two halves of the builder description do not disturb each
    other: set in either order they give the same record, whose
    description is made of the six arguments, with the builder type
    "remote" or "local"; nothing else in the record changes; and the
    first half does nothing on a nil record. *)
Theorem builder_meta_halves_commute (remote : bool) (app mid : string)
    (kit : bool) (ver plat : string) (b : build) :
  SetBuilderMetaPart1 remote app mid (Some (SetBuilderMetaPart2 kit ver plat b))
  = option_map (SetBuilderMetaPart2 kit ver plat) (SetBuilderMetaPart1 remote app mid (Some b))
  /\ SetBuilderMetaPart1 remote app mid (Some (SetBuilderMetaPart2 kit ver plat b))
     = Some (set_BuilderMeta
               (BuilderMetaInput.mk (if remote then "remote" else "local") app mid kit ver plat)
               b)
  /\ SetBuilderMetaPart1 remote app mid None = None.
Proof.
  destruct b as [f i [t a mm k v p] rs tm st]. destruct remote; repeat split; reflexivity.
Qed.

End TimerFacts.

(* ===================================================================== *)
(** * The events of the strategy loop *)
(* ===================================================================== *)

Module ShapeFacts.
Import Errors Logs Orchestrator Observe OrchestratorFacts SessionShape.

Section LoopEvents.
Context {Opts : Type}.
Variable r : Resolver.
Variable ctx : Context.
Variable opts : Opts.

Lemma finishBuild_events (bld : build) failed logs img (w : World Opts) :
  trace (snd (finishBuild r ctx bld failed logs img w))
  = trace w ++ finish_events r ctx bld (mkFinish failed logs img).
Proof.
  unfold finishBuild, finish_events, bind, emit, ret. cbn [fin_failed fin_logs fin_img].
  destruct (CreateApiFailed bld); cbn [fst snd trace clock].
  - reflexivity.
  - assert (E : forall i : FinishBuildInput.t,
               (match img with
                | Some i0 => FinishBuildInput.set_FinalImage
                    (BuildFinalImageInput.mk (DeploymentImage.ID i0) (DeploymentImage.Tag i0)
                       (DeploymentImage.Size i0))
                    (FinishBuildInput.mk (BuildId bld) (appName (dockerFactory r)) ""
                       (if negb failed then "completed" else "failed") (limitLogs logs)
                       (BuilderMeta bld) (StrategyResults bld) (Timings bld)
                       BuildFinalImageInput.zero)
                | None => FinishBuildInput.mk (BuildId bld) (appName (dockerFactory r)) ""
                       (if negb failed then "completed" else "failed") (limitLogs logs)
                       (BuilderMeta bld) (StrategyResults bld) (Timings bld)
                       BuildFinalImageInput.zero
                end) = finishInput r bld (mkFinish failed logs img)).
    { intros _. unfold finishInput. destruct failed, img; reflexivity. }
    rewrite (E (finishInput r bld (mkFinish failed logs img))).
    destruct (ResolverFinishBuild (GenqClient ctx) _); cbn [fst snd trace clock];
      rewrite <- !app_assoc; reflexivity.
Qed.

Lemma call_at_fresh (s : strategy Opts) (b : build) (w : World Opts) :
  fresh_timers (call_at s b w).
Proof.
  unfold fresh_timers, call_at. cbn. rewrite Nat.sub_0_r.
  repeat split; try lia.
Qed.

Lemma after_attempt_timings (s : strategy Opts) (b : build) (w : World Opts) :
  Timings (fst (after_attempt opts s b w)) = timings_after opts (call_at s b w).
Proof. reflexivity. Qed.

Lemma last_cons_default {A} (y : A) (l : list A) (d : A) : last (y :: l) d = last l y.
Proof.
  revert y d; induction l as [|z l IH]; intros y d; [reflexivity|].
  change (last (y :: z :: l) d) with (last (z :: l) d).
  rewrite (IH z d), (IH z y). reflexivity.
Qed.

Lemma strategyLoop_events (ss : list (strategy Opts)) :
  forall (b : build) (w : World Opts),
  exists cs,
    let res := strategyLoop r ctx opts ss b w in
    let exit := fst (fst res) in
    let b' := snd (fst res) in
    let w' := snd res in
    trace w' = trace w ++ flat_map (attempt_events opts) cs
                 ++ flat_map (finish_events r ctx b') (exit_finishes exit)
    /\ Forall fresh_timers cs
    /\ Timings b' = last (map (timings_after opts) cs) (Timings b).
Proof.
  induction ss as [|s rest IH]; intros b w.
  - exists []. cbn. rewrite app_nil_r. repeat split. constructor.
  - rewrite strategyLoop_cons. cbv zeta.
    pose proof (call_at_fresh s b w) as Fr.
    pose proof (after_attempt_timings s b w) as Tm.
    assert (Tr : trace (snd (after_attempt opts s b w))
                 = trace w ++ attempt_events opts (call_at s b w)).
    { unfold after_attempt, attempt_events. cbn [snd trace call_at call_strategy call_build
        call_clock]. rewrite <- app_assoc. reflexivity. }
    set (c := call_at s b w) in *.
    destruct (out_err (outcome opts c)) as [e|] eqn:Ee;
      [|destruct (out_img (outcome opts c)) as [i|] eqn:Ei].
    + exists [c]. cbn [fst snd]. rewrite finishBuild_events, Tr.
      cbn [flat_map exit_finishes finish_of map last]. rewrite !app_nil_r, <- app_assoc.
      split; [reflexivity|]. split; [constructor; [exact Fr | constructor] | exact Tm].
    + exists [c]. cbn [fst snd]. rewrite finishBuild_events, Tr.
      cbn [flat_map exit_finishes finish_of map last]. rewrite !app_nil_r, <- app_assoc.
      split; [reflexivity|]. split; [constructor; [exact Fr | constructor] | exact Tm].
    + destruct (IH (fst (after_attempt opts s b w)) (snd (after_attempt opts s b w)))
        as (cs & H). cbv zeta in H. destruct H as (H1 & H2 & H3).
      exists (c :: cs). rewrite H1, Tr, H3, Tm.
      cbn [flat_map map]. rewrite <- !app_assoc.
      split; [reflexivity|]. split; [constructor; assumption|].
      rewrite last_cons_default. reflexivity.
Qed.

Lemma createBuildGql_events (names : list string) (io : BuildImageOptsInput.t)
    (w : World Opts) :
  trace (snd (createBuildGql r ctx names io w))
  = trace w ++ create_events ctx (createInput r names io).
Proof.
  unfold createBuildGql, create_events, createInput, isAppNotFoundErr, bind, emit, ret.
  cbn [fst snd trace clock].
  destruct (ResolverCreateBuild _ _) as [id|err]; cbn [fst snd trace clock].
  - reflexivity.
  - destruct (match As_gqlError err with Some _ => _ | None => _ end);
      cbn [negb fst snd trace clock]; rewrite <- ?app_assoc; reflexivity.
Qed.

Lemma calls_session_events (input : CreateBuildInput.t) (cs : list (Call Opts))
    (b : build) (f : Finish) :
  calls (session_events r ctx opts input cs b f) = cs.
Proof.
  unfold session_events, calls, create_events, finish_events.
  rewrite !flat_map_app.
  assert (A : forall l : list (Call Opts),
             flat_map (fun e : Event Opts =>
                         match e with EvRun s b0 c => [mkCall s b0 c] | _ => [] end)
               (flat_map (attempt_events opts) l) = l).
  { induction l as [|[s0 b0 c0] l IHl]; [reflexivity|].
    cbn [flat_map attempt_events app call_strategy call_build call_clock].
    f_equal. exact IHl. }
  rewrite A.
  destruct (ResolverCreateBuild _ _) as [id|err]; [|destruct (isAppNotFoundErr err)];
    destruct (CreateApiFailed b); cbn [flat_map app]; rewrite ?app_nil_r;
    try reflexivity;
    destruct (ResolverFinishBuild _ _); cbn [flat_map app]; rewrite ?app_nil_r; reflexivity.
Qed.

Lemma session_tail_events (cands : list (strategy Opts)) (exhaustErr : error)
    (bld0 : build) (w : World Opts) :
  exists cs f b',
    let res := bind (strategyLoop r ctx opts cands bld0) (conclude r ctx exhaustErr) w in
    res_build (fst res) = Some b'
    /\ trace (snd res) = trace w ++ flat_map (attempt_events opts) cs ++ finish_events r ctx b' f
    /\ Forall fresh_timers cs
    /\ Timings b' = last (map (timings_after opts) cs) (Timings bld0).
Proof.
  destruct (strategyLoop_events cands bld0 w) as (cs & H). cbv zeta in H.
  destruct H as (H1 & H2 & H3).
  unfold bind.
  destruct (strategyLoop r ctx opts cands bld0 w) as [[exit b'] w1] eqn:E.
  cbn [fst snd] in *.
  destruct exit as [img err|]; cbn [conclude exit_finishes flat_map] in *.
  - exists cs, (finish_of img err), b'. cbn [ret fst snd res_build].
    rewrite app_nil_r in H1. repeat split; assumption.
  - exists cs, exhaustedFinish, b'.
    unfold bind, ret.
    pose proof (finishBuild_events b' true "no strategies resulted in an image" None w1) as F.
    destruct (finishBuild r ctx b' true "no strategies resulted in an image" None w1)
      as [x w2] eqn:E2.
    cbn [fst snd res_build] in *. rewrite F, H1, app_nil_r, <- !app_assoc.
    repeat split; assumption.
Qed.

Lemma session_from_create_events (cands : list (strategy Opts))
    (names : list string) (io : BuildImageOptsInput.t) (exhaustErr : error) (c0 : Clock) :
  let cr := createBuildGql r ctx names io (start c0) in
  let res := bind (strategyLoop r ctx opts cands (fst (fst cr)))
                  (conclude r ctx exhaustErr) (snd cr) in
  session_trace r ctx opts (createInput r names io)
    (createdBuild ctx (createInput r names io)) (fst res) (trace (snd res)).
Proof.
  cbv zeta.
  pose proof (createBuildGql_events names io (start (Opts:=Opts) c0)) as C.
  pose proof (createBuildGql_spec r ctx names io (start (Opts:=Opts) c0)) as C'.
  cbv zeta in C'. destruct C' as (C0 & _).
  destruct (session_tail_events cands exhaustErr
              (fst (fst (createBuildGql r ctx names io (start (Opts:=Opts) c0))))
              (snd (createBuildGql r ctx names io (start (Opts:=Opts) c0))))
    as (cs & f & b' & H).
  cbv zeta in H. destruct H as (H1 & H2 & H3 & H4).
  rewrite C in H2. cbn [start trace app] in H2. rewrite C0 in H4.
  assert (T : trace (snd (bind (strategyLoop r ctx opts cands
                                  (fst (fst (createBuildGql r ctx names io (start (Opts:=Opts) c0)))))
                               (conclude r ctx exhaustErr)
                               (snd (createBuildGql r ctx names io (start (Opts:=Opts) c0)))))
              = session_events r ctx opts (createInput r names io) cs b' f).
  { exact H2. }
  exists f, b'. rewrite T, calls_session_events.
  repeat split; assumption.
Qed.

End LoopEvents.

Section EntryEvents.
Variable r : Resolver.
Variable ctx : Context.

Lemma resolveSession_trace (opts : RefOptions.t) (c0 : Clock) :
  let res := resolveSession r ctx opts (start c0) in
  session_trace r ctx opts (resolveCreateInput r opts)
    (createdBuild ctx (resolveCreateInput r opts)) (fst res) (trace (snd res)).
Proof.
  cbv zeta. rewrite resolveSession_eq. apply session_from_create_events.
Qed.

Lemma buildSession_trace (opts : ImageOptions.t) (c0 : Clock) :
  IsAvailable (mode (dockerFactory r)) = true ->
  let res := buildSession r ctx opts (start c0) in
  session_trace r ctx (withTag r opts) (buildCreateInput r opts)
    (createdBuild ctx (buildCreateInput r opts)) (fst res) (trace (snd res)).
Proof.
  intros A. cbv zeta. rewrite buildSession_eq by exact A. apply session_from_create_events.
Qed.

End EntryEvents.

End ShapeFacts.

(* ===================================================================== *)
(** * What every session keeps to *)
(* ===================================================================== *)

Module SessionInvariants.
Import Errors Logs Orchestrator Observe OrchestratorFacts SessionShape Timers
       ShapeFacts LogsFacts Invariants Scenarios.

Section Generic.
Context {Opts : Type}.
Variable r : Resolver.
Variable ctx : Context.
Variable opts : Opts.

Lemma attemptInput_bounded name failed err note :
  attempt_bounded (attemptInput name failed err note).
Proof.
  unfold attempt_bounded, attemptInput. cbn.
  split; [apply limitLogs_length|]. split; [apply limitLogs_length|].
  destruct failed; [left | right]; reflexivity.
Qed.

Lemma attempt_of_bounded (c : Call Opts) : attempt_bounded (attempt_of opts c).
Proof. rewrite attempt_of_flag. apply attemptInput_bounded. Qed.

Lemma session_payload_bounded cands bld0 input exhaustErr o (tr : list (Event Opts)) :
  session_facts r opts cands bld0 input exhaustErr o tr ->
  payload_bounded cands tr.
Proof.
  intros (f & b' & A & C & F & B & G & E & K).
  assert (AB : Forall attempt_bounded (map (attempt_of opts) (calls tr))).
  { rewrite Forall_map. apply Forall_forall. intros c _. apply attempt_of_bounded. }
  split; [rewrite A; exact AB|]. split.
  - rewrite G. destruct (CreateApiFailed b'); constructor; [|constructor].
    cbn. apply limitLogs_length.
  - intros H. destruct (K H) as (K1 & _). rewrite G.
    destruct (CreateApiFailed b'); constructor; [|constructor].
    cbn. rewrite K1. exact AB.
Qed.





Lemma session_image_xor_error cands bld0 input exhaustErr o (tr : list (Event Opts)) :
  session_facts r opts cands bld0 input exhaustErr o tr ->
  image_xor_error (res_img o, res_err o).
Proof.
  intros (f & b' & A & C & F & B & G & E & K).
  destruct E as [(pre & c & post & E1 & E2 & E3 & E4 & E5 & E6)|(E1 & E2 & E3 & E4 & _)].
  - unfold verdict in E5.
    destruct (out_err (outcome opts c)) as [e|] eqn:Ee.
    + injection E5 as -> ->. exact I.
    + injection E5 as -> ->.
      destruct (out_img (outcome opts c)) as [i|] eqn:Ei; [exact I|].
      destruct E4 as [E4|E4]; apply E4; assumption.
  - rewrite E3, E4. exact I.
Qed.

Lemma sentries_app (a b : list (Event Opts)) : sentries (a ++ b) = sentries a ++ sentries b.
Proof. apply flat_map_app. Qed.

Lemma sentries_attempts (cs : list (Call Opts)) :
  sentries (flat_map (attempt_events opts) cs) = [].
Proof. induction cs as [|c cs IH]; [reflexivity|]. cbn. exact IH. Qed.

Lemma finishes_session_events input (cs : list (Call Opts)) b f :
  finishes (session_events r ctx opts input cs b f) = [f].
Proof.
  unfold session_events, finishes, create_events, finish_events. rewrite !flat_map_app.
  assert (A : flat_map (fun e : Event Opts =>
                          match e with EvFinishBuild f0 l i => [mkFinish f0 l i] | _ => [] end)
                (flat_map (attempt_events opts) cs) = []).
  { induction cs as [|c l IHl]; [reflexivity|]. cbn. exact IHl. }
  rewrite A. destruct f as [ff fl fi]. cbn [fin_failed fin_logs fin_img].
  destruct (ResolverCreateBuild _ _) as [id|err]; [|destruct (isAppNotFoundErr err)];
    destruct (CreateApiFailed b); cbn [flat_map app]; rewrite ?app_nil_r;
    try reflexivity;
    destruct (ResolverFinishBuild _ _); cbn [flat_map app]; rewrite ?app_nil_r; reflexivity.
Qed.

(** The two descriptions of a session speak of the same finalization and
    the same record. *)
Lemma session_trace_facts cands bld0 input exhaustErr o (tr : list (Event Opts)) :
  session_facts r opts cands bld0 input exhaustErr o tr ->
  session_trace r ctx opts input bld0 o tr ->
  exists f b',
    res_build o = Some b'
    /\ finishes tr = [f]
    /\ gqlFinishes tr = (if CreateApiFailed b' then [] else [finishInput r b' f])
    /\ tr = session_events r ctx opts input (calls tr) b' f
    /\ Forall fresh_timers (calls tr)
    /\ Timings b' = last (map (timings_after opts) (calls tr)) (Timings bld0)
    /\ (Forall keeps_record cands ->
        StrategyResults b' = map (attempt_of opts) (calls tr) /\
        BuildId b' = BuildId bld0 /\ CreateApiFailed b' = CreateApiFailed bld0).
Proof.
  intros (f & b' & A & C & F & B & G & E & K) (f2 & b2 & B2 & T & Fr & Tm).
  rewrite B in B2. injection B2 as <-.
  assert (F2 : finishes tr = [f2]). { rewrite T. apply finishes_session_events. }
  rewrite F in F2. injection F2 as <-.
  exists f, b'. repeat split; try assumption; apply K; assumption.
Qed.

Lemma session_events_in_order cands bld0 input exhaustErr o (tr : list (Event Opts)) :
  session_facts r opts cands bld0 input exhaustErr o tr ->
  session_trace r ctx opts input bld0 o tr ->
  events_in_order r ctx opts input o tr.
Proof.
  intros S T. destruct (session_trace_facts _ _ _ _ _ _ S T) as (f & b' & B & _ & _ & E & _).
  exists f, b'. split; [exact B | exact E].
Qed.

Lemma session_sentry_reports cands input exhaustErr o (tr : list (Event Opts)) :
  Forall keeps_record cands ->
  session_facts r opts cands (createdBuild ctx input) input exhaustErr o tr ->
  session_trace r ctx opts input (createdBuild ctx input) o tr ->
  sentry_reports ctx input tr.
Proof.
  intros H S T.
  destruct (session_trace_facts _ _ _ _ _ _ S T) as (f & b' & B & F & G & E & _ & _ & K).
  destruct (K H) as (_ & _ & K3).
  assert (Sn : sentries tr = sentries (create_events (Opts:=Opts) ctx input)
                             ++ sentries (finish_events (Opts:=Opts) r ctx b' f)).
  { rewrite E at 1. unfold session_events.
    rewrite !sentries_app, sentries_attempts. reflexivity. }
  unfold sentry_reports. rewrite Sn, G. unfold create_events, finish_events.
  unfold createdBuild in K3.
  destruct (ResolverCreateBuild (GenqClient ctx) input) as [id|e].
  - cbn in K3. rewrite K3.
    destruct (ResolverFinishBuild (GenqClient ctx) (finishInput r b' f)) as [resp|e] eqn:Ef;
      cbn; (split; [lia|]); exists (finishInput r b' f); rewrite Ef; split; reflexivity.
  - cbn in K3. rewrite K3.
    destruct (isAppNotFoundErr e); cbn; split; try lia; reflexivity.
Qed.

Lemma session_finish_names_created cands input exhaustErr o (tr : list (Event Opts))
    (id : string) :
  Forall keeps_record cands ->
  ResolverCreateBuild (GenqClient ctx) input = inl id ->
  session_facts r opts cands (createdBuild ctx input) input exhaustErr o tr ->
  finish_names_created r id tr.
Proof.
  intros H Hc (f & b' & A & C & F & B & G & E & K).
  destruct (K H) as (K1 & K2 & K3).
  unfold createdBuild in K2, K3. rewrite Hc in K2, K3. cbn in K2, K3.
  exists (finishInput r b' f). rewrite G, K3. cbn.
  rewrite K1, K2, A, length_map. repeat split; reflexivity.
Qed.

Lemma session_attempts_prefix cands names io exhaustErr bld0 o (tr : list (Event Opts)) :
  names = map Name cands ->
  session_facts r opts cands bld0 (createInput r names io) exhaustErr o tr ->
  attempts_prefix_of_announced r cands tr.
Proof.
  intros -> (f & b' & A & C & F & B & G & E & K).
  assert (N : forall cs : list (Call Opts),
             map BuildStrategyAttemptInput.Strategy (map (attempt_of opts) cs)
             = map Name (map call_strategy cs)).
  { intros cs. rewrite !map_map. apply map_ext. intros c.
    rewrite attempt_of_flag. reflexivity. }
  destruct E as [(pre & c & post & E1 & E2 & _)|(E1 & _)].
  - subst cands.
    exists (createInput r (map Name (map call_strategy pre ++ call_strategy c :: post)) io),
           (map Name post).
    split; [exact C|].
    rewrite A, N, E1. cbn.
    rewrite !map_app. cbn [map]. rewrite <- app_assoc.
    repeat split; reflexivity.
  - subst cands.
    exists (createInput r (map Name (map call_strategy (calls tr))) io), [].
    split; [exact C|].
    rewrite A, N, app_nil_r. cbn. repeat split; reflexivity.
Qed.

Lemma timings_after_kept (c : Call Opts) :
  fresh_timers c ->
  keeps_timers (call_strategy c) ->
  timings_after opts c
  = BuildTimingsInput.mk
      (wrap64 (readings (out_clock (outcome opts c)) (pos (out_clock (outcome opts c)))
               - readings (call_clock c) (pos (call_clock c) - 1)))
      (-1) (-1) (-1) (-1) (-1).
Proof.
  intros (F1 & F2 & F3) K. unfold timings_after, outcome.
  destruct (K opts (call_build c) (call_clock c)) as [K1 K2].
  unfold BuildAndPushFinish. cbn [UnixMilliNow fst snd Timings set_Timings].
  rewrite K1, K2, F1, F3. reflexivity.
Qed.

Lemma session_reports_last_timings cands bld0 input exhaustErr o (tr : list (Event Opts)) :
  session_facts r opts cands bld0 input exhaustErr o tr ->
  session_trace r ctx opts input bld0 o tr ->
  reports_last_timings opts tr.
Proof.
  intros S T.
  destruct (session_trace_facts _ _ _ _ _ _ S T) as (f & b' & B & F & G & E & Fr & Tm & K).
  intros pre c Hc. rewrite Hc in Tm, Fr.
  rewrite map_app in Tm. cbn [map] in Tm. rewrite last_last in Tm. split.
  - intros i Hi. rewrite G in Hi. destruct (CreateApiFailed b'); [contradiction|].
    destruct Hi as [<-|[]]. cbn. exact Tm.
  - intros Kt. apply timings_after_kept; [|exact Kt].
    apply Forall_app in Fr. destruct Fr as [_ Fr]. inversion Fr; assumption.
Qed.

End Generic.

End SessionInvariants.

Module CtxFacts.
Import Errors Logs Orchestrator Observe OrchestratorFacts SessionShape Timers
       ShapeFacts LogsFacts Invariants Scenarios.

Section Independence.
Context {Opts : Type}.
Variable r : Resolver.
Variable opts : Opts.

Lemma observable_app (a b : list (Event Opts)) :
  observable (a ++ b) = observable a ++ observable b.
Proof. apply filter_app. Qed.

Lemma observable_finish_events (ctx : Context) (b : build) (f : Finish) :
  observable (finish_events (Opts:=Opts) r ctx b f)
  = EvFinishBuild (fin_failed f) (fin_logs f) (fin_img f)
    :: (if CreateApiFailed b then [] else [EvGqlFinishBuild (finishInput r b f)]).
Proof.
  unfold finish_events. destruct (CreateApiFailed b); [reflexivity|].
  destruct (ResolverFinishBuild _ _); reflexivity.
Qed.

Lemma finishBuild_same (ctx1 ctx2 : Context) (b : build) failed logs img
    (w1 w2 : World Opts) :
  same_but_sentry w1 w2 ->
  same_but_sentry (snd (finishBuild r ctx1 b failed logs img w1))
                  (snd (finishBuild r ctx2 b failed logs img w2)).
Proof.
  intros [C T]. split.
  - destruct (finishBuild_trace r ctx1 b failed logs img w1) as (-> & _).
    destruct (finishBuild_trace r ctx2 b failed logs img w2) as (-> & _). exact C.
  - rewrite !finishBuild_events, !observable_app, !observable_finish_events, T. reflexivity.
Qed.

Lemma after_attempt_same (s : strategy Opts) (b : build) (w1 w2 : World Opts) :
  same_but_sentry w1 w2 ->
  call_at s b w1 = call_at s b w2
  /\ fst (after_attempt opts s b w1) = fst (after_attempt opts s b w2)
  /\ same_but_sentry (snd (after_attempt opts s b w1)) (snd (after_attempt opts s b w2)).
Proof.
  intros [C T].
  assert (E : call_at s b w1 = call_at s b w2) by (unfold call_at; rewrite C; reflexivity).
  split; [exact E|].
  unfold after_attempt. fold (call_at s b w1). fold (call_at s b w2). rewrite E.
  cbv zeta. cbn [fst snd]. split; [reflexivity|]. split; [reflexivity|].
  cbn [trace]. rewrite !observable_app, T. reflexivity.
Qed.

Lemma strategyLoop_same (ctx1 ctx2 : Context) (ss : list (strategy Opts)) :
  forall (b : build) (w1 w2 : World Opts),
    same_but_sentry w1 w2 ->
    fst (strategyLoop r ctx1 opts ss b w1) = fst (strategyLoop r ctx2 opts ss b w2)
    /\ same_but_sentry (snd (strategyLoop r ctx1 opts ss b w1))
                       (snd (strategyLoop r ctx2 opts ss b w2)).
Proof.
  induction ss as [|s rest IH]; intros b w1 w2 S.
  - cbn. split; [reflexivity | exact S].
  - rewrite !strategyLoop_cons. cbv zeta.
    destruct (after_attempt_same s b w1 w2 S) as (E1 & E2 & E3).
    rewrite E1, E2.
    destruct (out_err (outcome opts (call_at s b w2))) as [e|];
      [|destruct (out_img (outcome opts (call_at s b w2))) as [i|]].
    + cbn [fst snd]. split; [reflexivity|]. apply finishBuild_same. exact E3.
    + cbn [fst snd]. split; [reflexivity|]. apply finishBuild_same. exact E3.
    + apply IH. exact E3.
Qed.

Lemma conclude_same (ctx1 ctx2 : Context) (exhaustErr : error) (x : LoopExit * build)
    (w1 w2 : World Opts) :
  same_but_sentry w1 w2 ->
  fst (conclude r ctx1 exhaustErr x w1) = fst (conclude r ctx2 exhaustErr x w2)
  /\ same_but_sentry (snd (conclude r ctx1 exhaustErr x w1))
                     (snd (conclude r ctx2 exhaustErr x w2)).
Proof.
  intros S. destruct x as [[img err|] b]; cbn [conclude].
  - split; [reflexivity | exact S].
  - unfold bind, ret.
    pose proof (finishBuild_same ctx1 ctx2 b true "no strategies resulted in an image" None
                  w1 w2 S) as F.
    destruct (finishBuild r ctx1 b true _ None w1) as [x1 w1'].
    destruct (finishBuild r ctx2 b true _ None w2) as [x2 w2'].
    cbn [fst snd] in *. split; [reflexivity | exact F].
Qed.

Lemma createBuildGql_same (ctx1 ctx2 : Context) (names : list string)
    (io : BuildImageOptsInput.t) (w1 w2 : World Opts) :
  ResolverCreateBuild (GenqClient ctx1) (createInput r names io)
  = ResolverCreateBuild (GenqClient ctx2) (createInput r names io) ->
  same_but_sentry w1 w2 ->
  fst (fst (createBuildGql r ctx1 names io w1)) = fst (fst (createBuildGql r ctx2 names io w2))
  /\ same_but_sentry (snd (createBuildGql r ctx1 names io w1))
                     (snd (createBuildGql r ctx2 names io w2)).
Proof.
  intros H [C T].
  destruct (createBuildGql_spec r ctx1 names io w1) as (A1 & A2 & _).
  destruct (createBuildGql_spec r ctx2 names io w2) as (B1 & B2 & _).
  split.
  - rewrite A1, B1. unfold createdBuild. rewrite H. reflexivity.
  - split; [rewrite A2, B2; exact C|].
    rewrite !createBuildGql_events, !observable_app, T. f_equal.
    unfold create_events. rewrite H.
    destruct (ResolverCreateBuild _ _) as [id|e]; [reflexivity|].
    destruct (isAppNotFoundErr e); reflexivity.
Qed.

Lemma session_same (ctx1 ctx2 : Context) (cands : list (strategy Opts))
    (names : list string) (io : BuildImageOptsInput.t) (exhaustErr : error)
    (w : World Opts) :
  ResolverCreateBuild (GenqClient ctx1) (createInput r names io)
  = ResolverCreateBuild (GenqClient ctx2) (createInput r names io) ->
  let run ctx :=
    bind (strategyLoop r ctx opts cands (fst (fst (createBuildGql r ctx names io w))))
         (conclude r ctx exhaustErr) (snd (createBuildGql r ctx names io w)) in
  fst (run ctx1) = fst (run ctx2)
  /\ same_but_sentry (snd (run ctx1)) (snd (run ctx2)).
Proof.
  intros H. cbv zeta.
  destruct (createBuildGql_same ctx1 ctx2 names io w w H (conj eq_refl eq_refl)) as [E S].
  rewrite E. unfold bind.
  pose proof (strategyLoop_same ctx1 ctx2 cands
                (fst (fst (createBuildGql r ctx2 names io w)))
                _ _ S) as [L1 L2].
  destruct (strategyLoop r ctx1 opts cands _ _) as [x1 w1].
  destruct (strategyLoop r ctx2 opts cands _ _) as [x2 w2].
  cbn [fst snd] in *. subst x2. apply conclude_same. exact L2.
Qed.

End Independence.

End CtxFacts.

Module SessionExtras.
Import Errors Logs Orchestrator Observe OrchestratorFacts SessionShape Timers
       ShapeFacts LogsFacts Invariants Scenarios MoreScenarios SessionInvariants CtxFacts.

(** [X5] Every text a session sends to the build-tracking service is bounded:
    the error and the note of each attempt appended and the logs of the
    finish mutation have at most 4096 bytes, and so have the attempts the
    finish mutation lists when the strategies leave the list alone. *)
Theorem telemetry_texts_are_bounded (r : Resolver) (ctx : Context) (c0 : Clock) :
  (forall opts : RefOptions.t,
     payload_bounded (resolveStrategies r)
       (trace (snd (resolveSession r ctx opts (start c0)))))
  /\ (forall opts : ImageOptions.t,
        payload_bounded (buildStrategies r)
          (trace (snd (buildSession r ctx opts (start c0))))).
Proof.
  split; intros opts.
  - exact (session_payload_bounded r opts _ _ _ _ _ _ (resolveSession_spec r ctx opts c0)).
  - destruct (IsAvailable (mode (dockerFactory r))) eqn:A.
    + exact (session_payload_bounded r _ _ _ _ _ _ _ (buildSession_spec r ctx opts c0 A)).
    + rewrite buildSession_unavailable by exact A. cbn.
      repeat split; intros; constructor.
Qed.


(** [X7] [ResolveReference] and [BuildImage] return an image or an error,
    never both and never neither. *)
Theorem image_or_error_never_both (r : Resolver) (ctx : Context) (c0 : Clock) :
  (forall opts : RefOptions.t,
     image_xor_error (fst (ResolveReference r ctx opts (start c0))))
  /\ (forall opts : ImageOptions.t,
        image_xor_error (fst (BuildImage r ctx opts (start c0)))).
Proof.
  split; intros opts.
  - rewrite SessionTheorems.ResolveReference_eq. cbn [fst].
    exact (session_image_xor_error r opts _ _ _ _ _ _ (resolveSession_spec r ctx opts c0)).
  - rewrite SessionTheorems.BuildImage_eq. cbn [fst].
    destruct (IsAvailable (mode (dockerFactory r))) eqn:A.
    + exact (session_image_xor_error r _ _ _ _ _ _ _ (buildSession_spec r ctx opts c0 A)).
    + rewrite buildSession_unavailable by exact A. exact I.
Qed.

(** [X8] The events of a session come in one order: the create mutation first
    (and its Sentry report), then each call of a strategy followed at once
    by the attempt appended for it, and the finalization last; with docker
    unavailable [BuildImage] leaves no event at all. *)
Theorem session_events_are_ordered (r : Resolver) (ctx : Context) (c0 : Clock) :
  (forall opts : RefOptions.t,
     events_in_order r ctx opts (resolveCreateInput r opts)
       (fst (resolveSession r ctx opts (start c0)))
       (trace (snd (resolveSession r ctx opts (start c0)))))
  /\ (forall opts : ImageOptions.t,
        if IsAvailable (mode (dockerFactory r))
        then events_in_order r ctx (withTag r opts) (buildCreateInput r opts)
               (fst (buildSession r ctx opts (start c0)))
               (trace (snd (buildSession r ctx opts (start c0))))
        else trace (snd (buildSession r ctx opts (start c0))) = []).
Proof.
  split; intros opts.
  - exact (session_events_in_order r ctx opts _ _ _ _ _ _
             (resolveSession_spec r ctx opts c0) (resolveSession_trace r ctx opts c0)).
  - destruct (IsAvailable (mode (dockerFactory r))) eqn:A.
    + exact (session_events_in_order r ctx _ _ _ _ _ _ _
               (buildSession_spec r ctx opts c0 A) (buildSession_trace r ctx opts c0 A)).
    + rewrite buildSession_unavailable by exact A. reflexivity.
Qed.

(** [X9] With strategies that leave the record's identity alone, a session
    reports to Sentry at most once: a failed create mutation, unless the
    failure is "Could not find App", or else a failed finish mutation. *)
Theorem sentry_hears_at_most_once (r : Resolver) (ctx : Context) (c0 : Clock) :
  (forall opts : RefOptions.t,
     Forall keeps_record (resolveStrategies r) ->
     sentry_reports ctx (resolveCreateInput r opts)
       (trace (snd (resolveSession r ctx opts (start c0)))))
  /\ (forall opts : ImageOptions.t,
        Forall keeps_record (buildStrategies r) ->
        if IsAvailable (mode (dockerFactory r))
        then sentry_reports ctx (buildCreateInput r opts)
               (trace (snd (buildSession r ctx opts (start c0))))
        else sentries (trace (snd (buildSession r ctx opts (start c0)))) = []).
Proof.
  split; intros opts K.
  - exact (session_sentry_reports r ctx opts _ _ _ _ _ K
             (resolveSession_spec r ctx opts c0) (resolveSession_trace r ctx opts c0)).
  - destruct (IsAvailable (mode (dockerFactory r))) eqn:A.
    + exact (session_sentry_reports r ctx _ _ _ _ _ _ K
               (buildSession_spec r ctx opts c0 A) (buildSession_trace r ctx opts c0 A)).
    + rewrite buildSession_unavailable by exact A. reflexivity.
Qed.

(** [X10] What the finish mutation answers, and whether it fails, changes
    nothing but Sentry reports: two build-tracking services that answer
    the create mutation alike give the same image, error and record, the
    same clock and, Sentry reports apart, the same events. *)
Theorem finish_answer_is_ignored (r : Resolver) (ctx1 ctx2 : Context) (c0 : Clock) :
  (forall opts : RefOptions.t,
     ResolverCreateBuild (GenqClient ctx1) (resolveCreateInput r opts)
     = ResolverCreateBuild (GenqClient ctx2) (resolveCreateInput r opts) ->
     fst (resolveSession r ctx1 opts (start c0)) = fst (resolveSession r ctx2 opts (start c0))
     /\ clock (snd (resolveSession r ctx1 opts (start c0)))
        = clock (snd (resolveSession r ctx2 opts (start c0)))
     /\ observable (trace (snd (resolveSession r ctx1 opts (start c0))))
        = observable (trace (snd (resolveSession r ctx2 opts (start c0)))))
  /\ (forall opts : ImageOptions.t,
        ResolverCreateBuild (GenqClient ctx1) (buildCreateInput r opts)
        = ResolverCreateBuild (GenqClient ctx2) (buildCreateInput r opts) ->
        fst (buildSession r ctx1 opts (start c0)) = fst (buildSession r ctx2 opts (start c0))
        /\ clock (snd (buildSession r ctx1 opts (start c0)))
           = clock (snd (buildSession r ctx2 opts (start c0)))
        /\ observable (trace (snd (buildSession r ctx1 opts (start c0))))
           = observable (trace (snd (buildSession r ctx2 opts (start c0))))).
Proof.
  split; intros opts H.
  - rewrite !resolveSession_eq. cbv zeta.
    destruct (session_same r opts ctx1 ctx2 (resolveStrategies r)
                (map Name (resolveStrategies r)) (refImageOpts opts)
                (couldNotFind r opts) (start c0) H) as (E & C & T).
    repeat split; assumption.
  - destruct (IsAvailable (mode (dockerFactory r))) eqn:A.
    + rewrite !buildSession_eq by exact A. cbv zeta.
      destruct (session_same r (withTag r opts) ctx1 ctx2 (buildStrategies r)
                  (map Name (buildStrategies r)) (buildImageOpts (withTag r opts))
                  noBuilderApplies (start c0) H) as (E & C & T).
      repeat split; assumption.
    + rewrite !buildSession_unavailable by exact A. repeat split; reflexivity.
Qed.

(** [X11] When the create mutation returned an id and the strategies leave the
    record's identity alone, the one finish mutation of the session names
    that id and the application, leaves the machine id empty and lists
    the attempts of the session, one per call. *)
Theorem finish_names_the_created_build (r : Resolver) (ctx : Context) (c0 : Clock) :
  (forall (opts : RefOptions.t) (id : string),
     Forall keeps_record (resolveStrategies r) ->
     ResolverCreateBuild (GenqClient ctx) (resolveCreateInput r opts) = inl id ->
     finish_names_created r id (trace (snd (resolveSession r ctx opts (start c0)))))
  /\ (forall (opts : ImageOptions.t) (id : string),
        Forall keeps_record (buildStrategies r) ->
        IsAvailable (mode (dockerFactory r)) = true ->
        ResolverCreateBuild (GenqClient ctx) (buildCreateInput r opts) = inl id ->
        finish_names_created r id (trace (snd (buildSession r ctx opts (start c0))))).
Proof.
  split.
  - intros opts id K H.
    exact (session_finish_names_created r ctx opts _ _ _ _ _ id K H
             (resolveSession_spec r ctx opts c0)).
  - intros opts id K A H.
    exact (session_finish_names_created r ctx _ _ _ _ _ _ id K H
             (buildSession_spec r ctx opts c0 A)).
Qed.

(** [X12] The create mutation announces the candidate strategies by name, in
    the order they will be tried, with the application name, the builder
    type and an empty machine id; the attempts recorded afterwards name a
    prefix of the announced list. *)
Theorem attempts_follow_the_announcement (r : Resolver) (ctx : Context) (c0 : Clock) :
  (forall opts : RefOptions.t,
     attempts_prefix_of_announced r (resolveStrategies r)
       (trace (snd (resolveSession r ctx opts (start c0)))))
  /\ (forall opts : ImageOptions.t,
        IsAvailable (mode (dockerFactory r)) = true ->
        attempts_prefix_of_announced r (buildStrategies r)
          (trace (snd (buildSession r ctx opts (start c0))))).
Proof.
  split.
  - intros opts.
    exact (session_attempts_prefix r opts _ _ (refImageOpts opts) _ _ _ _ eq_refl
             (resolveSession_spec r ctx opts c0)).
  - intros opts A.
    exact (session_attempts_prefix r _ _ _ (buildImageOpts (withTag r opts)) _ _ _ _ eq_refl
             (buildSession_spec r ctx opts c0 A)).
Qed.

(** [X13] Every strategy is called with the timers reset: all six durations at
    -1, no start time but that of the build-and-push timer, which is the
    clock reading taken just before the call. *)
Theorem strategies_start_with_fresh_timers (r : Resolver) (ctx : Context) (c0 : Clock) :
  (forall opts : RefOptions.t,
     Forall fresh_timers (calls (trace (snd (resolveSession r ctx opts (start c0))))))
  /\ (forall opts : ImageOptions.t,
        Forall fresh_timers (calls (trace (snd (buildSession r ctx opts (start c0)))))).
Proof.
  split; intros opts.
  - destruct (resolveSession_trace r ctx opts c0) as (f & b & _ & _ & F & _). exact F.
  - destruct (IsAvailable (mode (dockerFactory r))) eqn:A.
    + destruct (buildSession_trace r ctx opts c0 A) as (f & b & _ & _ & F & _). exact F.
    + rewrite buildSession_unavailable by exact A. constructor.
Qed.

(** [X14] The timings a session reports are those of the last strategy called
    and of no other: the finish mutation carries what that strategy's
    [Run] left in the record, with the build-and-push duration taken when
    it returned; for a strategy that leaves the timers alone that is the
    time its [Run] took and -1 for the five other durations. *)
Theorem finish_reports_the_last_timings (r : Resolver) (ctx : Context) (c0 : Clock) :
  (forall opts : RefOptions.t,
     reports_last_timings opts (trace (snd (resolveSession r ctx opts (start c0)))))
  /\ (forall opts : ImageOptions.t,
        reports_last_timings (withTag r opts)
          (trace (snd (buildSession r ctx opts (start c0))))).
Proof.
  split; intros opts.
  - exact (session_reports_last_timings r ctx opts _ _ _ _ _ _
             (resolveSession_spec r ctx opts c0) (resolveSession_trace r ctx opts c0)).
  - destruct (IsAvailable (mode (dockerFactory r))) eqn:A.
    + exact (session_reports_last_timings r ctx _ _ _ _ _ _ _
               (buildSession_spec r ctx opts c0 A) (buildSession_trace r ctx opts c0 A)).
    + rewrite buildSession_unavailable by exact A.
      intros pre c Hc. cbn in Hc. destruct pre; discriminate.
Qed.

(** [X15] With docker unavailable [BuildImage] returns the error "docker is
    unavailable to build the deployment image" and no image, and does
    nothing else: no mutation, no strategy, no clock reading. *)
Theorem docker_unavailable_does_nothing (r : Resolver) (ctx : Context)
    (opts : ImageOptions.t) (w : World ImageOptions.t) :
  IsAvailable (mode (dockerFactory r)) = false ->
  BuildImage r ctx opts w
  = ((None, Some (errorString "docker is unavailable to build the deployment image")), w).
Proof.
  intros A. rewrite SessionTheorems.BuildImage_eq, buildSession_unavailable by exact A.
  reflexivity.
Qed.

Lemma fixed_keeps_timers {Opts} name img note err :
  keeps_timers (fixed (Opts:=Opts) name img note err).
Proof. intros o b c. cbn. split; reflexivity. Qed.

Lemma implFound_keeps_record :
  Forall keeps_record (resolveStrategies (resolverOf implFound)).
Proof. repeat constructor; apply SessionTheorems.fixed_keeps_record. Qed.

Lemma sentry_hears_at_most_once_witness :
  Forall keeps_record (resolveStrategies (resolverOf implFound))
  /\ sentries (trace (snd (resolveSession (resolverOf implFound) ctxAppNotFound refOpts
                             (start clock0)))) = []
  /\ sentries (trace (snd (resolveSession (resolverOf implFound) ctxCreateFails refOpts
                             (start clock0))))
     = [("build-api-create-build", errorString "connection refused")].
Proof.
  split; [exact implFound_keeps_record|]. split.
  - exact (proj2 (proj1 (sentry_hears_at_most_once (resolverOf implFound) ctxAppNotFound clock0)
                    refOpts implFound_keeps_record)).
  - exact (proj2 (proj1 (sentry_hears_at_most_once (resolverOf implFound) ctxCreateFails clock0)
                    refOpts implFound_keeps_record)).
Defined.

Lemma finish_answer_is_ignored_witness :
  ResolverFinishBuild (GenqClient ctxFinishFails)
  <> ResolverFinishBuild (GenqClient ctxOk)
  /\ fst (resolveSession (resolverOf implFound) ctxOk refOpts (start clock0))
     = fst (resolveSession (resolverOf implFound) ctxFinishFails refOpts (start clock0)).
Proof.
  split.
  - intros E.
    assert (F : ResolverFinishBuild (GenqClient ctxFinishFails)
                  (finishInput (resolverOf implFound) newFailedBuild exhaustedFinish)
                = ResolverFinishBuild (GenqClient ctxOk)
                    (finishInput (resolverOf implFound) newFailedBuild exhaustedFinish))
      by (rewrite E; reflexivity).
    discriminate F.
  - exact (proj1 (proj1 (finish_answer_is_ignored (resolverOf implFound) ctxOk ctxFinishFails
                           clock0) refOpts eq_refl)).
Defined.

Lemma finish_names_the_created_build_witness :
  finish_names_created (resolverOf implFound) "build-1"
    (trace (snd (resolveSession (resolverOf implFound) ctxOk refOpts (start clock0)))).
Proof.
  exact (proj1 (finish_names_the_created_build (resolverOf implFound) ctxOk clock0)
           refOpts "build-1" implFound_keeps_record eq_refl).
Defined.

Lemma attempts_follow_the_announcement_witness :
  attempts_prefix_of_announced (resolverOf implFound) (buildStrategies (resolverOf implFound))
    (trace (snd (buildSession (resolverOf implFound) ctxOk imageOpts (start clock0)))).
Proof.
  exact (proj2 (attempts_follow_the_announcement (resolverOf implFound) ctxOk clock0)
           imageOpts eq_refl).
Defined.

Lemma docker_unavailable_does_nothing_witness :
  BuildImage resolverUnavailable ctxOk imageOpts (start clock0)
  = ((None, Some (errorString "docker is unavailable to build the deployment image")),
     start clock0).
Proof.
  exact (docker_unavailable_does_nothing resolverUnavailable ctxOk imageOpts (start clock0)
           eq_refl).
Defined.

Lemma finish_reports_the_last_timings_witness :
  map FinishBuildInput.Timings
    (gqlFinishes (trace (snd (resolveSession (resolverOf implFound) ctxOk refOpts
                                (start clock0)))))
  = [BuildTimingsInput.mk 1 (-1) (-1) (-1) (-1) (-1)].
Proof.
  set (tr := trace (snd (resolveSession (resolverOf implFound) ctxOk refOpts (start clock0)))).
  assert (C : calls tr = [hd noCall (calls tr)] ++ [hd noCall (tl (calls tr))])
    by (vm_compute; reflexivity).
  destruct (proj1 (finish_reports_the_last_timings (resolverOf implFound) ctxOk clock0)
              refOpts _ _ C) as [H1 H2].
  fold tr in H1.
  assert (K : keeps_timers (call_strategy (hd noCall (tl (calls tr))))).
  { assert (E : call_strategy (hd noCall (tl (calls tr)))
                = fixed "remote" (Some image1) "" None) by (vm_compute; reflexivity).
    rewrite E. apply fixed_keeps_timers. }
  assert (G : gqlFinishes tr
              = [hd (finishInput (resolverOf implFound) newFailedBuild exhaustedFinish)
                    (gqlFinishes tr)])
    by (vm_compute; reflexivity).
  rewrite G. cbn [map]. rewrite (H1 _ ltac:(rewrite G; left; reflexivity)), (H2 K).
  vm_compute. reflexivity.
Defined.

End SessionExtras.

(* ===================================================================== *)
(** * More on the heartbeat start-up *)
(* ===================================================================== *)

Module HeartbeatExtras.
Import Errors Http Signal Orchestrator Heartbeat HeartbeatShape Scenarios.

Lemma in_2xx_spec (c : Z) :
  ((200 <=? c) && (c <? 300))%Z = true <-> (200 <= c < 300)%Z.
Proof. rewrite andb_true_iff, Z.leb_le, Z.ltb_lt. reflexivity. Qed.

Lemma not_2xx_spec (c : Z) :
  ((200 <=? c) && (c <? 300))%Z = false <-> ~ (200 <= c < 300)%Z.
Proof.
  rewrite <- in_2xx_spec. destruct ((200 <=? c) && (c <? 300))%Z; split; congruence.
Qed.

(** [X16] [heartbeat] returns nil exactly for an answer with a status from 200
    to 299; a failure to get an answer is returned as it is; any other
    answer becomes an [httpError] with the status of the answer and, as
    body, what was read of the answer's body or the text of the read
    error. *)
Theorem heartbeat_outcomes (client : dockerClient) (k : nat) (req : Request) :
  (heartbeat client k req = None <->
   exists resp, HTTPDo client k req = inl resp
                /\ (200 <= StatusCode resp < 300)%Z)
  /\ (forall e, HTTPDo client k req = inr e -> heartbeat client k req = Some e)
  /\ (forall resp, HTTPDo client k req = inl resp ->
        ~ (200 <= StatusCode resp < 300)%Z ->
        heartbeat client k req
        = Some (httpError (StatusCode resp)
                  (match ReadAll resp with inl b => b | inr e => Error e end))
        /\ As_httpError (httpError (StatusCode resp)
                           (match ReadAll resp with inl b => b | inr e => Error e end))
           = Some (StatusCode resp,
                   match ReadAll resp with inl b => b | inr e => Error e end)).
Proof.
  unfold heartbeat. split; [|split].
  - destruct (HTTPDo client k req) as [resp|e].
    + destruct ((200 <=? StatusCode resp) && (StatusCode resp <? 300))%Z eqn:B.
      * apply in_2xx_spec in B. split; [|reflexivity].
        intros _. exists resp. split; [reflexivity | exact B].
      * apply not_2xx_spec in B. split.
        -- destruct (ReadAll resp); discriminate.
        -- intros (resp' & Heq & Hr). injection Heq as <-. contradiction.
    + split; [discriminate|]. intros (resp & Heq & _). discriminate.
  - intros e ->. reflexivity.
  - intros resp -> Hn. apply not_2xx_spec in Hn. rewrite Hn.
    destruct (ReadAll resp); split; reflexivity.
Qed.

(** [X17] [StartHeartbeat] sends no request, one, or two, each the same GET of
    the heartbeat URL with the application name and the docker token as
    basic auth and the flyctl user agent; for a builder that is not remote
    it sends none; and an error it returns is the error of the first
    request, never together with a handle. *)
Theorem start_sends_at_most_two_probes (std : Std) (r : Resolver) :
  let res := StartHeartbeat std r in
  (requests res = []
   \/ exists client url,
        buildFn (dockerFactory r) = inl client
        /\ getHeartbeatUrl std client = inl url
        /\ Method (heartbeatRequest std r url) = "GET"
        /\ Url (heartbeatRequest std r url) = url
        /\ BasicAuthUser (heartbeatRequest std r url) = appName (dockerFactory r)
        /\ BasicAuthPassword (heartbeatRequest std r url) = DockerToken std
        /\ UserAgent (heartbeatRequest std r url) = ("flyctl/" ++ Version std)%string
        /\ (requests res = [(0, heartbeatRequest std r url)]
            \/ requests res = [(0, heartbeatRequest std r url);
                               (1, heartbeatRequest std r url)])
        /\ (forall e, hb_err res = Some e ->
              heartbeat client 0 (heartbeatRequest std r url) = Some e
              /\ requests res = [(0, heartbeatRequest std r url)]))
  /\ (remote (dockerFactory r) = false -> requests res = [] /\ hb_err res = None)
  /\ (requests res = [] -> hb_err res = None /\ hb_handle res = None)
  /\ (hb_err res <> None -> hb_handle res = None /\ loop_started res = false).
Proof.
  cbv zeta. unfold StartHeartbeat.
  destruct (remote (dockerFactory r)); cbn [negb];
    [|repeat split; try (left; reflexivity); try reflexivity; cbn; congruence].
  destruct (buildFn (dockerFactory r)) as [client|e0];
    [|repeat split; try (left; reflexivity); try reflexivity; cbn; congruence].
  destruct (getHeartbeatUrl std client) as [url|e0] eqn:U;
    [|repeat split; try (left; reflexivity); try reflexivity; cbn; congruence].
  destruct (NewRequest_error std url) as [e0|];
    [repeat split; try (left; reflexivity); try reflexivity; cbn; congruence|].
  destruct (heartbeat client 0 (heartbeatRequest std r url)) as [e|] eqn:H.
  - destruct (As_httpError e) as [[code body]|];
      [destruct (code =? StatusNotFound)%Z|];
      (split; [right; exists client, url; cbn;
               repeat split; try reflexivity; try assumption;
               try (left; reflexivity); try congruence|]);
      cbn; repeat split; try congruence.
  - destruct (HTTPDo client 1 (heartbeatRequest std r url)) as [resp|e];
      [destruct (StatusCode resp =? StatusAccepted)%Z|];
      (split; [right; exists client, url; cbn;
               repeat split; try reflexivity; try assumption;
               try (right; reflexivity); try congruence|]);
      cbn; repeat split; try congruence.
Qed.

(** [X18] A remote builder that answers every request with the same status
    gets a heartbeat loop exactly when that status is 202: with another
    status from 200 to 299 the start-up gives up silently after the
    second request, with 404 silently after the first, and with any other
    status it returns the [httpError] of the first request. *)
Theorem uniform_builder_needs_202 (std : Std) (r : Resolver) (client : dockerClient)
    (url : string) (code : Z) :
  remote (dockerFactory r) = true ->
  buildFn (dockerFactory r) = inl client ->
  getHeartbeatUrl std client = inl url ->
  NewRequest_error std url = None ->
  answers_with client code ->
  let res := StartHeartbeat std r in
  let req := heartbeatRequest std r url in
  (loop_started res = true <-> code = 202%Z)
  /\ (code = 202%Z -> hb_handle res = Some newStopSignal /\ hb_err res = None)
  /\ ((200 <= code < 300)%Z -> code <> 202%Z ->
      hb_handle res = None /\ hb_err res = None /\ requests res = [(0, req); (1, req)])
  /\ (code = 404%Z ->
      hb_handle res = None /\ hb_err res = None /\ requests res = [(0, req)])
  /\ (~ (200 <= code < 300)%Z -> code <> 404%Z ->
      hb_handle res = None /\ requests res = [(0, req)]
      /\ exists body, hb_err res = Some (httpError code body)).
Proof.
  intros R B U N A. cbv zeta.
  destruct (A 0 (heartbeatRequest std r url)) as (resp0 & D0 & C0).
  destruct (A 1 (heartbeatRequest std r url)) as (resp1 & D1 & C1).
  unfold StartHeartbeat, heartbeat. rewrite R, B, U, N. cbn [negb]. rewrite D0, D1, C0, C1.
  destruct ((200 <=? code) && (code <? 300))%Z eqn:B2.
  - apply in_2xx_spec in B2.
    destruct (Z.eqb_spec code StatusAccepted) as [E|E]; unfold StatusAccepted in E; cbn [negb].
    + cbn. repeat split; try reflexivity; try congruence; try lia.
    + cbn. repeat split; try reflexivity; try congruence; try lia.
  - apply not_2xx_spec in B2.
    assert (F : forall body, As_httpError (httpError code body) = Some (code, body))
      by reflexivity.
    destruct (ReadAll resp0) as [b|e]; rewrite F;
      (destruct (Z.eqb_spec code StatusNotFound) as [E|E]; unfold StatusNotFound in E;
       [cbn; repeat split; try reflexivity; try congruence; try lia
       |cbn; repeat split; try reflexivity; try congruence; try lia;
        intros; try contradiction; eexists; reflexivity]).
Qed.

Lemma uniform_builder_needs_202_witness :
  loop_started (StartHeartbeat std0
                  (remoteResolver (clientAnswering 202 "202 Accepted" ""))) = true
  /\ requests (StartHeartbeat std0 (remoteResolver (clientAnswering 200 "200 OK" "")))
     = [(0, heartbeatRequest std0 (remoteResolver (clientAnswering 200 "200 OK" ""))
              "http://builder.internal:8080/flyio/v1/extendDeadline");
        (1, heartbeatRequest std0 (remoteResolver (clientAnswering 200 "200 OK" ""))
              "http://builder.internal:8080/flyio/v1/extendDeadline")].
Proof.
  split.
  - apply (uniform_builder_needs_202 std0
             (remoteResolver (clientAnswering 202 "202 Accepted" ""))
             (clientAnswering 202 "202 Accepted" "")
             "http://builder.internal:8080/flyio/v1/extendDeadline" 202
             eq_refl eq_refl eq_refl eq_refl).
    + intros k req. eexists. split; reflexivity.
    + reflexivity.
  - apply (uniform_builder_needs_202 std0
             (remoteResolver (clientAnswering 200 "200 OK" ""))
             (clientAnswering 200 "200 OK" "")
             "http://builder.internal:8080/flyio/v1/extendDeadline" 200
             eq_refl eq_refl eq_refl eq_refl).
    + intros k req. eexists. split; reflexivity.
    + lia.
    + lia.
Defined.

End HeartbeatExtras.

(* ===================================================================== *)
(** * More on the stop race *)
(* ===================================================================== *)

Module SignalExtras.
Import Signal SignalRuns SignalFacts.

Lemma steps_in_steps (k : nat) (c c' : Config) : steps_in k c c' -> steps c c'.
Proof.
  induction 1 as [c|k c1 c2 c3 _ IH S]; [apply steps_refl|].
  eapply steps_then; eassumption.
Qed.

Lemma steps_in_weight (k : nat) (c c' : Config) :
  steps_in k c c' -> k + weight (fst c') <= weight (fst c).
Proof.
  induction 1 as [c|k c1 c2 c3 _ IH S]; [lia|].
  pose proof (step_weight _ _ S). lia.
Qed.

Lemma all_finished_or_not (ts : list pc) :
  Forall (eq Finished) ts \/ exists p, In p ts /\ p <> Finished.
Proof.
  induction ts as [|p ts [IH|(q & Hq & Nq)]].
  - left. constructor.
  - destruct p; try (left; constructor; [reflexivity | exact IH]);
      right; eexists; (split; [left; reflexivity | discriminate]).
  - right. exists q. split; [right; exact Hq | exact Nq].
Qed.

(** [X19] While [n] goroutines race through [Stop]: a call that has returned
    finds the channel closed, whoever closed it; at most one goroutine is
    between [Lock] and [Unlock]; and the channel is closed only after
    some goroutine passed the [close]. *)
Theorem returned_stop_means_closed (n : nat) (ts : list pc) (sh : Shared) :
  steps (initial n) (ts, sh) ->
  (In Finished ts -> Chan (sig sh) = ChanClosed /\ done (once (sig sh)) = true)
  /\ holders ts <= 1
  /\ (In AtClose ts -> Chan (sig sh) = ChanOpen)
  /\ (Chan (sig sh) = ChanOpen -> ~ In Finished ts /\ ~ In AtStore ts /\ ~ In AtUnlock ts).
Proof.
  intros S.
  pose proof (steps_invariant _ _ (initial_invariant n) S) as (I1 & I2 & I3 & I4 & I5 & I6).
  rewrite Forall_forall in I4.
  split; [|split; [|split]].
  - intros F. pose proof (I4 _ F) as D. cbn in D. split; [apply I5, D | exact D].
  - rewrite I3. destruct (m (once (sig sh))); lia.
  - intros C. apply (I4 _ C).
  - intros O. repeat split; intros F; pose proof (I4 _ F) as D; cbn in D.
    + apply I5 in D. congruence.
    + destruct D as [_ D]. congruence.
    + apply I5 in D. congruence.
Qed.

Lemma returned_stop_means_closed_witness :
  let c := run [1; 1; 1; 1; 1; 1] (initial 2) in
  fst c = [AtEntry; Finished] /\ Chan (sig (snd c)) = ChanClosed.
Proof.
  cbv zeta.
  set (c := run [1; 1; 1; 1; 1; 1] (initial 2)).
  assert (S : steps (initial 2) (fst c, snd c)).
  { rewrite <- surjective_pairing. apply run_steps. }
  assert (E : fst c = [AtEntry; Finished]) by (vm_compute; reflexivity).
  split; [exact E|].
  apply (returned_stop_means_closed 2 (fst c) (snd c) S).
  rewrite E. right. left. reflexivity.
Defined.

(** [X20] A race of [n] calls of [Stop] takes at most [6 * n] steps, and where
    it cannot go on every call has returned and, if there was a call at
    all, the channel is closed: no call waits for the mutex for ever. *)
Theorem stop_race_terminates (n k : nat) (ts : list pc) (sh : Shared) :
  steps_in k (initial n) (ts, sh) ->
  k <= 6 * n
  /\ ((forall c', ~ step (ts, sh) c') ->
      Forall (eq Finished) ts
      /\ (1 <= n -> Chan (sig sh) = ChanClosed /\ closes sh = 1)).
Proof.
  intros S.
  pose proof (steps_in_weight _ _ _ S) as W. rewrite weight_initial in W. cbn [fst] in W.
  split; [lia|].
  intros Stuck.
  pose proof (steps_in_steps _ _ _ S) as S'.
  pose proof (steps_invariant _ _ (initial_invariant n) S') as Inv.
  assert (F : Forall (eq Finished) ts).
  { destruct (all_finished_or_not ts) as [F|E]; [exact F|].
    destruct (progress ts sh Inv E) as (c' & St). exfalso. exact (Stuck c' St). }
  split; [exact F|].
  intros N.
  pose proof (steps_length _ _ S') as L. cbn in L. rewrite repeat_length in L.
  destruct Inv as (I1 & I2 & I3 & I4 & I5 & I6).
  destruct ts as [|p ts]; [cbn in L; lia|].
  inversion F as [|? ? <- _]; subst.
  inversion I4 as [|? ? Dn _]; subst. cbn in Dn.
  specialize (I5 Dn). rewrite I2, I5. split; reflexivity.
Qed.

Lemma stop_race_terminates_witness :
  steps_in 6 (initial 1)
    ([Finished], mkShared (mkStopSignal ChanClosed (mkOnce true false)) 1 false)
  /\ 6 <= 6 * 1.
Proof.
  assert (S : steps_in 6 (initial 1)
                ([Finished], mkShared (mkStopSignal ChanClosed (mkOnce true false)) 1 false)).
  { pose (sh0 := mkShared newStopSignal 0 false).
    eapply steps_in_then; [eapply steps_in_then; [eapply steps_in_then;
      [eapply steps_in_then; [eapply steps_in_then; [eapply steps_in_then;
        [apply steps_in_refl|]|]|]|]|]|].
    - apply (step_at [] [] AtEntry AtLock sh0 sh0). reflexivity.
    - apply (step_at [] [] AtLock AtRecheck sh0 (set_m true sh0)). reflexivity.
    - apply (step_at [] [] AtRecheck AtClose (set_m true sh0) (set_m true sh0)). reflexivity.
    - apply (step_at [] [] AtClose AtStore (set_m true sh0)
               (mkShared (mkStopSignal ChanClosed (mkOnce false true)) 1 false)). reflexivity.
    - apply (step_at [] [] AtStore AtUnlock
               (mkShared (mkStopSignal ChanClosed (mkOnce false true)) 1 false)
               (mkShared (mkStopSignal ChanClosed (mkOnce true true)) 1 false)). reflexivity.
    - apply (step_at [] [] AtUnlock Finished
               (mkShared (mkStopSignal ChanClosed (mkOnce true true)) 1 false)
               (mkShared (mkStopSignal ChanClosed (mkOnce true false)) 1 false)). reflexivity. }
  split; [exact S|].
  exact (proj1 (stop_race_terminates 1 6 _ _ S)).
Defined.

End SignalExtras.

(* ===================================================================== *)
(** * Facts about the heartbeat loop *)
(* ===================================================================== *)

Module HeartbeatLoopFacts.
Import Errors Http Signal Orchestrator Heartbeat HeartbeatLoop Scenarios.

Section LoopFacts.
Variable client : dockerClient.
Variable heartbeatReq : Request.

Lemma exec_app (a b : list Action) (s : LoopState) :
  exec client heartbeatReq (a ++ b) s
  = exec client heartbeatReq b (exec client heartbeatReq a s).
Proof.
  revert s; induction a as [|x a IH]; intros s; [reflexivity|].
  cbn [app exec]. destruct (act client heartbeatReq x s); apply IH.
Qed.

Lemma callStop_invariant (s : LoopState) : loop_invariant s -> loop_invariant (callStop s).
Proof.
  destruct s as [[ch [d lock]] cd pr ps cc sn nx rt pk].
  unfold loop_invariant, callStop. cbn. intros (P & L & D & R & N). subst pk lock.
  destruct d; cbn.
  - repeat split; try tauto; try (apply R; assumption); try (apply N; assumption).
  - destruct ch; cbn.
    + repeat split; try reflexivity; try (apply R; assumption); try (apply N; assumption).
    + exfalso. destruct D as [_ D]. specialize (D eq_refl). discriminate.
Qed.

Lemma callStop_closes (s : LoopState) :
  loop_invariant s -> Chan (signal (callStop s)) = ChanClosed.
Proof.
  destruct s as [[ch [d lock]] cd pr ps cc sn nx rt pk].
  unfold loop_invariant, callStop. cbn. intros (P & L & D & R & N).
  destruct d; cbn; [apply D; reflexivity|].
  destruct ch; cbn; [reflexivity|].
  destruct D as [_ D]. specialize (D eq_refl). discriminate.
Qed.

Lemma callStop_frame (s : LoopState) :
  ctxDone (callStop s) = ctxDone s /\ pulseReady (callStop s) = pulseReady s
  /\ pulseStopped (callStop s) = pulseStopped s /\ clientClosed (callStop s) = clientClosed s
  /\ sent (callStop s) = sent s /\ nextRequest (callStop s) = nextRequest s
  /\ returned (callStop s) = returned s.
Proof.
  unfold callStop. destruct (Stop (Some (signal s))) as [[d|]|]; cbn; repeat split.
Qed.

Lemma leave_invariant (s : LoopState) : loop_invariant s -> loop_invariant (leave s).
Proof.
  intros I. pose proof (callStop_invariant s I) as (P & L & D & R & N).
  pose proof (callStop_closes s I) as C.
  unfold leave, loop_invariant. cbn.
  repeat split; try assumption; try apply D; try discriminate.
Qed.

Lemma act_invariant (a : Action) (s s' : LoopState) :
  loop_invariant s -> act client heartbeatReq a s = Some s' -> loop_invariant s'.
Proof.
  intros I H. destruct a; cbn [act] in H.
  - injection H as <-. apply callStop_invariant, I.
  - injection H as <-. exact I.
  - unfold loop_invariant in *.
    destruct (pulseStopped s); [discriminate|]. injection H as <-. exact I.
  - destruct (returned s); [discriminate|].
    destruct (Chan (signal s)); [discriminate|]. injection H as <-. apply leave_invariant, I.
  - destruct (returned s); [discriminate|].
    destruct (ctxDone s); [|discriminate]. injection H as <-. apply leave_invariant, I.
  - unfold loop_invariant in *.
    destruct (returned s); [discriminate|].
    destruct (pulseReady s); [|discriminate]. injection H as <-. exact I.
Qed.

Lemma exec_invariant (acts : list Action) (s : LoopState) :
  loop_invariant s -> loop_invariant (exec client heartbeatReq acts s).
Proof.
  revert s; induction acts as [|a acts IH]; intros s I; [exact I|].
  cbn [exec]. destruct (act client heartbeatReq a s) as [s'|] eqn:E.
  - apply IH. exact (act_invariant a s s' I E).
  - apply IH, I.
Qed.

Lemma loopStart_invariant : loop_invariant loopStart.
Proof.
  unfold loop_invariant, loopStart. cbn.
  repeat split; try reflexivity; try discriminate.
Qed.

(** Without a stop and without a cancellation the loop goes on. *)
Lemma exec_goes_on (acts : list Action) (s : LoopState) :
  ~ In StopCalled acts -> ~ In ContextDone acts ->
  Chan (signal s) = ChanOpen -> ctxDone s = false -> returned s = false ->
  let s' := exec client heartbeatReq acts s in
  Chan (signal s') = ChanOpen /\ ctxDone s' = false /\ returned s' = false.
Proof.
  revert s; induction acts as [|a acts IH]; intros s N1 N2 C D R; cbv zeta.
  - repeat split; assumption.
  - assert (N1' : ~ In StopCalled acts) by (intros H; apply N1; right; exact H).
    assert (N2' : ~ In ContextDone acts) by (intros H; apply N2; right; exact H).
    cbn [exec]. destruct a; cbn [act].
    + exfalso. apply N1. left. reflexivity.
    + exfalso. apply N2. left. reflexivity.
    + destruct (pulseStopped s); apply IH; assumption.
    + rewrite R, C. apply IH; assumption.
    + rewrite R, D. apply IH; assumption.
    + rewrite R. destruct (pulseReady s); apply IH; try assumption. reflexivity.
Qed.

(** How many heartbeats were sent, against how many ticks there were. *)
Lemma exec_sent (acts : list Action) (s : LoopState) :
  let s' := exec client heartbeatReq acts s in
  exists more,
    sent s' = sent s ++ more
    /\ nextRequest s' = nextRequest s + length more
    /\ map (fun x => fst (fst x)) more = seq (nextRequest s) (length more)
    /\ Forall (fun x => snd (fst x) = heartbeatReq
                        /\ snd x = heartbeat client (fst (fst x)) heartbeatReq) more
    /\ length more <= (if pulseReady s then 1 else 0) + length (filter isTick acts)
    /\ (returned s = true -> more = []).
Proof.
  revert s; induction acts as [|a acts IH]; intros s; cbv zeta.
  - exists []. cbn. rewrite app_nil_r. repeat split; try lia. constructor.
  - cbn [exec].
    assert (Skip : exists more,
               sent (exec client heartbeatReq acts s) = sent s ++ more
               /\ nextRequest (exec client heartbeatReq acts s) = nextRequest s + length more
               /\ map (fun x => fst (fst x)) more = seq (nextRequest s) (length more)
               /\ Forall (fun x => snd (fst x) = heartbeatReq
                                   /\ snd x = heartbeat client (fst (fst x)) heartbeatReq) more
               /\ length more
                  <= (if pulseReady s then 1 else 0) + length (filter isTick (a :: acts))
               /\ (returned s = true -> more = [])).
    { destruct (IH s) as (more & H1 & H2 & H3 & H4 & H5 & H6).
      exists more. repeat split; try assumption.
      cbn [filter]. destruct (isTick a); cbn [length]; lia. }
    assert (Left : forall s0, leave s = s0 ->
               exists more,
                 sent (exec client heartbeatReq acts s0) = sent s ++ more
                 /\ nextRequest (exec client heartbeatReq acts s0)
                    = nextRequest s + length more
                 /\ map (fun x => fst (fst x)) more = seq (nextRequest s) (length more)
                 /\ Forall (fun x => snd (fst x) = heartbeatReq
                                     /\ snd x = heartbeat client (fst (fst x)) heartbeatReq)
                            more
                 /\ length more
                    <= (if pulseReady s then 1 else 0) + length (filter isTick (a :: acts))
                 /\ (returned s = true -> more = [])).
    { intros s0 <-.
      destruct (IH (leave s)) as (more & H1 & H2 & H3 & H4 & H5 & H6).
      destruct (callStop_frame s) as (_ & F2 & _ & _ & F5 & F6 & F7).
      assert (L1 : sent (leave s) = sent s) by exact F5.
      assert (L2 : nextRequest (leave s) = nextRequest s) by exact F6.
      rewrite L1 in H1. rewrite L2 in H2, H3.
      specialize (H6 eq_refl). subst more.
      exists []. cbn [length seq map].
      split; [exact H1|]. split; [exact H2|]. repeat split; try assumption; try lia. }
    destruct a; cbn [act].
    + destruct (IH (callStop s)) as (more & H1 & H2 & H3 & H4 & H5 & H6).
      destruct (callStop_frame s) as (_ & F2 & _ & _ & F5 & F6 & F7).
      rewrite F2 in H5. rewrite F5 in H1. rewrite F6 in H2, H3. rewrite F7 in H6.
      exists more. repeat split; assumption.
    + destruct (IH (mkLoopState (signal s) true (pulseReady s) (pulseStopped s)
                      (clientClosed s) (sent s) (nextRequest s) (returned s) (stopPanicked s)))
        as (more & H). cbn [sent nextRequest pulseReady returned] in H.
      exists more. exact H.
    + destruct (pulseStopped s) eqn:Ps; [exact Skip|].
      destruct (IH (mkLoopState (signal s) (ctxDone s) true false
                      (clientClosed s) (sent s) (nextRequest s) (returned s)
                      (stopPanicked s)))
        as (more & H1 & H2 & H3 & H4 & H5 & H6).
      cbn [pulseReady sent nextRequest returned] in H1, H2, H3, H4, H5, H6.
      exists more. repeat split; try assumption.
      cbn [filter isTick length]. destruct (pulseReady s); lia.
    + destruct (returned s) eqn:Rt; [exact Skip|].
      destruct (Chan (signal s)); [exact Skip|]. apply Left. reflexivity.
    + destruct (returned s) eqn:Rt; [exact Skip|].
      destruct (ctxDone s); [|exact Skip]. apply Left. reflexivity.
    + destruct (returned s) eqn:Rt; [exact Skip|].
      destruct (pulseReady s) eqn:Pr; [|exact Skip].
      destruct (IH (mkLoopState (signal s) (ctxDone s) false (pulseStopped s) (clientClosed s)
                      (sent s ++ [(nextRequest s, heartbeatReq,
                                   heartbeat client (nextRequest s) heartbeatReq)])
                      (S (nextRequest s)) false (stopPanicked s)))
        as (more & H1 & H2 & H3 & H4 & H5 & H6).
      cbn [pulseReady sent nextRequest returned] in H1, H2, H3, H4, H5, H6.
      exists ((nextRequest s, heartbeatReq, heartbeat client (nextRequest s) heartbeatReq)
                :: more).
      rewrite H1, <- app_assoc. cbn [app length map seq fst snd filter isTick].
      repeat split; try lia; try discriminate;
        try (f_equal; exact H3); try (constructor; [split; reflexivity | exact H4]).
Qed.

End LoopFacts.

(** [X21] Whatever happens and in whatever order, no [Stop] of the loop or of
    its surroundings panics; once the goroutine has returned the signal
    is closed, the ticker stopped and the docker client closed; and the
    ticker and the client are left alone as long as it has not. *)
Theorem loop_leaves_everything_closed (client : dockerClient) (req : Request)
    (acts : list Action) :
  let s := exec client req acts loopStart in
  stopPanicked s = false
  /\ (returned s = true ->
      signal s = mkStopSignal ChanClosed (mkOnce true false)
      /\ pulseStopped s = true /\ clientClosed s = true)
  /\ (returned s = false -> pulseStopped s = false /\ clientClosed s = false).
Proof.
  cbv zeta.
  pose proof (exec_invariant client req acts loopStart loopStart_invariant)
    as (P & L & D & R & N).
  split; [exact P|]. split; [|exact N].
  intros Rt. destruct (R Rt) as (C & Ps & Cc).
  split; [|split; assumption].
  destruct (signal (exec client req acts loopStart)) as [ch [d lock]].
  cbn in *. subst ch lock. destruct D as [_ D]. rewrite (D eq_refl). reflexivity.
Qed.

(** [X22] The goroutine returns only after a stop or a cancellation: a run
    with neither leaves it in the loop, whatever the heartbeats it sent
    came to. *)
Theorem loop_returns_only_on_stop_or_cancel (client : dockerClient) (req : Request)
    (acts : list Action) :
  returned (exec client req acts loopStart) = true ->
  In StopCalled acts \/ In ContextDone acts.
Proof.
  intros Rt.
  destruct (in_dec (fun a b : Action => ltac:(decide equality)) StopCalled acts) as [H|N1];
    [left; exact H|].
  destruct (in_dec (fun a b : Action => ltac:(decide equality)) ContextDone acts) as [H|N2];
    [right; exact H|].
  exfalso.
  destruct (exec_goes_on client req acts loopStart N1 N2 eq_refl eq_refl eq_refl)
    as (_ & _ & R).
  rewrite R in Rt. discriminate.
Qed.

Lemma loop_returns_only_on_stop_or_cancel_witness :
  returned (exec (clientAnswering 500 "500 Internal Server Error" "boom")
                 (mkRequest "GET" "http://builder.internal:8080/flyio/v1/extendDeadline"
                            "app" "fo1_token" "flyctl/0.1.0")
                 [Tick; SelectPulse; Tick; StopCalled; SelectPulse; SelectDone] loopStart)
  = true
  /\ (In StopCalled [Tick; SelectPulse; Tick; StopCalled; SelectPulse; SelectDone]
      \/ In ContextDone [Tick; SelectPulse; Tick; StopCalled; SelectPulse; SelectDone]).
Proof.
  assert (R : returned (exec (clientAnswering 500 "500 Internal Server Error" "boom")
                 (mkRequest "GET" "http://builder.internal:8080/flyio/v1/extendDeadline"
                            "app" "fo1_token" "flyctl/0.1.0")
                 [Tick; SelectPulse; Tick; StopCalled; SelectPulse; SelectDone] loopStart)
              = true) by reflexivity.
  split; [exact R|].
  exact (loop_returns_only_on_stop_or_cancel _ _ _ R).
Defined.

(** [X23] After a stop or a cancellation the goroutine can always return: the
    matching case of its [select] is ready, and taking it ends the loop. *)
Theorem loop_can_return_after_stop_or_cancel (client : dockerClient) (req : Request)
    (acts : list Action) :
  let s := exec client req acts loopStart in
  returned s = false ->
  (Chan (signal s) = ChanClosed ->
   returned (exec client req (acts ++ [SelectDone]) loopStart) = true)
  /\ (ctxDone s = true ->
      returned (exec client req (acts ++ [SelectCtx]) loopStart) = true)
  /\ (Chan (signal s) = ChanOpen -> ctxDone s = false ->
      forall a, a = SelectDone \/ a = SelectCtx ->
        exec client req (acts ++ [a]) loopStart = s).
Proof.
  cbv zeta. intros Rt. rewrite !exec_app. cbn [exec act]. rewrite Rt.
  split; [|split].
  - intros ->. reflexivity.
  - intros ->. reflexivity.
  - intros C D a [->| ->]; rewrite exec_app; cbn [exec act]; rewrite Rt, ?C, ?D; reflexivity.
Qed.

Lemma loop_can_return_after_stop_or_cancel_witness :
  returned (exec (clientAnswering 202 "202 Accepted" "")
                 (mkRequest "GET" "http://builder.internal:8080/flyio/v1/extendDeadline"
                            "app" "fo1_token" "flyctl/0.1.0")
                 ([Tick; SelectPulse; ContextDone] ++ [SelectCtx]) loopStart) = true.
Proof.
  apply (loop_can_return_after_stop_or_cancel
           (clientAnswering 202 "202 Accepted" "")
           (mkRequest "GET" "http://builder.internal:8080/flyio/v1/extendDeadline"
                      "app" "fo1_token" "flyctl/0.1.0")
           [Tick; SelectPulse; ContextDone]); reflexivity.
Defined.

(** [X24] The loop sends one heartbeat per tick it takes from the ticker, never
    more heartbeats than there were ticks, each the request of the
    start-up, numbered on from the two requests of the start-up; a failed
    heartbeat changes nothing, and none is sent after the return. *)
Theorem loop_sends_one_heartbeat_per_tick (client : dockerClient) (req : Request)
    (acts more : list Action) :
  let s := exec client req acts loopStart in
  map (fun x => fst (fst x)) (sent s) = seq 2 (length (sent s))
  /\ Forall (fun x => snd (fst x) = req /\ snd x = heartbeat client (fst (fst x)) req)
            (sent s)
  /\ length (sent s) <= length (filter isTick acts)
  /\ (returned s = true -> sent (exec client req (acts ++ more) loopStart) = sent s).
Proof.
  cbv zeta.
  destruct (exec_sent client req acts loopStart) as (l & H1 & H2 & H3 & H4 & H5 & _).
  cbn in H1, H2, H3, H5. rewrite H1.
  split; [exact H3|]. split; [exact H4|]. split; [exact H5|].
  intros Rt. rewrite exec_app.
  destruct (exec_sent client req more (exec client req acts loopStart))
    as (l' & G1 & _ & _ & _ & _ & G6).
  rewrite G1, (G6 Rt), app_nil_r, H1. reflexivity.
Qed.

End HeartbeatLoopFacts.

(* ===================================================================== *)
(** * Facts about span attributes *)
(* ===================================================================== *)

Module SpanFacts.
Import Errors Span.

Lemma distinct_NoDup (l : list string) : distinct l = true -> NoDup l.
Proof.
  induction l as [|x l IH]; cbn [distinct]; intros H; [constructor|].
  apply andb_true_iff in H. destruct H as [H1 H2].
  constructor; [|apply IH, H2].
  intros I. apply negb_true_iff in H1.
  assert (E : existsb (String.eqb x) l = true).
  { apply existsb_exists. exists x. split; [exact I | apply String.eqb_refl]. }
  congruence.
Qed.

Lemma keys_appendJSON (attrs : list KeyValue) (k : string) (m : string + error) :
  map Key (appendJSON attrs k m)
  = map Key attrs ++ (match m with inl _ => [k] | inr _ => [] end).
Proof. destruct m; cbn [appendJSON]; [rewrite map_app | rewrite app_nil_r]; reflexivity. Qed.

Lemma ImageOptions_keys (Marshal MarshalSettings : strmap -> string + error)
    (io : ImageOptions.t) :
  map Key (ImageOptions_ToSpanAttributes Marshal MarshalSettings io)
  = ["imageoptions.app_name"; "imageoptions.work_dir"; "imageoptions.dockerfile_path";
     "imageoptions.ignorefile_path"; "imageoptions.image.ref";
     "imageoptions.image.label"; "imageoptions.publish"; "imageoptions.tag";
     "imageoptions.nocache"; "imageoptions.builtin"; "imageoptions.builder";
     "imageoptions.buildpacks"]
    ++ (match Marshal (ImageOptions.BuildArgs io) with
        | inl _ => ["imageoptions.build_args"] | inr _ => [] end)
    ++ (match Marshal (ImageOptions.ExtraBuildArgs io) with
        | inl _ => ["imageoptions.extra_build_args"] | inr _ => [] end)
    ++ (match Marshal (ImageOptions.BuildSecrets io) with
        | inl _ => ["imageoptions.build_secrets"] | inr _ => [] end)
    ++ (match MarshalSettings (ImageOptions.BuiltInSettings io) with
        | inl _ => ["imageoptions.built_in_settings"] | inr _ => [] end)
    ++ (match Marshal (ImageOptions.Label io) with
        | inl _ => ["imageoptions.labels"] | inr _ => [] end).
Proof.
  unfold ImageOptions_ToSpanAttributes. cbv zeta.
  rewrite !keys_appendJSON, <- !app_assoc. reflexivity.
Qed.

Lemma lookup_appendJSON (k : string) (v : Value) (attrs : list KeyValue) (key : string)
    (m : string + error) :
  lookup k attrs = Some v -> lookup k (appendJSON attrs key m) = Some v.
Proof.
  intros H. destruct m as [b|e]; [|exact H]. cbn [appendJSON].
  induction attrs as [|a attrs IH]; [discriminate|].
  cbn [lookup app] in *. destruct (Key a =? k)%string; [exact H | apply IH, H].
Qed.

(** [X25] Whatever the options and whatever [json.Marshal] answers, no key
    occurs twice among the span attributes of an [ImageOptions], of a
    [RefOptions] or of a [DeploymentImage]; a map that cannot be
    marshalled costs its own attribute and no other. *)
Theorem span_attribute_keys_are_distinct (Marshal MarshalSettings : strmap -> string + error) :
  (forall io : ImageOptions.t,
     NoDup (map Key (ImageOptions_ToSpanAttributes Marshal MarshalSettings io))
     /\ 12 <= length (ImageOptions_ToSpanAttributes Marshal MarshalSettings io) <= 17
     /\ firstn 12 (map Key (ImageOptions_ToSpanAttributes Marshal MarshalSettings io))
        = ["imageoptions.app_name"; "imageoptions.work_dir"; "imageoptions.dockerfile_path";
           "imageoptions.ignorefile_path"; "imageoptions.image.ref";
           "imageoptions.image.label"; "imageoptions.publish"; "imageoptions.tag";
           "imageoptions.nocache"; "imageoptions.builtin"; "imageoptions.builder";
           "imageoptions.buildpacks"])
  /\ (forall ro : RefOptions.t,
        map Key (RefOptions_ToSpanAttributes ro)
        = ["refoptions.app_name"; "refoptions.work_dir"; "refoptions.image.ref";
           "refoptions.image.label"; "refoptions.publish"; "refoptions.tag"]
        /\ NoDup (map Key (RefOptions_ToSpanAttributes ro)))
  /\ (forall di : DeploymentImage.t,
        NoDup (map Key (DeploymentImage_ToSpanAttributes Marshal di))
        /\ map Key (DeploymentImage_ToSpanAttributes Marshal di)
           = ["image.id"; "image.tag"; "image.size"]
             ++ (match Marshal (DeploymentImage.Labels di) with
                 | inl _ => ["image.labels"]
                 | inr _ => []
                 end)).
Proof.
  split; [|split].
  - intros io. rewrite <- (length_map Key), ImageOptions_keys.
    destruct (Marshal (ImageOptions.BuildArgs io));
      destruct (Marshal (ImageOptions.ExtraBuildArgs io));
      destruct (Marshal (ImageOptions.BuildSecrets io));
      destruct (MarshalSettings (ImageOptions.BuiltInSettings io));
      destruct (Marshal (ImageOptions.Label io));
      (split; [apply distinct_NoDup; vm_compute; reflexivity|]);
      (split; [vm_compute; lia | vm_compute; reflexivity]).
  - intros ro. split; [reflexivity|].
    apply distinct_NoDup. vm_compute. reflexivity.
  - intros di. unfold DeploymentImage_ToSpanAttributes. cbv zeta.
    rewrite keys_appendJSON.
    destruct (Marshal (DeploymentImage.Labels di));
      (split; [apply distinct_NoDup; vm_compute; reflexivity | reflexivity]).
Qed.

(** [X26] The span attribute "imageoptions.builder" carries the [BuiltIn]
    option, as "imageoptions.builtin" does: the [Builder] option is in no
    attribute, and changing it changes none. *)
Theorem span_builder_attribute_is_the_builtin
    (Marshal MarshalSettings : strmap -> string + error) (io : ImageOptions.t) :
  lookup "imageoptions.builder" (ImageOptions_ToSpanAttributes Marshal MarshalSettings io)
  = Some (StringValue (ImageOptions.BuiltIn io))
  /\ lookup "imageoptions.builtin" (ImageOptions_ToSpanAttributes Marshal MarshalSettings io)
     = Some (StringValue (ImageOptions.BuiltIn io))
  /\ (forall builder : string,
        ImageOptions_ToSpanAttributes Marshal MarshalSettings (withBuilder builder io)
        = ImageOptions_ToSpanAttributes Marshal MarshalSettings io).
Proof.
  split; [|split].
  - unfold ImageOptions_ToSpanAttributes. cbv zeta.
    do 5 apply lookup_appendJSON. vm_compute. reflexivity.
  - unfold ImageOptions_ToSpanAttributes. cbv zeta.
    do 5 apply lookup_appendJSON. vm_compute. reflexivity.
  - intros builder. reflexivity.
Qed.

End SpanFacts.
